(** * NewsStorage: the Redis-backed news index of [src/api/spider/storage.py]

    The development embeds the class [NewsStorage] shallowly: the Redis
    commands it issues are functions on a finite-map model of the
    database, a pipeline is the list of commands it has queued, and every
    method of the class is a computation in a small state-and-exception
    monad over that database.

    Conventions of the model:
    - one clock, read in milliseconds, serves [time.time()] and the
      expiry of keys; a method call happens at one clock reading;
    - a key reads as absent once the clock has passed its deadline, and
      is dropped by the next command that writes to it;
    - a pipeline is sent as one [MULTI]/[EXEC] block: when the store
      cannot be reached none of its commands runs; otherwise all of them
      run in order, a command that answers an error leaves its key as it
      was while the others take effect, and [execute] raises after the
      block if one of the answers is an error;
    - the integers of the program are unbounded, those of the store are
      not: a score is an IEEE double, an index a 64-bit integer;
    - strings are byte strings, a dictionary is the list of its items
      in insertion order, its values are strings, integers, booleans
      or [None]. *)

From Stdlib Require Import ZArith String Ascii DecimalString DecimalZ.
From stdpp Require Import gmap strings list sorting.

Local Open Scope Z_scope.

(** ** Python values and conversions *)

Module Py.

(** The values found in the dictionaries the class takes and returns.
    The fields read from a Redis hash are strings, [publish_time] is
    converted to an integer; a payload may hold [None] and booleans
    besides (other values, such as floats and nested containers, are
    left out). *)
Inductive pyval :=
| PStr (s : string)
| PInt (n : Z)
| PNone
| PBool (b : bool).

#[global] Instance pyval_eq_dec : EqDecision pyval.
Proof. solve_decision. Defined.

(** [str(n)] for an integer: the canonical decimal numeral. *)
Definition str (n : Z) : string := NilZero.string_of_int (Z.to_int n).

(** [int(s)] for a string: [None] stands for [ValueError]. The parser
    accepts decimal numerals with an optional leading minus sign, which
    covers every string [str] produces; the white space, plus sign and
    underscores that Python tolerates besides are never written by the
    program. *)
Definition int (s : string) : option Z :=
  Z.of_int <$> NilZero.int_of_string s.

(** [x or y] where [x] is an optional integer: [None] and [0] are
    falsy. *)
Definition or_int (x : option Z) (y : Z) : Z :=
  match x with
  | Some n => if n =? 0 then y else n
  | None => y
  end.

(** Truth value of an optional string: [None] and [""] are falsy. *)
Definition truthy (x : option string) : bool :=
  match x with
  | Some s => negb (String.eqb s "")
  | None => false
  end.

(** A dictionary with string keys: its items in insertion order. *)
Definition dict : Type := list (string * pyval).

(** [d.get(k, default)]. *)
Fixpoint get (d : dict) (k : string) (default : pyval) : pyval :=
  match d with
  | [] => default
  | (k', v) :: d => if String.eqb k' k then v else get d k default
  end.

(** [d[k] = v]: an existing key keeps its place. *)
Fixpoint set (d : dict) (k : string) (v : pyval) : dict :=
  match d with
  | [] => [(k, v)]
  | (k', v') :: d =>
      if String.eqb k' k then (k', v) :: d else (k', v') :: set d k v
  end.

(** How the client writes a value into a command (redis-py 3 and
    later): a string as it is, an integer as its decimal numeral;
    [None] and booleans are refused with [DataError], for which [None]
    stands here. *)
Definition encode (v : pyval) : option string :=
  match v with
  | PStr s => Some s
  | PInt n => Some (str n)
  | PNone | PBool _ => None
  end.

(** *** [json.dumps(d, ensure_ascii=False, separators=(',', ':'))] *)

Definition quote : string := String (ascii_of_nat 34) EmptyString.

Definition hex_digit (n : N) : string :=
  String (ascii_of_N (if (n <? 10)%N then 48 + n else 87 + n)) EmptyString.

(** The quotation mark, the backslash and the control characters are
    escaped; everything else is written as it is. *)
Definition json_escape (a : ascii) : string :=
  let n := N_of_ascii a in
  if (n =? 34)%N then "\" +:+ quote
  else if (n =? 92)%N then "\\"
  else if (n =? 10)%N then "\n"
  else if (n =? 13)%N then "\r"
  else if (n =? 9)%N then "\t"
  else if (n =? 8)%N then "\b"
  else if (n =? 12)%N then "\f"
  else if (n <? 32)%N then "\u00" +:+ hex_digit (n / 16) +:+ hex_digit (n mod 16)
  else String a EmptyString.

Fixpoint json_string_body (s : string) : string :=
  match s with
  | EmptyString => EmptyString
  | String a s => json_escape a +:+ json_string_body s
  end.

Definition json_string (s : string) : string :=
  quote +:+ json_string_body s +:+ quote.

Definition json_value (v : pyval) : string :=
  match v with
  | PStr s => json_string s
  | PInt n => str n
  | PNone => "null"
  | PBool true => "true"
  | PBool false => "false"
  end.

Fixpoint json_items (d : dict) : string :=
  match d with
  | [] => EmptyString
  | [(k, v)] => json_string k +:+ ":" +:+ json_value v
  | (k, v) :: d => json_string k +:+ ":" +:+ json_value v +:+ "," +:+ json_items d
  end.

Definition json_dumps (d : dict) : string := "{" +:+ json_items d +:+ "}".

End Py.

(** ** The Redis database *)

Module Redis.

(** One finite map per Redis type, and the table of expiry deadlines
    (milliseconds) that Redis keeps beside the key space. The key
    families of the program are pairwise disjoint (lemma
    [key_families]), so a key never changes type. A score is an IEEE
    double; the program only ever sends integers, and the double nearest
    to an integer is an integer again ([to_double] below), so the scores
    a sorted set holds are recorded by their integer value. *)
Record db := {
  strs : gmap string string;
  hashes : gmap string (gmap string string);
  zsets : gmap string (gmap string Z);
  sets : gmap string (gset string);
  expires : gmap string Z
}.

Definition empty : db :=
  {| strs := ∅; hashes := ∅; zsets := ∅; sets := ∅; expires := ∅ |}.

(** Everything the database holds under one key. *)
Record slot := Slot {
  s_str : option string;
  s_hash : option (gmap string string);
  s_zset : option (gmap string Z);
  s_set : option (gset string);
  s_deadline : option Z
}.

Definition vacant : slot := Slot None None None None None.

Definition at_key (k : string) (s : db) : slot :=
  Slot (strs s !! k) (hashes s !! k) (zsets s !! k) (sets s !! k)
       (expires s !! k).

Definition assign {A} (k : string) (o : option A) (m : gmap string A)
  : gmap string A :=
  partial_alter (λ _, o) k m.

Definition set_key (k : string) (v : slot) (s : db) : db :=
  {| strs := assign k (s_str v) (strs s);
     hashes := assign k (s_hash v) (hashes s);
     zsets := assign k (s_zset v) (zsets s);
     sets := assign k (s_set v) (sets s);
     expires := assign k (s_deadline v) (expires s) |}.

(** Deadline of a time-to-live of [seconds] set at clock [now]. *)
Definition deadline (now seconds : Z) : Z := now + seconds * 1000.

(** A deadline [d] has passed at clock [now]: the key is still there
    at the millisecond of its deadline and gone after it. *)
Definition is_due (d now : Z) : bool := d <? now.

(** A key whose deadline has passed holds nothing. *)
Definition live (now : Z) (v : slot) : slot :=
  match s_deadline v with
  | Some d => if is_due d now then vacant else v
  | None => v
  end.

Definition lookup_key (now : Z) (k : string) (s : db) : slot :=
  live now (at_key k s).

Definition occupied (v : slot) : bool :=
  match s_str v, s_hash v, s_zset v, s_set v with
  | None, None, None, None => false
  | _, _, _, _ => true
  end.

Definition hash_of (v : slot) : gmap string string := default ∅ (s_hash v).
Definition zset_of (v : slot) : gmap string Z := default ∅ (s_zset v).
Definition set_of (v : slot) : gset string := default ∅ (s_set v).

(** *** Reading *)

Definition get (now : Z) (key : string) (s : db) : option string :=
  s_str (lookup_key now key s).

Definition hgetall (now : Z) (key : string) (s : db) : gmap string string :=
  hash_of (lookup_key now key s).

Definition zset_at (now : Z) (key : string) (s : db) : gmap string Z :=
  zset_of (lookup_key now key s).

Definition smembers (now : Z) (key : string) (s : db) : gset string :=
  set_of (lookup_key now key s).

Definition zscore (now : Z) (key member : string) (s : db) : option Z :=
  zset_at now key s !! member.

Definition zcard (now : Z) (key : string) (s : db) : Z :=
  Z.of_nat (size (zset_at now key s)).

(** Order of a sorted set: by score, members of equal score in
    lexicographic order. *)
Definition zset_le (a b : string * Z) : Prop :=
  a.2 < b.2 ∨ (a.2 = b.2 ∧ String.leb a.1 b.1 = true).

#[global] Instance zset_le_dec a b : Decision (zset_le a b).
Proof. unfold zset_le. apply _. Defined.

(** The whole sorted set in ascending order, with scores. *)
Definition zrange_withscores (z : gmap string Z) : list (string * Z) :=
  merge_sort zset_le (map_to_list z).

(** Index window of the rank commands: negative indexes count from the
    end, the window is clipped to the list. *)
Definition lrange {A} (start stop : Z) (l : list A) : list A :=
  let llen := Z.of_nat (length l) in
  let start := if start <? 0 then llen + start else start in
  let stop := if stop <? 0 then llen + stop else stop in
  let start := if start <? 0 then 0 else start in
  if (stop <? start) || (llen <=? start) then []
  else
    let stop := if llen <=? stop then llen - 1 else stop in
    take (Z.to_nat (stop - start + 1)) (drop (Z.to_nat start) l).

(** The members in descending order. *)
Definition zrev_members (z : gmap string Z) : list string :=
  (reverse (zrange_withscores z)).*1.

(** The window of ranks [start .. stop], counted from the highest
    score. *)
Definition zrev_window (now : Z) (key : string) (start stop : Z) (s : db)
  : list string :=
  lrange start stop (zrev_members (zset_at now key s)).

(** An index must be a 64-bit integer. *)
Definition int64 (n : Z) : bool := (- 2 ^ 63 <=? n) && (n <? 2 ^ 63).

(** [ZREVRANGE key start stop]; [None] stands for the error reply
    "value is not an integer or out of range". *)
Definition zrevrange (now : Z) (key : string) (start stop : Z) (s : db)
  : option (list string) :=
  if int64 start && int64 stop then Some (zrev_window now key start stop s)
  else None.

(** *** Scores *)

(** The integer [m >= 0] rounded to a multiple of [2 ^ shift], to the
    nearest one and to the even one of two that are equally near. *)
Definition round_even (m shift : Z) : Z :=
  let q := Z.shiftr m shift in
  let r := m - Z.shiftl q shift in
  let half := Z.shiftl 1 (shift - 1) in
  let q := if (half <? r) || ((r =? half) && Z.odd q) then q + 1 else q in
  Z.shiftl q shift.

(** The double nearest to an integer, were the exponent range
    unbounded: 53 significant bits are kept. *)
Definition nearest_double (n : Z) : Z :=
  let m := Z.abs n in
  let bits := Z.log2 m + 1 in
  if bits <=? 53 then n else Z.sgn n * round_even m (bits - 53).

(** The score a command argument stands for; [None] stands for the
    error reply "value is not a valid float", given to a numeral whose
    double is not finite. *)
Definition to_double (n : Z) : option Z :=
  let d := nearest_double n in
  if Z.abs d <? 2 ^ 1024 then Some d else None.

(** The bound of a score range: here a numeral whose double is not
    finite stands for an infinity, which every score is below or
    above alike. *)
Definition bound (n : Z) : Z :=
  match to_double n with
  | Some d => d
  | None => Z.sgn n * 2 ^ 1024
  end.

Definition in_score_range (lo hi : Z) (sc : Z) : bool :=
  (bound lo <=? sc) && (sc <=? bound hi).

Definition zrangebyscore (now : Z) (key : string) (lo hi : Z) (s : db)
  : list string :=
  (filter (λ p, in_score_range lo hi p.2 = true)
          (zrange_withscores (zset_at now key s))).*1.

(** *** Commands *)

(** The commands the program queues on a pipeline. *)
Inductive command :=
| HMSET (key : string) (mapping : list (string * string))
| EXPIRE (key : string) (seconds : Z)
| SETEX (key : string) (seconds : Z) (value : string)
| ZADD (key member : string) (score : Z)
| SADD (key member : string)
| DEL (key : string)
| ZREM (key member : string)
| SREM (key member : string)
| ZREMRANGEBYSCORE (key : string) (lo hi : Z)
| HGETALL (key : string).

Inductive reply :=
| RBool (b : bool)
| RInt (n : Z)
| RHash (h : gmap string string)
| RError.

Definition cmd_key (c : command) : string :=
  match c with
  | HMSET key _ | EXPIRE key _ | SETEX key _ _ | ZADD key _ _
  | SADD key _ | DEL key | ZREM key _ | SREM key _
  | ZREMRANGEBYSCORE key _ _ | HGETALL key => key
  end.

Definition is_read (c : command) : bool :=
  match c with
  | HGETALL _ => true
  | _ => false
  end.

(** A command that answers an error: [ZADD] with a score that is no
    finite double. The other commands of the program cannot fail on the
    keys of the program. *)
Definition fails (c : command) : bool :=
  match c with
  | ZADD _ _ score =>
      match to_double score with
      | Some _ => false
      | None => true
      end
  | _ => false
  end.

(** A command that leaves the database as it is. *)
Definition inert (c : command) : bool := is_read c || fails c.

Definition is_error (r : reply) : bool :=
  match r with
  | RError => true
  | _ => false
  end.

(** A collection that becomes empty is removed together with its
    deadline. *)
Definition with_hash (h : gmap string string) (v : slot) : slot :=
  if decide (h = ∅) then vacant
  else Slot (s_str v) (Some h) (s_zset v) (s_set v) (s_deadline v).

Definition with_zset (z : gmap string Z) (v : slot) : slot :=
  if decide (z = ∅) then vacant
  else Slot (s_str v) (s_hash v) (Some z) (s_set v) (s_deadline v).

Definition with_set (m : gset string) (v : slot) : slot :=
  if decide (m = ∅) then vacant
  else Slot (s_str v) (s_hash v) (s_zset v) (Some m) (s_deadline v).

Definition bit (b : bool) : Z := if b then 1 else 0.

(** What a command makes of the live content [v] of its key.
    [HMSET]: later pairs of the mapping win, fields not named keep
    their value, the deadline is kept. [SETEX] replaces whatever the
    key held. [ZADD] stores the double its score stands for. *)
Definition effect (now : Z) (c : command) (v : slot) : slot :=
  match c with
  | HMSET _ mapping =>
      with_hash (foldl (λ h p, <[p.1 := p.2]> h) (hash_of v) mapping) v
  | EXPIRE _ seconds =>
      if occupied v then
        if seconds <=? 0 then vacant
        else Slot (s_str v) (s_hash v) (s_zset v) (s_set v)
                  (Some (deadline now seconds))
      else v
  | SETEX _ seconds value =>
      Slot (Some value) None None None (Some (deadline now seconds))
  | ZADD _ member score =>
      match to_double score with
      | Some sc => with_zset (<[member := sc]> (zset_of v)) v
      | None => v
      end
  | SADD _ member => with_set ({[member]} ∪ set_of v) v
  | DEL _ => vacant
  | ZREM _ member => with_zset (delete member (zset_of v)) v
  | SREM _ member => with_set (set_of v ∖ {[member]}) v
  | ZREMRANGEBYSCORE _ lo hi =>
      with_zset (filter (λ p, in_score_range lo hi p.2 = false) (zset_of v)) v
  | HGETALL _ => v
  end.

(** What the command answers. *)
Definition answer (c : command) (v : slot) : reply :=
  match c with
  | HMSET _ _ | SETEX _ _ _ => RBool true
  | EXPIRE _ _ => RBool (occupied v)
  | ZADD _ member score =>
      match to_double score with
      | Some _ => RInt (bit (bool_decide (zset_of v !! member = None)))
      | None => RError
      end
  | SADD _ member => RInt (bit (bool_decide (member ∉ set_of v)))
  | DEL _ => RInt (bit (occupied v))
  | ZREM _ member => RInt (bit (bool_decide (is_Some (zset_of v !! member))))
  | SREM _ member => RInt (bit (bool_decide (member ∈ set_of v)))
  | ZREMRANGEBYSCORE _ lo hi =>
      RInt (Z.of_nat (size (filter (λ p, in_score_range lo hi p.2 = true)
                                   (zset_of v))))
  | HGETALL _ => RHash (hash_of v)
  end.

Definition run (now : Z) (c : command) (s : db) : reply * db :=
  let v := lookup_key now (cmd_key c) s in
  (answer c v,
   if inert c then s else set_key (cmd_key c) (effect now c v) s).

(** The queued commands run in order, one after the other, whatever
    they answer. *)
Fixpoint run_all (now : Z) (pipe : list command) (s : db)
  : list reply * db :=
  match pipe with
  | [] => ([], s)
  | c :: pipe =>
      let '(r, s) := run now c s in
      let '(rs, s) := run_all now pipe s in
      (r :: rs, s)
  end.

(** What the commands of a pipeline that address one key make of the
    content [v] of that key. *)
Definition slot_run (now : Z) (pipe : list command) (v : slot) : slot :=
  foldl (λ v c, if inert c then v else effect now c (live now v)) v pipe.

(** The commands that set a deadline. *)
Definition is_timed (c : command) : bool :=
  match c with
  | EXPIRE _ _ | SETEX _ _ _ => true
  | _ => false
  end.

(** The deadline of [v], if any, lies ahead of [now]. *)
Definition fresh (now : Z) (v : slot) : Prop :=
  match s_deadline v with
  | Some d => is_due d now = false
  | None => True
  end.

End Redis.

(** ** The class [NewsStorage] *)

Module NewsStorage.
Import Py Redis.

(** Key design, as set up by [__init__]. *)
Definition TIMELINE_ZSET : string := "news:timeline".
Definition CATEGORY_PREFIX : string := "news:category:".
Definition LIST_HASH_PREFIX : string := "news:list:".
Definition DETAIL_PREFIX : string := "news:detail:".
Definition CATEGORIES_SET : string := "news:categories".
Definition EXPIRE_TIME : Z := 3600 * 24 * 7.

(** Exceptions a method can end with: the store cannot be reached, a
    conversion fails, the store answers an error, or the client refuses
    a value. *)
Inductive exn :=
| ConnectionError
| ValueError
| ResponseError
| DataError.

Inductive result (A : Type) :=
| Ok (a : A)
| Raise (e : exn).
Arguments Ok {A} a.
Arguments Raise {A} e.

(** A method is a computation on the database that returns a value or
    raises. *)
Definition M (A : Type) : Type := db → result A * db.

#[global] Instance M_ret : MRet M := λ A a s, (Ok a, s).
#[global] Instance M_bind : MBind M := λ A B f m s,
  match m s with
  | (Ok a, s') => f a s'
  | (Raise e, s') => (Raise e, s')
  end.

Definition lift {A} (r : result A) : M A := λ s, (r, s).

(** The dictionary [get_news_list] returns. *)
Record page_result := {
  items : list (gmap string pyval);
  total : Z;
  page : Z;
  page_size : Z;
  has_next : bool
}.

(** The dictionary [cleanup_old_news] returns. *)
Record stats := {
  deleted : Z;
  categories_cleaned : Z
}.

Definition reply_hash (r : reply) : gmap string string :=
  match r with
  | RHash h => h
  | _ => ∅
  end.

(** Body of the loop over [zip(news_ids, hash_results)] for one pair
    with a non-empty hash. *)
Definition item_of (news_id : string) (fields : gmap string string)
  : result (gmap string pyval) :=
  let item := PStr <$> fields in
  match fields !! "publish_time" with
  | Some pt =>
      match Py.int pt with
      | Some n => Ok (<["id" := PStr news_id]> (<["publish_time" := PInt n]> item))
      | None => Raise ValueError
      end
  | None => Ok (<["id" := PStr news_id]> item)
  end.

Fixpoint collect (pairs : list (string * reply))
  : result (list (gmap string pyval)) :=
  match pairs with
  | [] => Ok []
  | (news_id, r) :: pairs =>
      let fields := reply_hash r in
      if decide (fields = ∅) then collect pairs
      else
        match item_of news_id fields with
        | Ok item =>
            match collect pairs with
            | Ok items => Ok (item :: items)
            | Raise e => Raise e
            end
        | Raise e => Raise e
        end
  end.

Section Methods.

(** One call of a method: the clock reads [now] (milliseconds), and
    the store is reachable for the duration of the call or not. *)
Variable now : Z.
Variable up : bool.

(** [json.loads] on a stored detail payload; [None] stands for a
    decoding error. *)
Variable json_loads : string → option dict.

(** A command sent on its own, [self.r.command(...)]. *)
Definition query {A} (f : db → A) : M A := λ s,
  if up then (Ok (f s), s) else (Raise ConnectionError, s).

(** A command sent on its own that may answer an error. *)
Definition query_reply {A} (f : db → option A) : M A := λ s,
  if up then
    match f s with
    | Some a => (Ok a, s)
    | None => (Raise ResponseError, s)
    end
  else (Raise ConnectionError, s).

(** [pipe.execute()]: when the store cannot be reached nothing runs;
    otherwise the whole block runs, and an error among the answers is
    raised afterwards. *)
Definition execute (pipe : list command) : M (list reply) := λ s,
  if up then
    let '(rs, s') := run_all now pipe s in
    if existsb is_error rs then (Raise ResponseError, s') else (Ok rs, s')
  else (Raise ConnectionError, s).

(** The mapping [save_news] passes to [hmset], as the client writes it:
    [None] when one of the four values read from the payload cannot be
    written. *)
Definition list_fields (news_data : dict) (category : string) (score : Z)
  : option (list (string * string)) :=
  title ← encode (Py.get news_data "title" (PStr ""));
  author ← encode (Py.get news_data "author" (PStr ""));
  pic_path ← encode (Py.get news_data "pic_path" (PStr ""));
  url ← encode (Py.get news_data "url" (PStr ""));
  Some [("title", title);
        ("category", category);
        ("publish_time", str score);
        ("author", author);
        ("pic_path", pic_path);
        ("url", url)].

(** The commands [save_news] queues. *)
Definition save_pipe (news_id : string) (fields : list (string * string))
    (news_data : dict) (category : string) (score : Z) : list command :=
  let list_hash_key := LIST_HASH_PREFIX +:+ news_id in
  let detail_key := DETAIL_PREFIX +:+ news_id in
  [HMSET list_hash_key fields;
   EXPIRE list_hash_key EXPIRE_TIME;
   SETEX detail_key EXPIRE_TIME (json_dumps news_data);
   ZADD TIMELINE_ZSET news_id score;
   ZADD (CATEGORY_PREFIX +:+ category) news_id score;
   SADD CATEGORIES_SET category].

(** The connection is opened first; then the block is written, which
    fails with [DataError] before anything is sent. *)
Definition save_news (news_id : string) (news_data : dict)
    (category : string) (publish_time : option Z) : M bool :=
  let score := or_int publish_time now in
  match list_fields news_data category score with
  | Some fields =>
      _ ← execute (save_pipe news_id fields news_data category score);
      mret true
  | None =>
      λ s, (Raise (if up then DataError else ConnectionError), s)
  end.

Definition zset_key_of (category : option string) : string :=
  match category with
  | Some c => if truthy category then CATEGORY_PREFIX +:+ c else TIMELINE_ZSET
  | None => TIMELINE_ZSET
  end.

Definition get_news_list (category : option string) (page page_size : Z)
  : M page_result :=
  let zset_key := zset_key_of category in
  total ← query (zcard now zset_key);
  if total =? 0 then
    mret {| items := []; total := 0; page := page;
            page_size := page_size; has_next := false |}
  else
    let start := (page - 1) * page_size in
    let end_ := start + page_size - 1 in
    news_ids ← query_reply (zrevrange now zset_key start end_);
    match news_ids with
    | [] =>
        mret {| items := []; total := total; page := page;
                page_size := page_size; has_next := false |}
    | _ =>
        let pipe := (λ news_id, HGETALL (LIST_HASH_PREFIX +:+ news_id)) <$> news_ids in
        hash_results ← execute pipe;
        items ← lift (collect (zip news_ids hash_results));
        mret {| items := items; total := total; page := page;
                page_size := page_size;
                has_next := start + Z.of_nat (length items) <? total |}
    end.

Definition get_news_detail (news_id : string) : M (option dict) :=
  detail ← query (Redis.get now (DETAIL_PREFIX +:+ news_id));
  match detail with
  | Some d =>
      if String.eqb d "" then mret None
      else
        match json_loads d with
        | Some data => mret (Some (Py.set data "id" (PStr news_id)))
        | None => lift (Raise ValueError)
        end
  | None => mret None
  end.

Definition get_categories : M (list string) :=
  query (λ s, elements (smembers now CATEGORIES_SET s)).

(** The commands [delete_news] queues. *)
Definition delete_pipe (news_id category : string) : list command :=
  [DEL (LIST_HASH_PREFIX +:+ news_id);
   DEL (DETAIL_PREFIX +:+ news_id);
   ZREM TIMELINE_ZSET news_id;
   ZREM (CATEGORY_PREFIX +:+ category) news_id;
   SREM CATEGORIES_SET category].

Definition delete_news (news_id category : string) : M bool :=
  _ ← execute (delete_pipe news_id category);
  mret true.

(** The commands [cleanup_old_news] queues: the two deletions per old
    identifier, the range removal on the global timeline, and one
    range removal per registered category. *)
Definition dels (news_id : string) : list command :=
  [DEL (LIST_HASH_PREFIX +:+ news_id); DEL (DETAIL_PREFIX +:+ news_id)].

Definition range_removals (cutoff_time : Z) (categories : list string)
  : list command :=
  (λ category,
     ZREMRANGEBYSCORE (CATEGORY_PREFIX +:+ category) 0 cutoff_time)
    <$> categories.

Definition cleanup_pipe (cutoff_time : Z) (old_ids categories : list string)
  : list command :=
  (old_ids ≫= dels)
  ++ [ZREMRANGEBYSCORE TIMELINE_ZSET 0 cutoff_time]
  ++ range_removals cutoff_time categories.

Definition cleanup_old_news (days : Z) : M stats :=
  let cutoff_time := now - days * 86400 * 1000 in
  old_ids ← query (zrangebyscore now TIMELINE_ZSET 0 cutoff_time);
  match old_ids with
  | [] => mret {| deleted := 0; categories_cleaned := 0 |}
  | _ =>
      categories ← query (λ s, elements (smembers now CATEGORIES_SET s));
      _ ← execute (cleanup_pipe cutoff_time old_ids categories);
      mret {| deleted := Z.of_nat (length old_ids);
              categories_cleaned := Z.of_nat (length categories) |}
  end.

End Methods.

(** The two indexes [get_news_list] sends for a page are 64-bit
    integers. *)
Definition window_ok (page page_size : Z) : bool :=
  int64 ((page - 1) * page_size)
  && int64 ((page - 1) * page_size + page_size - 1).

(** Every projection readable at [now] has an integer [publish_time],
    so that the conversion in [get_news_list] cannot fail. *)
Definition numeric (now : Z) (s : db) : Prop :=
  ∀ news_id pt,
    hgetall now (LIST_HASH_PREFIX +:+ news_id) s !! "publish_time" = Some pt →
    is_Some (Py.int pt).

(** What the pipeline of [get_news_list] answers for one identifier. *)
Definition hash_reply (now : Z) (s : db) (news_id : string) : reply :=
  RHash (hgetall now (LIST_HASH_PREFIX +:+ news_id) s).

(** The identifier an item of a page carries. *)
Definition item_id (item : gmap string pyval) : option pyval := item !! "id".

(** The keys of the index: the timelines and the registry. *)
Definition index_key (k : string) : Prop :=
  k = TIMELINE_ZSET ∨ k = CATEGORIES_SET ∨ ∃ c, k = CATEGORY_PREFIX +:+ c.

(** The projection of [news_id] is readable at [now]. *)
Definition listed (now : Z) (s : db) (news_id : string) : Prop :=
  hgetall now (LIST_HASH_PREFIX +:+ news_id) s ≠ ∅.

End NewsStorage.

Import Py Redis NewsStorage.

(** ** Concrete runs *)

Module Scenario.

(** The database after one call that reaches the store, whatever the
    call answers. *)
Definition saved (now : Z) (news_id : string) (news_data : dict)
    (category : string) (publish_time : option Z) (s : db) : db :=
  (save_news now true news_id news_data category publish_time s).2.

Definition deleted_from (now : Z) (news_id category : string) (s : db) : db :=
  (delete_news now true news_id category s).2.

Definition swept (now days : Z) (s : db) : db :=
  (cleanup_old_news now true days s).2.

(** The scenario of the specification: two records of category "tech",
    saved at clock readings 10 and 20. *)
Definition one_record : db :=
  saved 10 "a1" [("title", PStr "T1")] "tech" (Some 1000) Redis.empty.

Definition two_records : db :=
  saved 20 "a2" [("title", PStr "T2")] "tech" (Some 2000) one_record.

(** The projection of a record saved with a title only, and the item a
    page shows for it. *)
Definition titled_fields (title category : string) (publish_time : Z)
  : gmap string string :=
  list_to_map
    [("title", title); ("category", category);
     ("publish_time", str publish_time); ("author", "");
     ("pic_path", ""); ("url", "")].

Definition titled_item (news_id title category : string) (publish_time : Z)
  : gmap string pyval :=
  list_to_map
    [("title", PStr title); ("category", PStr category);
     ("publish_time", PInt publish_time); ("author", PStr "");
     ("pic_path", PStr ""); ("url", PStr ""); ("id", PStr news_id)].

(** A log of mutating calls, each with the clock reading and the state
    of the connection at the time of the call. *)
Inductive request :=
| Save (news_id : string) (news_data : dict) (category : string)
       (publish_time : option Z)
| Delete (news_id category : string)
| Sweep (days : Z).

Definition serve (now : Z) (up : bool) (q : request) (s : db) : db :=
  match q with
  | Save news_id news_data category publish_time =>
      (save_news now up news_id news_data category publish_time s).2
  | Delete news_id category => (delete_news now up news_id category s).2
  | Sweep days => (cleanup_old_news now up days s).2
  end.

Definition replay (log : list (Z * bool * request)) (s : db) : db :=
  foldl (λ s e, serve e.1.1 e.1.2 e.2 s) s log.

Definition saves (news_id : string) (q : request) : bool :=
  match q with
  | Save news_id' _ _ _ => bool_decide (news_id' = news_id)
  | _ => false
  end.

End Scenario.

Import Scenario.

(** ** A decoder for the stored payloads *)

Module Json.

(** [json.loads] on the compact objects [json_dumps] writes: one
    object whose keys are strings and whose values are strings,
    integers, [true], [false] or [null], without white space. [None]
    stands for a decoding error. *)
Definition hex_value (a : ascii) : option N :=
  let n := N_of_ascii a in
  if ((48 <=? n) && (n <=? 57))%N then Some (n - 48)%N
  else if ((97 <=? n) && (n <=? 102))%N then Some (n - 87)%N
  else if ((65 <=? n) && (n <=? 70))%N then Some (n - 55)%N
  else None.

(** The character a backslash and [a] stand for. *)
Definition unescape (a : ascii) : option ascii :=
  let n := N_of_ascii a in
  if ((n =? 34) || (n =? 92) || (n =? 47))%N then Some a
  else if (n =? 98)%N then Some (ascii_of_N 8)
  else if (n =? 102)%N then Some (ascii_of_N 12)
  else if (n =? 110)%N then Some (ascii_of_N 10)
  else if (n =? 114)%N then Some (ascii_of_N 13)
  else if (n =? 116)%N then Some (ascii_of_N 9)
  else None.

(** A [\u] escape of a character below 128; the encoder writes no
    other. *)
Definition unicode_escape (h1 h2 h3 h4 : ascii) : option ascii :=
  match hex_value h1, hex_value h2, hex_value h3, hex_value h4 with
  | Some a, Some b, Some c, Some d =>
      let n := (((a * 16 + b) * 16 + c) * 16 + d)%N in
      if (n <? 128)%N then Some (ascii_of_N n) else None
  | _, _, _, _ => None
  end.

Definition push (a : option ascii) (r : option (string * string))
  : option (string * string) :=
  match a, r with
  | Some a, Some (body, rest) => Some (String a body, rest)
  | _, _ => None
  end.

(** The string that ends at the next unescaped quotation mark, and
    what follows the mark. Control characters are not allowed
    unescaped. *)
Fixpoint loads_body (s : string) : option (string * string) :=
  match s with
  | EmptyString => None
  | String a s1 =>
      let n := N_of_ascii a in
      if (n =? 34)%N then Some (EmptyString, s1)
      else if (n =? 92)%N then
        match s1 with
        | String b s2 =>
            if (N_of_ascii b =? 117)%N then
              match s2 with
              | String h1 (String h2 (String h3 (String h4 s3))) =>
                  push (unicode_escape h1 h2 h3 h4) (loads_body s3)
              | _ => None
              end
            else push (unescape b) (loads_body s2)
        | EmptyString => None
        end
      else if (n <? 32)%N then None
      else push (Some a) (loads_body s1)
  end.

Definition loads_string (s : string) : option (string * string) :=
  match s with
  | String a s1 => if (N_of_ascii a =? 34)%N then loads_body s1 else None
  | EmptyString => None
  end.

(** The longest prefix made of digits and minus signs, and the rest. *)
Fixpoint span_numeral (s : string) : string * string :=
  match s with
  | EmptyString => (EmptyString, EmptyString)
  | String a s1 =>
      let n := N_of_ascii a in
      if ((n =? 45) || ((48 <=? n) && (n <=? 57)))%N then
        let '(numeral, rest) := span_numeral s1 in (String a numeral, rest)
      else (EmptyString, s)
  end.

(** An integer: its canonical numeral, or ["-0"]. *)
Definition loads_int (s : string) : option (pyval * string) :=
  let '(numeral, rest) := span_numeral s in
  match Py.int numeral with
  | Some n =>
      if String.eqb (str n) numeral || String.eqb numeral "-0"
      then Some (PInt n, rest) else None
  | None => None
  end.

Definition loads_value (s : string) : option (pyval * string) :=
  match s with
  | String "n" (String "u" (String "l" (String "l" rest))) => Some (PNone, rest)
  | String "t" (String "r" (String "u" (String "e" rest))) =>
      Some (PBool true, rest)
  | String "f" (String "a" (String "l" (String "s" (String "e" rest)))) =>
      Some (PBool false, rest)
  | String a _ =>
      if (N_of_ascii a =? 34)%N then
        match loads_string s with
        | Some (v, rest) => Some (PStr v, rest)
        | None => None
        end
      else loads_int s
  | EmptyString => None
  end.

(** The items of an object, from the first key to the closing brace. *)
Fixpoint loads_items (fuel : nat) (s : string) : option (list (string * pyval)) :=
  match fuel with
  | O => None
  | S fuel =>
      match loads_string s with
      | Some (k, String ":" s1) =>
          match loads_value s1 with
          | Some (v, String "}" EmptyString) => Some [(k, v)]
          | Some (v, String "," s2) =>
              match loads_items fuel s2 with
              | Some d => Some ((k, v) :: d)
              | None => None
              end
          | _ => None
          end
      | _ => None
      end
  end.

(** A key met again keeps its place and takes the later value. *)
Definition loads (s : string) : option dict :=
  match s with
  | String "{" (String "}" EmptyString) => Some []
  | String "{" s1 =>
      foldl (λ d kv, Py.set d kv.1 kv.2) [] <$> loads_items (String.length s) s1
  | _ => None
  end.

End Json.

(** ** Histories of the store *)

Module History.

(** Whether a category is in the registry after one more call. A
    [save_news] that reaches the store with a payload the client can
    write registers its category, also when it then raises on the
    score; a [delete_news] that reaches the store removes its category;
    nothing else touches the registry. *)
Definition registers (c : string) (b : bool) (e : Z * bool * request) : bool :=
  if e.1.2 then
    match e.2 with
    | Save _ news_data category publish_time =>
        match list_fields news_data category (or_int publish_time e.1.1) with
        | Some _ => if decide (category = c) then true else b
        | None => b
        end
    | Delete _ category => if decide (category = c) then false else b
    | Sweep _ => b
    end
  else b.

Definition registered (log : list (Z * bool * request)) (c : string) : bool :=
  foldl (registers c) false log.

(** The index keys carry no deadline. *)
Definition undated (s : db) : Prop :=
  ∀ k, index_key k → s_deadline (at_key k s) = None.

(** The projection and the detail of an identifier are written and
    removed together: either both keys are vacant, or they hold the
    mapping and the payload of one [save_news] call under one
    deadline. *)
Definition paired (s : db) : Prop :=
  ∀ news_id,
    (at_key (LIST_HASH_PREFIX +:+ news_id) s = vacant
     ∧ at_key (DETAIL_PREFIX +:+ news_id) s = vacant)
    ∨ ∃ news_data category score fields d,
        list_fields news_data category score = Some fields
        ∧ at_key (LIST_HASH_PREFIX +:+ news_id) s
          = Slot None (Some (list_to_map fields)) None None (Some d)
        ∧ at_key (DETAIL_PREFIX +:+ news_id) s
          = Slot (Some (json_dumps news_data)) None None None (Some d).

(** A projection is ranked in the global timeline, and in the timeline
    of the category it names, by the double nearest to the score it
    names, when there is one. *)
Definition ranked (s : db) : Prop :=
  ∀ news_id news_data category score fields sc,
    list_fields news_data category score = Some fields →
    s_hash (at_key (LIST_HASH_PREFIX +:+ news_id) s)
    = Some (list_to_map fields) →
    to_double score = Some sc →
    zset_of (at_key TIMELINE_ZSET s) !! news_id = Some sc
    ∧ zset_of (at_key (CATEGORY_PREFIX +:+ category) s) !! news_id
      = Some sc.

(** The [publish_time] an item of a page shows. *)
Definition item_publish_time (item : gmap string pyval) : option pyval :=
  item !! "publish_time".

(** The identifiers of the items one page shows. *)
Definition shown_ids (now : Z) (s : db) (category : option string)
    (page page_size : Z) : result (list (option pyval)) :=
  match (get_news_list now true category page page_size s).1 with
  | Ok r => Ok (item_id <$> items r)
  | Raise e => Raise e
  end.

(** The identifiers the pages [1..k] show, one page after the other,
    as long as no call raises. *)
Fixpoint shown_upto (now : Z) (s : db) (category : option string)
    (page_size : Z) (k : nat) : result (list (option pyval)) :=
  match k with
  | O => Ok []
  | S k' =>
      match shown_upto now s category page_size k' with
      | Ok before =>
          match shown_ids now s category (Z.of_nat k) page_size with
          | Ok ids => Ok (before ++ ids)
          | Raise e => Raise e
          end
      | Raise e => Raise e
      end
  end.

End History.

Import History.

(** ** Python string methods the callers use *)

Module PyStr.

Definition nl : string := String (ascii_of_nat 10) EmptyString.

(** [s.split(sep)] for a separator of one character: the pieces
    between its occurrences, never an empty list. *)
Fixpoint split (sep : ascii) (s : string) : list string :=
  match s with
  | EmptyString => [EmptyString]
  | String a s =>
      if Ascii.eqb a sep then EmptyString :: split sep s
      else
        match split sep s with
        | piece :: pieces => String a piece :: pieces
        | [] => [String a EmptyString]
        end
  end.

(** [l[0]] and [l[-1]] for a list of strings. *)
Definition item_first (l : list string) : string := List.hd EmptyString l.
Definition item_last (l : list string) : string := List.last l EmptyString.

(** [s.replace(old, new)] for a non-empty [old]: the occurrences are
    found from left to right and do not overlap. [skip] counts the
    characters of a match that are still to be passed over. *)
Fixpoint replace_from (old new : string) (skip : nat) (s : string) : string :=
  match s with
  | EmptyString => EmptyString
  | String a s' =>
      match skip with
      | S skip => replace_from old new skip s'
      | O =>
          if String.prefix old s
          then new +:+ replace_from old new (String.length old - 1) s'
          else String a (replace_from old new 0 s')
      end
  end.

Definition replace (old new s : string) : string := replace_from old new 0 s.

(** [a in s]. *)
Fixpoint contains (a : ascii) (s : string) : bool :=
  match s with
  | EmptyString => false
  | String b s => Ascii.eqb b a || contains a s
  end.

End PyStr.

(** ** The crawler of [src/api/spider/tech163Spider.py] *)

(** The part of [fetch_details] that talks to the store: the
    identifier under which an article is saved, and the test that
    skips an address already stored. *)

Module Spider.
Import PyStr.

Definition category : string := "163_tech".

(** The identifier [fetch_details] derives from the address of an
    article. *)
Definition news_id_of (url : string) : string :=
  let clean_url := item_first (split "#" (item_first (split "?" url))) in
  let news_id := replace ".html" "" (item_last (split "/" clean_url)) in
  category +:+ "_" +:+ news_id.

(** [self.storage.r.exists(key)]. *)
Definition exists_key (now : Z) (key : string) (s : db) : bool :=
  occupied (lookup_key now key s).

(** The test that makes [fetch_details] skip an address. *)
Definition is_duplicate (now : Z) (url : string) (s : db) : bool :=
  exists_key now ("news:detail:" +:+ news_id_of url) s.

End Spider.

(** ** The pages of [src/api/main.py] *)

(** The two handlers that read the store, [lynx_index] and
    [lynx_detail], with the pages they return as strings of bytes. The
    validation of the query parameters by the framework ([page >= 1],
    [size >= 1]) appears as hypotheses where a property needs it; what
    the handlers print is not part of the model. *)

Module Main.
Import PyStr.

(** What a handler ends with besides a page: the exceptions of the
    store, and the lookup errors of the handler itself. *)
Inductive error :=
| StorageError (e : exn)
| KeyError (k : string)
| AttributeError.

Inductive outcome (A : Type) :=
| Done (a : A)
| Failed (e : error).
Arguments Done {A} a.
Arguments Failed {A} e.

(** A value in an f-string; [None] here is the [None] a [get] without
    default returns for a missing key. *)
Definition format (v : option pyval) : string :=
  match v with
  | Some (PStr s) => s
  | Some (PInt n) => str n
  | Some (PBool true) => "True"
  | Some (PBool false) => "False"
  | Some PNone | None => "None"
  end.

(** [d.get(k)] and [d[k]] on a payload. *)
Fixpoint find (d : dict) (k : string) : option pyval :=
  match d with
  | [] => None
  | (k', v) :: d => if String.eqb k' k then Some v else find d k
  end.

(** *** [lynx_index] *)


(** [item["id"].split("_")[-1]]. *)
Definition article_id_of (item : gmap string pyval) : outcome string :=
  match item !! "id" with
  | Some (PStr news_id) => Done (item_last (split "_" news_id))
  | Some (PInt _) | Some PNone | Some (PBool _) => Failed AttributeError
  | None => Failed (KeyError "id")
  end.



Definition prev_link (cate : string) (page : Z) : string :=
  "<a href=" +:+ quote +:+ "/?cate=" +:+ cate +:+ "&page=" +:+ str (page - 1) +:+ quote +:+ ">[ 上一页 ]</a> ".

Definition next_link (cate : string) (page : Z) : string :=
  "<a href=" +:+ quote +:+ "/?cate=" +:+ cate +:+ "&page=" +:+ str (page + 1) +:+ quote +:+ ">[ 下一页 ]</a>".

(** The two links under the list. *)
Definition index_nav (cate : string) (page : Z) (r : page_result) : string :=
  (if 1 <? NewsStorage.page r then prev_link cate page else EmptyString)
  +:+ (if NewsStorage.page r <? total r then next_link cate page
       else EmptyString).



(** *** [lynx_detail] *)

Definition not_found : string :=
  "<h1>文章未找到</h1><a href='/'>返回首页</a>".

Definition detail_page (title author pub_date content : string) : string :=
  nl
  +:+ "    <html>" +:+ nl
  +:+ "    <head><title>" +:+ title +:+ "</title></head>" +:+ nl
  +:+ "    <body>" +:+ nl
  +:+ "        <p><a href=" +:+ quote +:+ "javascript:history.back()" +:+ quote +:+ ">[ 返回列表 ]</a></p>" +:+ nl
  +:+ "        <h1>" +:+ title +:+ "</h1>" +:+ nl
  +:+ "        <p><b>作者：</b>" +:+ author +:+ " | <b>时间：</b>" +:+ pub_date +:+ "</p>" +:+ nl
  +:+ "        <hr>" +:+ nl
  +:+ "        " +:+ content +:+ nl
  +:+ "        <hr>" +:+ nl
  +:+ "        <p><a href=" +:+ quote +:+ "javascript:history.back()" +:+ quote +:+ ">[ 返回列表 ]</a></p>" +:+ nl
  +:+ "    </body>" +:+ nl
  +:+ "    </html>" +:+ nl
  +:+ "    ".

(** The key [lynx_detail] looks up. *)
Definition detail_key (cate article_id : string) : string :=
  cate +:+ "_" +:+ article_id.

Definition lynx_detail (now : Z) (up : bool)
    (json_loads : string → option dict) (article_id cate : string) (s : db)
  : outcome string * db :=
  let key := detail_key cate article_id in
  match get_news_detail now up json_loads key s with
  | (Ok None, s) | (Ok (Some []), s) => (Done not_found, s)
  | (Ok (Some target_data), s) =>
      (match find target_data "title" with
       | Some title =>
           Done (detail_page (format (Some title))
                   (format (find target_data "author"))
                   (format (find target_data "pubDate"))
                   (format (Some (Py.get target_data "content" (PStr "")))))
       | None => Failed (KeyError "title")
       end, s)
  | (Raise e, s) => (Failed (StorageError e), s)
  end.

End Main.

(** * Properties *)

(** ** Conversions *)

Section Conversions.

Lemma to_int_not_nil (n : Z) :
  Z.to_int n ≠ Decimal.Pos Decimal.Nil ∧ Z.to_int n ≠ Decimal.Neg Decimal.Nil.
Proof.
  destruct n as [|p|p]; simpl; split; try discriminate;
    intros [= H]; by apply DecimalPos.Unsigned.to_uint_nonnil in H.
Qed.

(** [int(str(n)) == n]. *)
Lemma int_str (n : Z) : Py.int (str n) = Some n.
Proof.
  unfold Py.int, str.
  destruct (to_int_not_nil n) as [Hp Hn].
  rewrite NilZero.isi by assumption.
  simpl. f_equal. apply DecimalZ.of_to.
Qed.

Example str_1000 : str 1000 = "1000".
Proof. reflexivity. Qed.

Example str_negative : str (-5) = "-5".
Proof. reflexivity. Qed.

Example int_leading_zeros : Py.int "007" = Some 7.
Proof. reflexivity. Qed.

Example int_not_a_number : Py.int "12a" = None.
Proof. reflexivity. Qed.

Example json_dumps_empty : json_dumps [] = "{}".
Proof. reflexivity. Qed.

Example json_dumps_title :
  json_dumps [("title", PStr "T1"); ("url", PStr "a\b")]
  = "{" +:+ quote +:+ "title" +:+ quote +:+ ":" +:+ quote +:+ "T1" +:+ quote
    +:+ "," +:+ quote +:+ "url" +:+ quote +:+ ":" +:+ quote +:+ "a\\b"
    +:+ quote +:+ "}".
Proof. reflexivity. Qed.

Example json_dumps_scalars :
  json_dumps [("pubDate", PNone); ("n", PInt (-5)); ("ok", PBool true)]
  = "{" +:+ quote +:+ "pubDate" +:+ quote +:+ ":null,"
    +:+ quote +:+ "n" +:+ quote +:+ ":-5,"
    +:+ quote +:+ "ok" +:+ quote +:+ ":true}".
Proof. reflexivity. Qed.

Lemma or_int_nonzero (x : option Z) (y : Z) : y ≠ 0 → or_int x y ≠ 0.
Proof.
  intros Hy. destruct x as [n|]; simpl; [|done].
  destruct (Z.eqb_spec n 0); done.
Qed.

End Conversions.

(** ** Scores and indexes of the store *)

Section Doubles.

Lemma pow_53_1024 : 2 ^ 53 < 2 ^ 1024.
Proof. reflexivity. Qed.

(** Integers up to [2 ^ 53] in magnitude are doubles. *)
Lemma nearest_double_exact n : Z.abs n ≤ 2 ^ 53 → nearest_double n = n.
Proof.
  intros Hn. destruct (decide (Z.abs n = 2 ^ 53)) as [He|Hne].
  - destruct (Z.abs_eq_or_opp n) as [H|H]; rewrite H in He.
    + subst n. vm_compute. reflexivity.
    + assert (n = - 2 ^ 53) as -> by lia. vm_compute. reflexivity.
  - unfold nearest_double. cbv zeta.
    destruct (Z.leb_spec (Z.log2 (Z.abs n) + 1) 53) as [|Hbits]; [done|].
    exfalso. destruct (decide (Z.abs n = 0)) as [H0|H0].
    + rewrite H0 in Hbits. cbn in Hbits. lia.
    + assert (Z.log2 (Z.abs n) < 53); [|lia].
      apply Z.log2_lt_pow2; lia.
Qed.

Lemma to_double_exact n : Z.abs n ≤ 2 ^ 53 → to_double n = Some n.
Proof.
  intros Hn. unfold to_double. cbv zeta. rewrite nearest_double_exact by done.
  pose proof pow_53_1024.
  by rewrite (proj2 (Z.ltb_lt _ _)) by lia.
Qed.

Lemma bound_exact n : Z.abs n ≤ 2 ^ 53 → bound n = n.
Proof. intros Hn. unfold bound. by rewrite to_double_exact. Qed.

Lemma bound_0 : bound 0 = 0.
Proof. reflexivity. Qed.

(** Rounding keeps at least the leading bit: no integer other than 0
    becomes the score 0. *)
Lemma nearest_double_0 n : nearest_double n = 0 → n = 0.
Proof.
  unfold nearest_double. cbv zeta.
  destruct (Z.leb_spec (Z.log2 (Z.abs n) + 1) 53) as [|Hbits]; [done|].
  intros H0. exfalso.
  assert (0 < Z.abs n) as Hpos.
  { destruct (decide (Z.abs n = 0)) as [He|]; [|lia].
    rewrite He in Hbits. cbn in Hbits. lia. }
  set (m := Z.abs n) in *. set (shift := Z.log2 m + 1 - 53) in *.
  assert (0 < shift) as Hshift by (subst shift; lia).
  assert (0 < Z.shiftr m shift) as Hq.
  { rewrite Z.shiftr_div_pow2 by lia.
    apply Z.div_str_pos. split; [apply Z.pow_pos_nonneg; lia|].
    etrans; [|apply (proj1 (Z.log2_spec m Hpos))].
    apply Z.pow_le_mono_r; subst shift; lia. }
  assert (round_even m shift = 0) as Hr by (destruct n; cbn in H0; lia).
  unfold round_even in Hr. cbv zeta in Hr.
  apply Z.shiftl_eq_0_iff in Hr; [|lia].
  destruct (_ || _); lia.
Qed.

Lemma to_double_0 n : to_double n = Some 0 → n = 0.
Proof.
  unfold to_double. cbv zeta. destruct (_ <? _); [|done].
  intros [= H]. by apply nearest_double_0.
Qed.

(** *** Rounding keeps the order *)

Lemma round_even_eq m shift :
  0 < shift →
  round_even m shift
  = (if (2 ^ (shift - 1) <? m - m / 2 ^ shift * 2 ^ shift)
        || ((m - m / 2 ^ shift * 2 ^ shift =? 2 ^ (shift - 1))
            && Z.odd (m / 2 ^ shift))
     then m / 2 ^ shift + 1 else m / 2 ^ shift) * 2 ^ shift.
Proof.
  intros Hs. unfold round_even. cbv zeta.
  rewrite !Z.shiftl_mul_pow2, Z.shiftr_div_pow2 by lia.
  by rewrite Z.mul_1_l.
Qed.

Lemma round_even_mono m m' shift :
  0 < shift → 0 ≤ m ≤ m' → round_even m shift ≤ round_even m' shift.
Proof.
  intros Hs Hm. rewrite !round_even_eq by done.
  assert (0 < 2 ^ shift) as HP by (apply Z.pow_pos_nonneg; lia).
  pose proof (Z.div_le_mono m m' (2 ^ shift) HP (proj2 Hm)) as Hq.
  pose proof (Z.mul_div_le m (2 ^ shift) HP).
  pose proof (Z.mul_div_le m' (2 ^ shift) HP).
  pose proof (Z.mul_succ_div_gt m (2 ^ shift) HP).
  pose proof (Z.mul_succ_div_gt m' (2 ^ shift) HP).
  set (P := 2 ^ shift) in *. set (q := m / P) in *. set (q' := m' / P) in *.
  set (h := 2 ^ (shift - 1)) in *.
  destruct (Z.eq_dec q q') as [He|Hne].
  - rewrite <- He. clearbody q q'. subst q'.
    destruct (Z.ltb_spec h (m - q * P)), (Z.ltb_spec h (m' - q * P)),
      (Z.eqb_spec (m - q * P) h), (Z.eqb_spec (m' - q * P) h),
      (Z.odd q); cbn; nia.
  - destruct (_ || _), (_ || _); nia.
Qed.

Lemma round_even_bounds m :
  0 < m → 53 ≤ Z.log2 m →
  2 ^ Z.log2 m ≤ round_even m (Z.log2 m + 1 - 53) ≤ 2 ^ (Z.log2 m + 1).
Proof.
  intros Hm Hl. rewrite round_even_eq by lia.
  destruct (Z.log2_spec m Hm) as [Hlo Hhi].
  set (s := Z.log2 m + 1 - 53) in *.
  assert (0 < 2 ^ s) as HP by (apply Z.pow_pos_nonneg; lia).
  assert (2 ^ Z.log2 m = 2 ^ 52 * 2 ^ s) as Ha.
  { rewrite <- Z.pow_add_r by lia. f_equal. lia. }
  assert (2 ^ (Z.log2 m + 1) = 2 ^ 53 * 2 ^ s) as Hb.
  { rewrite <- Z.pow_add_r by lia. f_equal. lia. }
  replace (Z.succ (Z.log2 m)) with (Z.log2 m + 1) in Hhi by lia.
  rewrite Ha in *. rewrite Hb in *.
  assert (2 ^ 52 ≤ m / 2 ^ s) as Hq1 by (apply Z.div_le_lower_bound; lia).
  assert (m / 2 ^ s < 2 ^ 53) as Hq2 by (apply Z.div_lt_upper_bound; lia).
  set (P := 2 ^ s) in *. set (q := m / P) in *.
  assert (2 ^ 53 = 2 ^ 52 * 2) as Hc by reflexivity.
  set (A := 2 ^ 52) in *. set (B := 2 ^ 53) in *.
  destruct (_ || _); nia.
Qed.

(** The rounding of a magnitude. *)
Lemma nearest_double_abs n :
  nearest_double n = Z.sgn n * nearest_double (Z.abs n).
Proof.
  unfold nearest_double. cbv zeta. rewrite Z.abs_idemp.
  destruct (_ <=? 53).
  - symmetry. rewrite Z.mul_comm. apply Z.abs_sgn.
  - destruct (Z.abs_spec n) as [[? ->]|[? ->]]; [|lia].
    destruct (Z.eq_dec n 0) as [->|]; [done|].
    rewrite (Z.sgn_pos n) by lia. lia.
Qed.

Lemma nearest_double_bounds m :
  0 < m → 2 ^ Z.log2 m ≤ nearest_double m ≤ 2 ^ (Z.log2 m + 1).
Proof.
  intros Hm. unfold nearest_double. cbv zeta. rewrite Z.abs_eq by lia.
  destruct (Z.log2_spec m Hm) as [Hlo Hhi].
  replace (Z.succ (Z.log2 m)) with (Z.log2 m + 1) in Hhi by lia.
  destruct (Z.leb_spec (Z.log2 m + 1) 53); [lia|].
  rewrite Z.sgn_pos, Z.mul_1_l by done.
  apply round_even_bounds; lia.
Qed.

Lemma nearest_double_mono_pos m m' :
  0 ≤ m ≤ m' → nearest_double m ≤ nearest_double m'.
Proof.
  intros [H0 Hle]. destruct (Z.eq_dec m 0) as [->|Hm].
  { destruct (Z.eq_dec m' 0) as [->|]; [done|].
    pose proof (nearest_double_bounds m') as Hb.
    assert (0 < 2 ^ Z.log2 m') by (apply Z.pow_pos_nonneg; [lia|apply Z.log2_nonneg]).
    change (nearest_double 0) with 0. lia. }
  pose proof (Z.log2_le_mono m m' Hle) as Hl.
  destruct (Z.eq_dec (Z.log2 m) (Z.log2 m')) as [He|Hne].
  - unfold nearest_double. cbv zeta. rewrite !Z.abs_eq, <- He by lia.
    destruct (Z.leb_spec (Z.log2 m + 1) 53); [done|].
    rewrite !Z.sgn_pos, !Z.mul_1_l by lia.
    apply round_even_mono; lia.
  - pose proof (nearest_double_bounds m) as Hb.
    pose proof (nearest_double_bounds m') as Hb'.
    assert (2 ^ (Z.log2 m + 1) ≤ 2 ^ Z.log2 m')
      by (apply Z.pow_le_mono_r; lia).
    lia.
Qed.

Lemma nearest_double_nonneg m : 0 ≤ m → 0 ≤ nearest_double m.
Proof.
  intros Hm. change 0 with (nearest_double 0) at 1.
  apply nearest_double_mono_pos. lia.
Qed.

(** Rounding to the nearest double keeps the order. *)
Lemma nearest_double_mono n n' :
  n ≤ n' → nearest_double n ≤ nearest_double n'.
Proof.
  intros Hle. rewrite (nearest_double_abs n), (nearest_double_abs n').
  pose proof (nearest_double_nonneg (Z.abs n) (Z.abs_nonneg n)).
  pose proof (nearest_double_nonneg (Z.abs n') (Z.abs_nonneg n')).
  destruct (Z.sgn_spec n) as [[? ->]|[[? ->]|[? ->]]],
    (Z.sgn_spec n') as [[? ->]|[[? ->]|[? ->]]]; try lia.
  - assert (nearest_double (Z.abs n) ≤ nearest_double (Z.abs n')); [|lia].
    apply nearest_double_mono_pos. lia.
  - assert (nearest_double (Z.abs n') ≤ nearest_double (Z.abs n)); [|lia].
    apply nearest_double_mono_pos. lia.
Qed.

Lemma bound_clamp n :
  bound n = Z.max (- 2 ^ 1024) (Z.min (2 ^ 1024) (nearest_double n)).
Proof.
  unfold bound, to_double. cbv zeta.
  assert (0 < 2 ^ 1024) as HP by reflexivity. set (P := 2 ^ 1024) in *.
  destruct (Z.ltb_spec (Z.abs (nearest_double n)) P) as [Hlt|Hge]; [lia|].
  rewrite (nearest_double_abs n) in Hge |- *.
  pose proof (nearest_double_nonneg (Z.abs n) (Z.abs_nonneg n)).
  destruct (Z.sgn_spec n) as [[? ->]|[[? ->]|[? ->]]]; lia.
Qed.

(** The store reads range bounds in their order. *)
Lemma bound_mono n n' : n ≤ n' → bound n ≤ bound n'.
Proof.
  intros Hle. rewrite !bound_clamp.
  pose proof (nearest_double_mono n n' Hle). lia.
Qed.

Lemma to_double_bound n sc : to_double n = Some sc → bound n = sc.
Proof. unfold bound. by intros ->. Qed.

End Doubles.

(** ** Keys *)

(** Decides a disequality between keys built from the prefixes. *)
Ltac key_neq :=
  let H := fresh in
  intros H;
  unfold TIMELINE_ZSET, CATEGORY_PREFIX, LIST_HASH_PREFIX, DETAIL_PREFIX,
    CATEGORIES_SET in H;
  simpl in H;
  first [ discriminate H | injection H; intros; subst; congruence ].

Section Keys.
Implicit Types a b c : string.

Lemma list_key_inj a b :
  LIST_HASH_PREFIX +:+ a = LIST_HASH_PREFIX +:+ b → a = b.
Proof. by intros [=]. Qed.

Lemma detail_key_inj a b :
  DETAIL_PREFIX +:+ a = DETAIL_PREFIX +:+ b → a = b.
Proof. by intros [=]. Qed.

Lemma category_key_inj a b :
  CATEGORY_PREFIX +:+ a = CATEGORY_PREFIX +:+ b → a = b.
Proof. by intros [=]. Qed.

(** The five key families never meet. *)
Lemma key_families a b c :
  LIST_HASH_PREFIX +:+ a ≠ DETAIL_PREFIX +:+ b
  ∧ LIST_HASH_PREFIX +:+ a ≠ CATEGORY_PREFIX +:+ c
  ∧ LIST_HASH_PREFIX +:+ a ≠ TIMELINE_ZSET
  ∧ LIST_HASH_PREFIX +:+ a ≠ CATEGORIES_SET
  ∧ DETAIL_PREFIX +:+ b ≠ CATEGORY_PREFIX +:+ c
  ∧ DETAIL_PREFIX +:+ b ≠ TIMELINE_ZSET
  ∧ DETAIL_PREFIX +:+ b ≠ CATEGORIES_SET
  ∧ CATEGORY_PREFIX +:+ c ≠ TIMELINE_ZSET
  ∧ CATEGORY_PREFIX +:+ c ≠ CATEGORIES_SET
  ∧ TIMELINE_ZSET ≠ CATEGORIES_SET.
Proof. repeat split; key_neq. Qed.

End Keys.

(** ** Sorted sets *)

Section SortedSets.
Implicit Types z : gmap string Z.

#[local] Instance zset_le_total : Total zset_le.
Proof.
  intros [a x] [b y]. unfold zset_le. simpl.
  destruct (Z.lt_trichotomy x y) as [?|[->|?]]; [by left; left| |by right; left].
  destruct (String.leb_total a b); [left|right]; by right.
Qed.

Lemma zrange_withscores_perm z : zrange_withscores z ≡ₚ map_to_list z.
Proof. apply merge_sort_Permutation. Qed.

Lemma zrange_withscores_sorted z : Sorted zset_le (zrange_withscores z).
Proof. apply (Sorted_merge_sort zset_le). Qed.

Lemma elem_of_zrange_withscores z m sc :
  (m, sc) ∈ zrange_withscores z ↔ z !! m = Some sc.
Proof. by rewrite zrange_withscores_perm, elem_of_map_to_list. Qed.

Lemma zrange_withscores_NoDup z : NoDup (zrange_withscores z).*1.
Proof. rewrite zrange_withscores_perm. apply NoDup_fst_map_to_list. Qed.

Lemma zrange_withscores_length z : length (zrange_withscores z) = size z.
Proof. by rewrite zrange_withscores_perm, length_map_to_list. Qed.

(** The scores of the whole set, read downwards. *)
Lemma zrev_scores_sorted z :
  StronglySorted Z.ge (reverse (zrange_withscores z)).*2.
Proof.
  apply Sorted_StronglySorted; [intros ???; lia|].
  apply (Sorted_fmap snd (flip zset_le)).
  - intros [a x] [b y] [?|[? _]]; simpl in *; lia.
  - apply Sorted_reverse, zrange_withscores_sorted.
Qed.

Lemma zrev_members_length z : length (zrev_members z) = size z.
Proof.
  unfold zrev_members.
  by rewrite length_fmap, length_reverse, zrange_withscores_length.
Qed.

Lemma zrev_members_NoDup z : NoDup (zrev_members z).
Proof.
  unfold zrev_members. rewrite fmap_reverse, reverse_Permutation.
  apply zrange_withscores_NoDup.
Qed.

Lemma elem_of_zrev_members z m : m ∈ zrev_members z ↔ is_Some (z !! m).
Proof.
  unfold zrev_members. rewrite fmap_reverse, elem_of_reverse, list_elem_of_fmap.
  split.
  - intros ([m' sc] & -> & H). apply elem_of_zrange_withscores in H. eauto.
  - intros [sc H]. exists (m, sc). split; [done|].
    by apply elem_of_zrange_withscores.
Qed.

(** One member, one entry. *)
Lemma filter_fst_NoDup {A B} `{EqDecision A} (l : list (A * B)) m x :
  NoDup l.*1 → (m, x) ∈ l → filter (λ p, p.1 = m) l = [(m, x)].
Proof.
  induction l as [|[a y] l IH]; simpl; intros Hnd Hin.
  { by apply elem_of_nil in Hin. }
  apply NoDup_cons in Hnd as [Hnotin Hnd].
  apply elem_of_cons in Hin as [[= <- <-]|Hin].
  - rewrite filter_cons_True by done. f_equal.
    clear IH Hnd. induction l as [|[b w] l IH]; [done|].
    simpl in Hnotin. apply not_elem_of_cons in Hnotin as [Hne Hnotin].
    rewrite filter_cons_False by (simpl; congruence). auto.
  - rewrite filter_cons_False; [auto|].
    simpl. intros ->. apply Hnotin, list_elem_of_fmap. by exists (m, x).
Qed.

Lemma zrange_withscores_entry z m sc :
  z !! m = Some sc →
  filter (λ p, p.1 = m) (zrange_withscores z) = [(m, sc)].
Proof.
  intros Hm. apply filter_fst_NoDup.
  - apply zrange_withscores_NoDup.
  - by apply elem_of_zrange_withscores.
Qed.

(** *** Index windows *)

Lemma lrange_window {A} (l : list A) (start stop : Z) :
  0 ≤ start → start ≤ stop →
  lrange start stop l
  = take (Z.to_nat (stop - start + 1)) (drop (Z.to_nat start) l).
Proof.
  intros H0 Hle. unfold lrange.
  destruct (Z.ltb_spec start 0); [lia|].
  destruct (Z.ltb_spec stop 0); [lia|].
  destruct (Z.ltb_spec start 0); [lia|].
  destruct (Z.ltb_spec stop start); [lia|]. simpl.
  destruct (Z.leb_spec (Z.of_nat (length l)) start).
  - rewrite drop_ge by lia. by rewrite take_nil.
  - destruct (Z.leb_spec (Z.of_nat (length l)) stop); [|done].
    rewrite !take_ge; [done|rewrite length_drop; lia..].
Qed.

Lemma lrange_nil {A} (start stop : Z) : lrange start stop (@nil A) = [].
Proof.
  unfold lrange. destruct (_ || _); [done|]. by rewrite drop_nil, take_nil.
Qed.

Lemma zrev_window_empty now key start stop s :
  zcard now key s = 0 → zrev_window now key start stop s = [].
Proof.
  unfold zcard, zrev_window. intros H0.
  assert (zrev_members (zset_at now key s) = []) as ->
    by (apply nil_length_inv; rewrite zrev_members_length; lia).
  apply lrange_nil.
Qed.

(** A window never reaches past the end of the list. *)
Lemma lrange_length {A} (l : list A) (start stop : Z) :
  Z.of_nat (length (lrange start stop l)) ≤ Z.of_nat (length l)
  ∧ (lrange start stop l ≠ [] →
     start + Z.of_nat (length (lrange start stop l)) ≤ Z.of_nat (length l)).
Proof.
  unfold lrange.
  set (llen := Z.of_nat (length l)).
  set (start1 := if start <? 0 then llen + start else start).
  set (stop1 := if stop <? 0 then llen + stop else stop).
  set (start2 := if start1 <? 0 then 0 else start1).
  assert (0 ≤ start2 ∧ (0 ≤ start → start2 = start)) as [H0 Hsame].
  { subst start2 start1.
    destruct (Z.ltb_spec start 0);
      [destruct (Z.ltb_spec (llen + start) 0)|destruct (Z.ltb_spec start 0)];
      lia. }
  clearbody start2 stop1. clear start1. subst llen.
  destruct (_ || _); [simpl; split; [lia|done]|].
  rewrite length_take, length_drop.
  generalize (Z.to_nat ((if Z.of_nat (length l) <=? stop1
                         then Z.of_nat (length l) - 1 else stop1)
                        - start2 + 1)).
  intros n. split; [lia|].
  intros Hne.
  assert (Z.to_nat start2 < length l)%nat as Hlt.
  { apply Nat.lt_nge. intros Hge. apply Hne.
    by rewrite drop_ge, take_nil. }
  destruct (Z.le_gt_cases 0 start) as [Hs|Hs].
  - rewrite Hsame in * by done. lia.
  - lia.
Qed.

Lemma window_length {A} (l : list A) (n k : nat) :
  length (take n (drop k l)) = (n `min` (length l - k))%nat.
Proof. by rewrite length_take, length_drop. Qed.


End SortedSets.

(** ** Locality of the commands *)

Section Locality.
Implicit Types (s : db) (c : command) (k : string) (v : slot).

Lemma at_key_set_key k k' v s :
  at_key k (set_key k' v s) = if decide (k = k') then v else at_key k s.
Proof.
  unfold at_key, set_key, assign. simpl. destruct v. case_decide as Hk.
  - subst. by rewrite !lookup_partial_alter_eq.
  - by rewrite !lookup_partial_alter_ne.
Qed.

Lemma db_eq s s' : (∀ k, at_key k s = at_key k s') → s = s'.
Proof.
  intros H. destruct s, s'. f_equal; apply map_eq; intros k;
    specialize (H k); unfold at_key in H; simpl in H; congruence.
Qed.

Lemma at_key_run now c s k :
  at_key k (run now c s).2
  = if decide (cmd_key c = k) then slot_run now [c] (at_key k s)
    else at_key k s.
Proof.
  unfold run, slot_run, lookup_key. simpl.
  destruct (inert c).
  - by case_decide.
  - rewrite at_key_set_key. repeat case_decide; by subst.
Qed.

Lemma run_all_cons now c pipe s :
  run_all now (c :: pipe) s
  = ((run now c s).1 :: (run_all now pipe (run now c s).2).1,
     (run_all now pipe (run now c s).2).2).
Proof.
  cbn [run_all]. destruct (run now c s) as [r s1]. cbn [fst snd].
  by destruct (run_all now pipe s1).
Qed.

Lemma run_all_app now pipe1 pipe2 s :
  (run_all now (pipe1 ++ pipe2) s).2
  = (run_all now pipe2 (run_all now pipe1 s).2).2.
Proof.
  revert s. induction pipe1 as [|c pipe1 IH]; intros s; [done|].
  rewrite <-app_comm_cons, !run_all_cons. simpl. apply IH.
Qed.

Lemma at_key_run_all now pipe s k :
  at_key k (run_all now pipe s).2
  = slot_run now (filter (λ c, cmd_key c = k) pipe) (at_key k s).
Proof.
  revert s. induction pipe as [|c pipe IH]; intros s; [done|].
  rewrite run_all_cons. cbn [snd].
  rewrite IH, at_key_run, filter_cons. by case_decide.
Qed.

(** A pipeline of reads answers from the database as it is and leaves
    it alone. *)
Lemma run_all_hgetall now (keys : list string) s :
  run_all now (HGETALL <$> keys) s
  = ((λ k, RHash (hgetall now k s)) <$> keys, s).
Proof.
  induction keys as [|k keys IH]; [done|].
  rewrite fmap_cons, run_all_cons. unfold run at 1 2 3. simpl.
  by rewrite IH.
Qed.

End Locality.

(** ** One key, one command *)

Section Slots.
Implicit Types (v : slot) (now t : Z).

Lemma fresh_live now v : fresh now (live now v).
Proof.
  unfold live, fresh. destruct (s_deadline v) as [d|] eqn:Hd; [|by rewrite Hd].
  destruct (is_due d now) eqn:Hdue; [done|]. by rewrite Hd.
Qed.

Lemma live_fresh now v : fresh now v → live now v = v.
Proof.
  unfold live, fresh. destruct (s_deadline v) as [d|]; [|done].
  by intros ->.
Qed.

Lemma fresh_with_hash now h v : fresh now v → fresh now (with_hash h v).
Proof. unfold with_hash. by case_decide. Qed.

Lemma fresh_with_zset now z v : fresh now v → fresh now (with_zset z v).
Proof. unfold with_zset. by case_decide. Qed.

Lemma fresh_with_set now m v : fresh now v → fresh now (with_set m v).
Proof. unfold with_set. by case_decide. Qed.

Lemma zset_of_with_zset z v : zset_of (with_zset z v) = z.
Proof. unfold with_zset. by case_decide; subst. Qed.

Lemma set_of_with_set m v : set_of (with_set m v) = m.
Proof. unfold with_set. by case_decide; subst. Qed.

Lemma hash_of_with_hash h v : hash_of (with_hash h v) = h.
Proof. unfold with_hash. by case_decide; subst. Qed.

Lemma is_due_window now seconds t :
  t < now + seconds * 1000 → is_due (deadline now seconds) t = false.
Proof. unfold is_due, deadline. intros. apply Z.ltb_ge. lia. Qed.

(** The deadline itself is the last millisecond of the key. *)
Lemma is_due_until now seconds t :
  t ≤ now + seconds * 1000 → is_due (deadline now seconds) t = false.
Proof. unfold is_due, deadline. intros. apply Z.ltb_ge. lia. Qed.

Lemma is_due_after now seconds t :
  now + seconds * 1000 < t → is_due (deadline now seconds) t = true.
Proof. unfold is_due, deadline. intros. apply Z.ltb_lt. lia. Qed.

(** [ZADD] with a score the store accepts, and with one it refuses. *)
Lemma slot_run_zadd now key member score sc v :
  to_double score = Some sc →
  slot_run now [ZADD key member score] v
  = with_zset (<[member := sc]> (zset_of (live now v))) (live now v).
Proof.
  intros Hsc. unfold slot_run, inert. cbn [foldl is_read fails effect orb].
  by rewrite Hsc.
Qed.

Lemma slot_run_zadd_fails now key member score v :
  to_double score = None → slot_run now [ZADD key member score] v = v.
Proof.
  intros Hsc. unfold slot_run, inert. cbn [foldl is_read fails orb].
  by rewrite Hsc.
Qed.

(** Commands on sorted sets and sets, read back at the same clock. *)
Lemma zset_of_zadd now key member score sc v :
  to_double score = Some sc →
  zset_of (live now (slot_run now [ZADD key member score] v))
  = <[member := sc]> (zset_of (live now v)).
Proof.
  intros Hsc. rewrite (slot_run_zadd _ _ _ _ sc) by done.
  rewrite live_fresh by apply fresh_with_zset, fresh_live.
  apply zset_of_with_zset.
Qed.


Lemma zset_of_zrem now key member v :
  zset_of (live now (slot_run now [ZREM key member] v))
  = delete member (zset_of (live now v)).
Proof.
  unfold slot_run. simpl.
  rewrite live_fresh by apply fresh_with_zset, fresh_live.
  apply zset_of_with_zset.
Qed.

Lemma zset_of_zremrangebyscore now key lo hi v :
  zset_of (live now (slot_run now [ZREMRANGEBYSCORE key lo hi] v))
  = filter (λ p, in_score_range lo hi p.2 = false) (zset_of (live now v)).
Proof.
  unfold slot_run. simpl.
  rewrite live_fresh by apply fresh_with_zset, fresh_live.
  apply zset_of_with_zset.
Qed.

Lemma set_of_sadd now key member v :
  set_of (live now (slot_run now [SADD key member] v))
  = {[member]} ∪ set_of (live now v).
Proof.
  unfold slot_run. simpl.
  rewrite live_fresh by apply fresh_with_set, fresh_live.
  apply set_of_with_set.
Qed.

Lemma set_of_srem now key member v :
  set_of (live now (slot_run now [SREM key member] v))
  = set_of (live now v) ∖ {[member]}.
Proof.
  unfold slot_run. simpl.
  rewrite live_fresh by apply fresh_with_set, fresh_live.
  apply set_of_with_set.
Qed.

Lemma foldl_insert_non_empty (h : gmap string string) mapping :
  mapping ≠ [] → foldl (λ h p, <[p.1 := p.2]> h) h mapping ≠ ∅.
Proof.
  destruct mapping as [|p mapping _] using rev_ind; [done|]. intros _.
  rewrite foldl_app. simpl. apply insert_non_empty.
Qed.

(** A hash written and given a time-to-live. *)
Lemma hmset_expire now key mapping seconds v :
  mapping ≠ [] → 0 < seconds →
  slot_run now [HMSET key mapping; EXPIRE key seconds] v
  = Slot (s_str (live now v))
         (Some (foldl (λ h p, <[p.1 := p.2]> h) (hash_of (live now v)) mapping))
         (s_zset (live now v)) (s_set (live now v))
         (Some (deadline now seconds)).
Proof.
  intros Hmap Hsec. unfold slot_run. simpl.
  rewrite (live_fresh now (with_hash _ _)) by apply fresh_with_hash, fresh_live.
  unfold with_hash. rewrite decide_False by by apply foldl_insert_non_empty.
  unfold occupied. simpl.
  replace (seconds <=? 0) with false by (symmetry; apply Z.leb_gt; lia).
  by destruct (s_str (live now v)), (s_zset (live now v)), (s_set (live now v)).
Qed.

(** It is readable until the deadline and gone from then on. *)
Lemma live_deadline now seconds t a h z m :
  live t (Slot a h z m (Some (deadline now seconds)))
  = if is_due (deadline now seconds) t then vacant
    else Slot a h z m (Some (deadline now seconds)).
Proof. done. Qed.

(** A string stored with a time-to-live is readable until the
    deadline. *)
Lemma setex_window now t key seconds value v :
  t ≤ now + seconds * 1000 →
  s_str (live t (slot_run now [SETEX key seconds value] v)) = Some value.
Proof.
  intros Ht. unfold slot_run, live. simpl. by rewrite is_due_until.
Qed.

Lemma del_vacant now t key v : live t (slot_run now [DEL key] v) = vacant.
Proof. done. Qed.

End Slots.

(** ** [save_news] *)

(** Selects from a pipeline the commands that address the key at hand. *)
Ltac pipe_at_key :=
  repeat (rewrite filter_cons; cbn [cmd_key];
          first [ rewrite decide_True by reflexivity
                | rewrite decide_False by key_neq ]);
  rewrite ?filter_nil.

(** The mapping of a payload the client can write. *)
Lemma list_fields_Some news_data category score fields :
  list_fields news_data category score = Some fields →
  ∃ title author pic_path url,
    encode (Py.get news_data "title" (PStr "")) = Some title
    ∧ encode (Py.get news_data "author" (PStr "")) = Some author
    ∧ encode (Py.get news_data "pic_path" (PStr "")) = Some pic_path
    ∧ encode (Py.get news_data "url" (PStr "")) = Some url
    ∧ fields = [("title", title); ("category", category);
                ("publish_time", str score); ("author", author);
                ("pic_path", pic_path); ("url", url)].
Proof.
  unfold list_fields. intros H.
  destruct (encode (Py.get news_data "title" _)) as [title|]; [|done].
  destruct (encode (Py.get news_data "author" _)) as [author|]; [|done].
  destruct (encode (Py.get news_data "pic_path" _)) as [pic_path|]; [|done].
  destruct (encode (Py.get news_data "url" _)) as [url|]; [|done].
  cbn in H. injection H as <-. by exists title, author, pic_path, url.
Qed.

(** Whether the client can write the mapping depends on the payload
    alone. *)
Lemma list_fields_other news_data category score category' score' fields :
  list_fields news_data category score = Some fields →
  is_Some (list_fields news_data category' score').
Proof.
  intros (t & a & p & u & Ht & Ha & Hp & Hu & _)%list_fields_Some.
  unfold list_fields. rewrite Ht, Ha, Hp, Hu. by eexists.
Qed.

Lemma list_fields_not_nil news_data category score fields :
  list_fields news_data category score = Some fields → fields ≠ [].
Proof. by intros (t & a & p & u & _ & _ & _ & _ & ->)%list_fields_Some. Qed.

(** The answers of a block hold an error exactly when one of its
    commands fails. *)
Lemma answer_error c v : is_error (answer c v) = fails c.
Proof.
  destruct c; try done. cbn [fails answer]. by destruct (to_double score).
Qed.

Lemma run_all_error now pipe s :
  existsb is_error (run_all now pipe s).1 = existsb fails pipe.
Proof.
  revert s. induction pipe as [|c pipe IH]; intros s; [done|].
  rewrite run_all_cons. cbn [fst existsb].
  rewrite IH. f_equal. unfold run. cbn [fst]. apply answer_error.
Qed.

Lemma execute_up now pipe s :
  execute now true pipe s
  = (if existsb fails pipe then Raise ResponseError
     else Ok (run_all now pipe s).1, (run_all now pipe s).2).
Proof.
  unfold execute. rewrite <- (run_all_error now pipe s).
  destruct (run_all now pipe s) as [rs s1]. cbn [fst snd].
  by destruct (existsb is_error rs).
Qed.

(** Whatever the answers, the block has run. *)
Lemma execute_state now pipe s :
  (execute now true pipe s).2 = (run_all now pipe s).2.
Proof.
  rewrite execute_up. by destruct (existsb fails pipe).
Qed.

Section Save.
Variables (now : Z) (news_id : string) (news_data : dict)
  (category : string) (publish_time : option Z) (s : db).
Variable fields : list (string * string).

Let score := or_int publish_time now.

Hypothesis Hfields : list_fields news_data category score = Some fields.

Let pipe := save_pipe news_id fields news_data category score.
Let s' := (run_all now pipe s).2.

(** The call returns when the score is a finite double. *)
Lemma save_news_up sc :
  to_double score = Some sc →
  save_news now true news_id news_data category publish_time s = (Ok true, s').
Proof.
  intros Hsc. unfold save_news. cbv zeta. fold score. rewrite Hfields.
  unfold mbind, M_bind, mret, M_ret. fold pipe. rewrite execute_up.
  subst pipe. unfold save_pipe. cbn [existsb fails]. by rewrite Hsc.
Qed.

(** It raises after the block has run when the score is none. *)
Lemma save_news_bad_score :
  to_double score = None →
  save_news now true news_id news_data category publish_time s
  = (Raise ResponseError, s').
Proof.
  intros Hsc. unfold save_news. cbv zeta. fold score. rewrite Hfields.
  unfold mbind, M_bind, mret, M_ret. fold pipe. rewrite execute_up.
  subst pipe. unfold save_pipe. cbn [existsb fails]. by rewrite Hsc.
Qed.

Lemma save_timeline sc :
  to_double score = Some sc →
  zset_at now TIMELINE_ZSET s'
  = <[news_id := sc]> (zset_at now TIMELINE_ZSET s).
Proof.
  intros Hsc. unfold zset_at, lookup_key. subst s' pipe. rewrite at_key_run_all.
  unfold save_pipe. pipe_at_key. by apply zset_of_zadd.
Qed.

Lemma save_category sc :
  to_double score = Some sc →
  zset_at now (CATEGORY_PREFIX +:+ category) s'
  = <[news_id := sc]> (zset_at now (CATEGORY_PREFIX +:+ category) s).
Proof.
  intros Hsc. unfold zset_at, lookup_key. subst s' pipe. rewrite at_key_run_all.
  unfold save_pipe. pipe_at_key. by apply zset_of_zadd.
Qed.

Lemma save_registry :
  smembers now CATEGORIES_SET s'
  = {[category]} ∪ smembers now CATEGORIES_SET s.
Proof.
  unfold smembers, lookup_key. subst s' pipe. rewrite at_key_run_all.
  unfold save_pipe. pipe_at_key. apply set_of_sadd.
Qed.

Lemma save_projection t :
  t ≤ now + EXPIRE_TIME * 1000 →
  hgetall t (LIST_HASH_PREFIX +:+ news_id) s'
  = foldl (λ h p, <[p.1 := p.2]> h)
      (hgetall now (LIST_HASH_PREFIX +:+ news_id) s) fields.
Proof.
  intros Ht. unfold hgetall, lookup_key. subst s' pipe.
  rewrite at_key_run_all. unfold save_pipe. pipe_at_key.
  rewrite hmset_expire by (by eapply list_fields_not_nil || done).
  by rewrite live_deadline, is_due_until.
Qed.

Lemma save_detail t :
  t ≤ now + EXPIRE_TIME * 1000 →
  Redis.get t (DETAIL_PREFIX +:+ news_id) s' = Some (json_dumps news_data).
Proof.
  intros Ht. unfold Redis.get, lookup_key. subst s' pipe.
  rewrite at_key_run_all. unfold save_pipe. pipe_at_key.
  by apply setex_window.
Qed.

(** The keys of the record, as the call leaves them. *)
Lemma save_at_timeline :
  at_key TIMELINE_ZSET s'
  = slot_run now [ZADD TIMELINE_ZSET news_id score] (at_key TIMELINE_ZSET s).
Proof.
  subst s' pipe. rewrite at_key_run_all. unfold save_pipe. by pipe_at_key.
Qed.

Lemma save_at_category :
  at_key (CATEGORY_PREFIX +:+ category) s'
  = slot_run now [ZADD (CATEGORY_PREFIX +:+ category) news_id score]
      (at_key (CATEGORY_PREFIX +:+ category) s).
Proof.
  subst s' pipe. rewrite at_key_run_all. unfold save_pipe. by pipe_at_key.
Qed.

Lemma save_at_registry :
  at_key CATEGORIES_SET s'
  = slot_run now [SADD CATEGORIES_SET category] (at_key CATEGORIES_SET s).
Proof.
  subst s' pipe. rewrite at_key_run_all. unfold save_pipe. by pipe_at_key.
Qed.

Lemma save_at_projection :
  let v := live now (at_key (LIST_HASH_PREFIX +:+ news_id) s) in
  at_key (LIST_HASH_PREFIX +:+ news_id) s'
  = Slot (s_str v)
      (Some (foldl (λ h p, <[p.1 := p.2]> h) (hash_of v) fields))
      (s_zset v) (s_set v) (Some (deadline now EXPIRE_TIME)).
Proof.
  subst s' pipe. rewrite at_key_run_all. unfold save_pipe. pipe_at_key.
  by rewrite hmset_expire by (by eapply list_fields_not_nil || done).
Qed.

Lemma save_at_detail :
  at_key (DETAIL_PREFIX +:+ news_id) s'
  = Slot (Some (json_dumps news_data)) None None None
      (Some (deadline now EXPIRE_TIME)).
Proof.
  subst s' pipe. rewrite at_key_run_all. unfold save_pipe. by pipe_at_key.
Qed.

(** Keys outside the five the record occupies are left alone. *)
Lemma save_frame k :
  k ≠ LIST_HASH_PREFIX +:+ news_id → k ≠ DETAIL_PREFIX +:+ news_id →
  k ≠ TIMELINE_ZSET → k ≠ CATEGORY_PREFIX +:+ category →
  k ≠ CATEGORIES_SET →
  at_key k s' = at_key k s.
Proof.
  intros. subst s' pipe. rewrite at_key_run_all. unfold save_pipe.
  repeat (rewrite filter_cons; cbn [cmd_key]; rewrite decide_False by done).
  done.
Qed.

(** The database after the call, whether it returned or raised on the
    score. *)
Lemma saved_run :
  saved now news_id news_data category publish_time s = s'.
Proof.
  unfold saved, save_news. cbv zeta. fold score. rewrite Hfields.
  unfold mbind, M_bind, mret, M_ret. fold pipe.
  pose proof (execute_state now pipe s) as He.
  destruct (execute now true pipe s) as [[rs|e] s1]; cbn [snd] in *; by subst.
Qed.

End Save.

(** A payload the client cannot write: the call raises and nothing is
    sent. *)
Lemma save_news_refused now news_id news_data category publish_time s :
  list_fields news_data category (or_int publish_time now) = None →
  save_news now true news_id news_data category publish_time s
  = (Raise DataError, s).
Proof. intros H. unfold save_news. cbv zeta. by rewrite H. Qed.

Lemma saved_refused now news_id news_data category publish_time s :
  list_fields news_data category (or_int publish_time now) = None →
  saved now news_id news_data category publish_time s = s.
Proof. intros H. unfold saved. by rewrite save_news_refused. Qed.

(** The database after the call is the one before it, or the block
    has run. *)
Lemma saved_cases now news_id news_data category publish_time s :
  (list_fields news_data category (or_int publish_time now) = None
   ∧ saved now news_id news_data category publish_time s = s)
  ∨ (∃ fields,
       list_fields news_data category (or_int publish_time now) = Some fields
       ∧ saved now news_id news_data category publish_time s
         = (run_all now
              (save_pipe news_id fields news_data category
                 (or_int publish_time now)) s).2).
Proof.
  destruct (list_fields news_data category (or_int publish_time now))
    as [fields|] eqn:Hf.
  - right. exists fields. split; [done|]. by apply saved_run.
  - left. split; [done|]. by apply saved_refused.
Qed.

Lemma save_news_down now news_id news_data category publish_time s :
  save_news now false news_id news_data category publish_time s
  = (Raise ConnectionError, s).
Proof.
  unfold save_news. cbv zeta.
  by destruct (list_fields news_data category (or_int publish_time now)).
Qed.

(** What the call answers, by cases. *)
Lemma save_news_returns now news_id news_data category publish_time s :
  (save_news now true news_id news_data category publish_time s).1 = Ok true
  ↔ is_Some (list_fields news_data category (or_int publish_time now))
    ∧ is_Some (to_double (or_int publish_time now)).
Proof.
  destruct (list_fields news_data category (or_int publish_time now))
    as [fields|] eqn:Hf; cycle 1.
  { rewrite save_news_refused by done. split; [done|]. by intros [[? ?] _]. }
  destruct (to_double (or_int publish_time now)) as [sc|] eqn:Hsc.
  - rewrite (save_news_up _ _ _ _ _ _ fields Hf sc) by done. by split; eauto.
  - rewrite (save_news_bad_score _ _ _ _ _ _ fields) by done.
    split; [done|]. by intros [_ [? ?]].
Qed.

Lemma at_key_empty k : at_key k Redis.empty = vacant.
Proof.
  unfold at_key, Redis.empty. cbn [strs hashes zsets sets expires].
  by rewrite !lookup_empty.
Qed.

(** ** [delete_news] *)

Section Delete.
Variables (now : Z) (news_id category : string) (s : db).

Let s' := (run_all now (delete_pipe news_id category) s).2.

Lemma delete_news_up :
  delete_news now true news_id category s = (Ok true, s').
Proof.
  unfold delete_news, mbind, M_bind, mret, M_ret. by rewrite execute_up.
Qed.

Lemma delete_news_down :
  delete_news now false news_id category s = (Raise ConnectionError, s).
Proof. done. Qed.

Lemma delete_registry :
  smembers now CATEGORIES_SET s'
  = smembers now CATEGORIES_SET s ∖ {[category]}.
Proof.
  unfold smembers, lookup_key. subst s'. rewrite at_key_run_all.
  unfold delete_pipe. pipe_at_key. apply set_of_srem.
Qed.

Lemma delete_timeline :
  zset_at now TIMELINE_ZSET s' = delete news_id (zset_at now TIMELINE_ZSET s).
Proof.
  unfold zset_at, lookup_key. subst s'. rewrite at_key_run_all.
  unfold delete_pipe. pipe_at_key. apply zset_of_zrem.
Qed.

Lemma delete_category :
  zset_at now (CATEGORY_PREFIX +:+ category) s'
  = delete news_id (zset_at now (CATEGORY_PREFIX +:+ category) s).
Proof.
  unfold zset_at, lookup_key. subst s'. rewrite at_key_run_all.
  unfold delete_pipe. pipe_at_key. apply zset_of_zrem.
Qed.

Lemma delete_projection : at_key (LIST_HASH_PREFIX +:+ news_id) s' = vacant.
Proof.
  subst s'. rewrite at_key_run_all. unfold delete_pipe. by pipe_at_key.
Qed.

Lemma delete_detail : at_key (DETAIL_PREFIX +:+ news_id) s' = vacant.
Proof.
  subst s'. rewrite at_key_run_all. unfold delete_pipe. by pipe_at_key.
Qed.

Lemma delete_frame k :
  k ≠ LIST_HASH_PREFIX +:+ news_id → k ≠ DETAIL_PREFIX +:+ news_id →
  k ≠ TIMELINE_ZSET → k ≠ CATEGORY_PREFIX +:+ category →
  k ≠ CATEGORIES_SET →
  at_key k s' = at_key k s.
Proof.
  intros. subst s'. rewrite at_key_run_all. unfold delete_pipe.
  repeat (rewrite filter_cons; cbn [cmd_key]; rewrite decide_False by done).
  done.
Qed.

End Delete.

(** ** [cleanup_old_news] *)

Section Cleanup.
Variables (now days : Z) (s : db).

Let cutoff := now - days * 86400 * 1000.
Let old_ids := zrangebyscore now TIMELINE_ZSET 0 cutoff s.
Let categories := elements (smembers now CATEGORIES_SET s).
Let s' := (run_all now (cleanup_pipe cutoff old_ids categories) s).2.

Lemma cleanup_pipe_sound ids cats :
  existsb fails (cleanup_pipe cutoff ids cats) = false.
Proof.
  unfold cleanup_pipe. rewrite !existsb_app. cbn [existsb fails orb].
  replace (existsb fails (ids ≫= dels)) with false; cycle 1.
  { induction ids as [|a l IH]; [done|].
    rewrite bind_cons, existsb_app. by rewrite <- IH. }
  induction cats as [|a l IH]; [done|]. unfold range_removals.
  by rewrite fmap_cons.
Qed.

Lemma cleanup_old_news_up :
  cleanup_old_news now true days s
  = match old_ids with
    | [] => (Ok {| deleted := 0; categories_cleaned := 0 |}, s)
    | _ => (Ok {| deleted := Z.of_nat (length old_ids);
                  categories_cleaned := Z.of_nat (length categories) |}, s')
    end.
Proof.
  unfold cleanup_old_news, query, mbind, M_bind, mret, M_ret.
  subst s' old_ids categories. fold cutoff.
  destruct (zrangebyscore _ _ _ _ _) as [|a ids]; [done|].
  by rewrite execute_up, cleanup_pipe_sound.
Qed.

Lemma cleanup_old_news_down :
  cleanup_old_news now false days s = (Raise ConnectionError, s).
Proof. done. Qed.

(** The old identifiers are the members of the global timeline whose
    score lies between 0 and the cutoff as the store reads it, both
    included. *)
Lemma elem_of_old_ids news_id :
  news_id ∈ old_ids
  ↔ ∃ sc, zscore now TIMELINE_ZSET news_id s = Some sc
          ∧ 0 ≤ sc ≤ bound cutoff.
Proof.
  subst old_ids. unfold zrangebyscore, zscore, in_score_range.
  rewrite bound_0, list_elem_of_fmap. split.
  - intros ([m sc] & -> & [Hr Hin]%list_elem_of_filter). simpl in *.
    apply elem_of_zrange_withscores in Hin. exists sc. split; [done|]. lia.
  - intros (sc & Hsc & Hr). exists (news_id, sc). split; [done|].
    apply list_elem_of_filter. simpl. split; [lia|].
    by apply elem_of_zrange_withscores.
Qed.

Lemma dels_filter_nil k (ids : list string) :
  (∀ news_id, news_id ∈ ids →
     k ≠ LIST_HASH_PREFIX +:+ news_id ∧ k ≠ DETAIL_PREFIX +:+ news_id) →
  filter (λ c, cmd_key c = k) (ids ≫= dels) = [].
Proof.
  induction ids as [|a ids IH]; intros Hk; [done|].
  rewrite bind_cons, filter_app. unfold dels at 1.
  destruct (Hk a) as [H1 H2]; [by left|].
  rewrite !filter_cons. cbn [cmd_key]. rewrite !decide_False by done.
  rewrite filter_nil. apply IH. intros b Hb. apply Hk. by right.
Qed.

Lemma dels_filter_del k (ids : list string) :
  Forall (λ c, c = DEL k) (filter (λ c, cmd_key c = k) (ids ≫= dels)).
Proof.
  apply Forall_forall. intros c [Hc Hin]%list_elem_of_filter.
  apply list_elem_of_bind in Hin as (a & Hin & _).
  unfold dels in Hin. apply elem_of_cons in Hin as [->|Hin].
  - simpl in Hc. by subst.
  - apply list_elem_of_singleton in Hin as ->. simpl in Hc. by subst.
Qed.

Lemma slot_run_del k pipe v :
  Forall (λ c, c = DEL k) pipe → pipe ≠ [] → slot_run now pipe v = vacant.
Proof.
  destruct pipe as [|c pipe _] using rev_ind; [done|]. intros Hall _.
  apply Forall_app in Hall as [_ Hc]. apply Forall_singleton in Hc as ->.
  unfold slot_run. by rewrite foldl_app.
Qed.

Lemma range_removals_filter_nil k cats :
  (∀ c, c ∈ cats → k ≠ CATEGORY_PREFIX +:+ c) →
  filter (λ c, cmd_key c = k) (range_removals cutoff cats) = [].
Proof.
  induction cats as [|a cats IH]; intros Hk; [done|].
  unfold range_removals. rewrite fmap_cons, filter_cons. cbn [cmd_key].
  rewrite decide_False by (intros <-; by apply (Hk a); [left|]).
  apply IH. intros c Hc. apply Hk. by right.
Qed.

Lemma range_removals_filter_one c cats :
  NoDup cats → c ∈ cats →
  filter (λ cmd, cmd_key cmd = CATEGORY_PREFIX +:+ c) (range_removals cutoff cats)
  = [ZREMRANGEBYSCORE (CATEGORY_PREFIX +:+ c) 0 cutoff].
Proof.
  induction cats as [|a cats IH]; intros Hnd Hin.
  { by apply elem_of_nil in Hin. }
  apply NoDup_cons in Hnd as [Ha Hnd].
  unfold range_removals. rewrite fmap_cons, filter_cons. cbn [cmd_key].
  destruct (decide (a = c)) as [->|Hne].
  - rewrite decide_True by done. f_equal.
    apply range_removals_filter_nil. intros b Hb H%category_key_inj.
    by subst.
  - rewrite decide_False by (intros H%category_key_inj; done).
    apply IH; [done|]. apply elem_of_cons in Hin as [->|]; done.
Qed.

Lemma cleanup_pipe_split ids cats :
  cleanup_pipe cutoff ids cats
  = (ids ≫= dels) ++ [ZREMRANGEBYSCORE TIMELINE_ZSET 0 cutoff]
    ++ range_removals cutoff cats.
Proof. done. Qed.

(** The global timeline loses the scores from 0 to the cutoff. *)
Lemma cleanup_timeline :
  zset_at now TIMELINE_ZSET s'
  = filter (λ p, in_score_range 0 cutoff p.2 = false)
      (zset_at now TIMELINE_ZSET s).
Proof.
  unfold zset_at, lookup_key. subst s'. rewrite at_key_run_all.
  rewrite cleanup_pipe_split, !filter_app.
  rewrite dels_filter_nil by (intros; split; key_neq).
  rewrite range_removals_filter_nil by (intros; key_neq).
  pipe_at_key. apply zset_of_zremrangebyscore.
Qed.

(** So does the timeline of every registered category. *)
Lemma cleanup_registered c :
  c ∈ smembers now CATEGORIES_SET s →
  zset_at now (CATEGORY_PREFIX +:+ c) s'
  = filter (λ p, in_score_range 0 cutoff p.2 = false)
      (zset_at now (CATEGORY_PREFIX +:+ c) s).
Proof.
  intros Hc. unfold zset_at, lookup_key. subst s'. rewrite at_key_run_all.
  rewrite cleanup_pipe_split, !filter_app.
  rewrite dels_filter_nil by (intros; split; key_neq).
  rewrite (range_removals_filter_one c categories);
    [|apply NoDup_elements|by apply elem_of_elements].
  pipe_at_key. apply zset_of_zremrangebyscore.
Qed.

(** The timeline of a category that is not registered is left alone. *)
Lemma cleanup_unregistered c :
  c ∉ smembers now CATEGORIES_SET s →
  at_key (CATEGORY_PREFIX +:+ c) s' = at_key (CATEGORY_PREFIX +:+ c) s.
Proof.
  intros Hc. subst s'. rewrite at_key_run_all.
  rewrite cleanup_pipe_split, !filter_app.
  rewrite dels_filter_nil by (intros; split; key_neq).
  rewrite range_removals_filter_nil.
  - by pipe_at_key.
  - intros c' Hc' H%category_key_inj. subst c'. subst categories.
    by apply elem_of_elements in Hc'.
Qed.

Lemma cleanup_registry : at_key CATEGORIES_SET s' = at_key CATEGORIES_SET s.
Proof.
  subst s'. rewrite at_key_run_all.
  rewrite cleanup_pipe_split, !filter_app.
  rewrite dels_filter_nil by (intros; split; key_neq).
  rewrite range_removals_filter_nil by (intros; key_neq).
  by pipe_at_key.
Qed.

(** Projection and detail of an old identifier are deleted, those of
    every other identifier are left alone. *)
Lemma cleanup_old news_id :
  news_id ∈ old_ids →
  at_key (LIST_HASH_PREFIX +:+ news_id) s' = vacant
  ∧ at_key (DETAIL_PREFIX +:+ news_id) s' = vacant.
Proof.
  intros Hin. subst s'. rewrite !at_key_run_all.
  rewrite cleanup_pipe_split, !filter_app.
  rewrite !range_removals_filter_nil by (intros; key_neq).
  split; pipe_at_key; rewrite app_nil_r.
  - apply (slot_run_del (LIST_HASH_PREFIX +:+ news_id));
      [apply dels_filter_del|].
    intros Hnil.
    apply (filter_nil_not_elem_of _ _ (DEL (LIST_HASH_PREFIX +:+ news_id)))
      in Hnil; [|done].
    apply Hnil, list_elem_of_bind. exists news_id. split; [|done].
    unfold dels. by left.
  - apply (slot_run_del (DETAIL_PREFIX +:+ news_id));
      [apply dels_filter_del|].
    intros Hnil.
    apply (filter_nil_not_elem_of _ _ (DEL (DETAIL_PREFIX +:+ news_id)))
      in Hnil; [|done].
    apply Hnil, list_elem_of_bind. exists news_id. split; [|done].
    unfold dels. right. by left.
Qed.

Lemma cleanup_young news_id :
  news_id ∉ old_ids →
  at_key (LIST_HASH_PREFIX +:+ news_id) s'
  = at_key (LIST_HASH_PREFIX +:+ news_id) s
  ∧ at_key (DETAIL_PREFIX +:+ news_id) s'
    = at_key (DETAIL_PREFIX +:+ news_id) s.
Proof.
  intros Hin. subst s'. rewrite !at_key_run_all.
  rewrite cleanup_pipe_split, !filter_app.
  rewrite !range_removals_filter_nil by (intros; key_neq).
  rewrite !dels_filter_nil.
  - split; by pipe_at_key.
  - intros a Ha. split; [key_neq|]. intros H%detail_key_inj. by subst.
  - intros a Ha. split; [|key_neq]. intros H%list_key_inj. by subst.
Qed.

End Cleanup.

(** *** The database after a sweep *)

Section Swept.
Variables (now days : Z) (s : db).

Let cutoff := now - days * 86400 * 1000.
Let old_ids := zrangebyscore now TIMELINE_ZSET 0 cutoff s.

Lemma out_of_range sc :
  in_score_range 0 cutoff sc = false ↔ sc < 0 ∨ bound cutoff < sc.
Proof.
  unfold in_score_range. rewrite bound_0, andb_false_iff, !Z.leb_gt. tauto.
Qed.

Lemma swept_cases :
  (old_ids = [] ∧ swept now days s = s)
  ∨ (old_ids ≠ []
     ∧ swept now days s
       = (run_all now
            (cleanup_pipe cutoff old_ids
               (elements (smembers now CATEGORIES_SET s))) s).2).
Proof.
  unfold swept. rewrite cleanup_old_news_up. fold cutoff. fold old_ids.
  destruct old_ids; [by left|by right].
Qed.

Lemma swept_timeline :
  zset_at now TIMELINE_ZSET (swept now days s)
  = filter (λ p, in_score_range 0 cutoff p.2 = false)
      (zset_at now TIMELINE_ZSET s).
Proof.
  destruct swept_cases as [[Hnil ->]|[_ ->]]; [|apply cleanup_timeline].
  symmetry. apply map_filter_id. intros m sc Hm. simpl.
  destruct (in_score_range 0 cutoff sc) eqn:Hr; [|done].
  assert (m ∈ old_ids) as Hin.
  { apply elem_of_old_ids. exists sc. split; [done|].
    unfold in_score_range in Hr. rewrite bound_0 in Hr. fold cutoff. lia. }
  rewrite Hnil in Hin. by apply elem_of_nil in Hin.
Qed.

Lemma swept_registered c :
  old_ids ≠ [] → c ∈ smembers now CATEGORIES_SET s →
  zset_at now (CATEGORY_PREFIX +:+ c) (swept now days s)
  = filter (λ p, in_score_range 0 cutoff p.2 = false)
      (zset_at now (CATEGORY_PREFIX +:+ c) s).
Proof.
  intros Hold Hc. destruct swept_cases as [[Hnil _]|[_ ->]]; [done|].
  by apply cleanup_registered.
Qed.

(** Whatever the sweep does to a category timeline, it is a range
    removal or nothing. *)
Lemma swept_category c :
  zset_at now (CATEGORY_PREFIX +:+ c) (swept now days s)
  = zset_at now (CATEGORY_PREFIX +:+ c) s
  ∨ zset_at now (CATEGORY_PREFIX +:+ c) (swept now days s)
    = filter (λ p, in_score_range 0 cutoff p.2 = false)
        (zset_at now (CATEGORY_PREFIX +:+ c) s).
Proof.
  destruct swept_cases as [[_ ->]|[_ ->]]; [by left|].
  destruct (decide (c ∈ smembers now CATEGORIES_SET s)) as [Hc|Hc].
  - right. by apply cleanup_registered.
  - left. unfold zset_at, lookup_key. subst cutoff old_ids.
    by rewrite cleanup_unregistered.
Qed.

Lemma swept_registry :
  at_key CATEGORIES_SET (swept now days s) = at_key CATEGORIES_SET s.
Proof.
  destruct swept_cases as [[_ ->]|[_ ->]]; [done|]. apply cleanup_registry.
Qed.

Lemma swept_old news_id :
  news_id ∈ old_ids →
  at_key (LIST_HASH_PREFIX +:+ news_id) (swept now days s) = vacant
  ∧ at_key (DETAIL_PREFIX +:+ news_id) (swept now days s) = vacant.
Proof.
  intros Hin. destruct swept_cases as [[Hnil _]|[_ ->]].
  - rewrite Hnil in Hin. by apply elem_of_nil in Hin.
  - by apply cleanup_old.
Qed.

Lemma swept_young news_id :
  news_id ∉ old_ids →
  at_key (LIST_HASH_PREFIX +:+ news_id) (swept now days s)
  = at_key (LIST_HASH_PREFIX +:+ news_id) s
  ∧ at_key (DETAIL_PREFIX +:+ news_id) (swept now days s)
    = at_key (DETAIL_PREFIX +:+ news_id) s.
Proof.
  intros Hin. destruct swept_cases as [[_ ->]|[_ ->]]; [done|].
  by apply cleanup_young.
Qed.

End Swept.

(** ** [get_news_list] *)

Section Listing.
Variables (now : Z) (s : db).

Lemma run_all_projections (ids : list string) :
  run_all now ((λ news_id, HGETALL (LIST_HASH_PREFIX +:+ news_id)) <$> ids) s
  = (hash_reply now s <$> ids, s).
Proof.
  induction ids as [|a ids IH]; [done|].
  rewrite fmap_cons, run_all_cons. unfold run at 1 2 3. simpl.
  by rewrite IH.
Qed.

Lemma get_news_list_up category page page_size :
  get_news_list now true category page page_size s
  = (let zset_key := zset_key_of category in
     let total := zcard now zset_key s in
     if total =? 0 then
       Ok {| items := []; total := 0; page := page;
             page_size := page_size; has_next := false |}
     else if window_ok page page_size then
       let start := (page - 1) * page_size in
       let news_ids := zrev_window now zset_key start (start + page_size - 1) s in
       match news_ids with
       | [] => Ok {| items := []; total := total; page := page;
                     page_size := page_size; has_next := false |}
       | _ =>
           match collect (zip news_ids (hash_reply now s <$> news_ids)) with
           | Ok items =>
               Ok {| items := items; total := total; page := page;
                     page_size := page_size;
                     has_next := start + Z.of_nat (length items) <? total |}
           | Raise e => Raise e
           end
       end
     else Raise ResponseError, s).
Proof.
  unfold get_news_list, query, query_reply, lift, mbind, M_bind, mret, M_ret.
  cbv zeta. destruct (zcard _ _ _ =? 0); [done|].
  unfold zrevrange, window_ok.
  destruct (int64 _ && int64 _); [|done].
  destruct (zrev_window _ _ _ _ _) as [|a ids] eqn:Hids; [done|].
  rewrite execute_up.
  replace (existsb fails _) with false; cycle 1.
  { generalize (a :: ids). intros l. induction l as [|b l IH]; [done|].
    by rewrite fmap_cons. }
  rewrite run_all_projections. cbn [fst snd].
  by destruct (collect _).
Qed.

(** A window is within the 64-bit integers when the last rank of the
    page is. *)
Lemma window_ok_valid page page_size :
  1 ≤ page → 1 ≤ page_size → page * page_size ≤ 2 ^ 63 →
  window_ok page page_size = true.
Proof.
  intros Hp Hs Hle. unfold window_ok, int64.
  assert (2 ^ 63 = 9223372036854775808) as -> by reflexivity.
  assert (2 ^ 63 = 9223372036854775808) as Hpow by reflexivity.
  rewrite Hpow in Hle.
  rewrite !andb_true_iff, !Z.leb_le, !Z.ltb_lt. nia.
Qed.


Lemma get_news_list_down category page page_size :
  get_news_list now false category page page_size s
  = (Raise ConnectionError, s).
Proof. done. Qed.

Lemma item_of_id news_id fields item :
  item_of news_id fields = Ok item → item_id item = Some (PStr news_id).
Proof.
  unfold item_of, item_id. intros H.
  destruct (fields !! "publish_time") as [pt|];
    [destruct (Py.int pt)|]; simplify_eq; apply lookup_insert_eq.
Qed.

(** The loop keeps the identifiers whose projection is readable, in
    order; it cannot keep more than it is given. *)
Lemma collect_length ids items :
  collect (zip ids (hash_reply now s <$> ids)) = Ok items →
  (length items ≤ length ids)%nat.
Proof.
  revert items. induction ids as [|a ids IH]; intros items.
  { intros [= <-]. done. }
  rewrite fmap_cons. cbn [zip_with collect length].
  case_decide.
  - intros Hc%IH. lia.
  - destruct (item_of _ _); [|done].
    destruct (collect _) as [its|]; [|done].
    intros [= <-]. simpl. specialize (IH its eq_refl). lia.
Qed.

Lemma collect_listed ids :
  numeric now s →
  ∃ items,
    collect (zip ids (hash_reply now s <$> ids)) = Ok items
    ∧ item_id <$> items = (λ a, Some (PStr a)) <$> filter (listed now s) ids.
Proof.
  intros Hnum. induction ids as [|a ids (items & Hc & Hids)].
  { by exists []. }
  rewrite fmap_cons. cbn [zip_with collect]. rewrite Hc.
  unfold hash_reply at 1 2. cbn [reply_hash]. rewrite filter_cons. unfold listed at 1.
  case_decide as Hempty.
  - rewrite decide_False by (by intros ?). by exists items.
  - rewrite decide_True by done.
    assert (∃ item, item_of a (hgetall now (LIST_HASH_PREFIX +:+ a) s) = Ok item)
      as [item Hitem].
    { unfold item_of.
      destruct (hgetall _ _ _ !! "publish_time") as [pt|] eqn:Hpt; [|eauto].
      destruct (Hnum a pt Hpt) as [n ->]. eauto. }
    change (reply_hash (hash_reply now s a))
      with (hgetall now (LIST_HASH_PREFIX +:+ a) s).
    rewrite Hitem. exists (item :: items). split; [done|].
    rewrite !fmap_cons, Hids. f_equal. by apply item_of_id in Hitem.
Qed.

(** With integer [publish_time] fields the call returns for every
    window within the 64-bit integers. *)
Lemma get_news_list_total category page page_size :
  numeric now s → window_ok page page_size = true →
  ∃ r, get_news_list now true category page page_size s = (Ok r, s).
Proof.
  intros Hnum Hw. rewrite get_news_list_up. cbv zeta. rewrite Hw.
  destruct (_ =? 0); [eauto|].
  destruct (zrev_window _ _ _ _ _) as [|a ids]; [eauto|].
  destruct (collect_listed (a :: ids) Hnum) as (items & -> & _). eauto.
Qed.

Lemma get_news_detail_absent json_loads news_id :
  Redis.get now (DETAIL_PREFIX +:+ news_id) s = None →
  get_news_detail now true json_loads news_id s = (Ok None, s).
Proof.
  intros Hget.
  unfold get_news_detail, query, mbind, M_bind, mret, M_ret.
  by rewrite Hget.
Qed.

End Listing.

(** *** Pages *)

Section Pages.
Variables (now : Z) (s : db) (category : option string) (page page_size : Z).
Hypothesis Hpage : 1 ≤ page.
Hypothesis Hsize : 1 ≤ page_size.

Let z := zset_at now (zset_key_of category) s.
Let start := (page - 1) * page_size.
Let window :=
  take (Z.to_nat page_size)
    (drop (Z.to_nat start) (reverse (zrange_withscores z))).

Lemma page_ids :
  zrev_window now (zset_key_of category) start (start + page_size - 1) s
  = window.*1.
Proof.
  unfold zrev_window, zrev_members. fold z.
  rewrite lrange_window by (subst start; nia).
  subst window. rewrite fmap_take, fmap_drop. do 2 f_equal. lia.
Qed.

Lemma page_window_length :
  Z.of_nat (length window)
  = Z.min page_size (Z.max 0 (Z.of_nat (size z) - start)).
Proof.
  subst window. rewrite window_length, length_reverse,
    zrange_withscores_length.
  assert (0 ≤ start) by (subst start; nia). clearbody start z. lia.
Qed.



End Pages.

Lemma zset_key_of_cases category :
  zset_key_of category
  = match category with
    | Some c => if decide (c = "") then TIMELINE_ZSET else CATEGORY_PREFIX +:+ c
    | None => TIMELINE_ZSET
    end.
Proof.
  destruct category as [c|]; [|done]. unfold zset_key_of, truthy.
  case_decide as Hc; [by subst|].
  by destruct (String.eqb_spec c "").
Qed.

(** *** What a returned page looks like *)

Section Returned.
Variables (now : Z) (s : db) (category : option string) (page page_size : Z).

Let start := (page - 1) * page_size.
Let news_ids :=
  zrev_window now (zset_key_of category) start (start + page_size - 1) s.

Lemma get_news_list_returns r :
  (get_news_list now true category page page_size s).1 = Ok r →
  total r = zcard now (zset_key_of category) s
  ∧ NewsStorage.page r = page ∧ NewsStorage.page_size r = page_size
  ∧ (((total r = 0 ∨ news_ids = []) ∧ items r = [] ∧ has_next r = false)
     ∨ (total r ≠ 0 ∧ news_ids ≠ []
        ∧ collect (zip news_ids (hash_reply now s <$> news_ids))
          = Ok (items r)
        ∧ has_next r = (start + Z.of_nat (length (items r)) <? total r))).
Proof.
  rewrite get_news_list_up. cbv zeta. fold start. fold news_ids.
  clearbody news_ids start.
  destruct (Z.eqb_spec (zcard now (zset_key_of category) s) 0) as [H0|H0].
  { intros [= <-]. simpl. rewrite H0. split_and!; try done. left. auto. }
  destruct (window_ok page page_size); [|done].
  destruct news_ids as [|a ids].
  { intros [= <-]. simpl. split_and!; try done. left. auto. }
  destruct (collect _) as [its|] eqn:Hc; [|done].
  intros [= <-]. simpl. split_and!; try done. by right.
Qed.

(** With a valid page, has_next can only be false when the page
    reaches the end of the timeline. *)
Lemma has_next_below_total r :
  1 ≤ page → 1 ≤ page_size →
  (get_news_list now true category page page_size s).1 = Ok r →
  page * page_size < total r →
  news_ids ≠ [] ∧ has_next r = true.
Proof.
  intros Hpage Hsize Hr Hlt.
  destruct (get_news_list_returns r Hr) as (Ht & _ & _ & Hcases).
  pose proof (page_ids now s category page page_size Hpage Hsize) as Hids.
  pose proof (page_window_length now s category page page_size Hpage Hsize)
    as Hlen.
  fold start in Hids, Hlen. fold news_ids in Hids.
  assert (Z.of_nat (length news_ids)
          = Z.min page_size (Z.max 0 (total r - start))) as Hn.
  { rewrite Hids, length_fmap, Hlen, Ht. done. }
  assert (0 ≤ start ∧ start + page_size = page * page_size) as [Hs0 Hs1]
    by (subst start; nia).
  clearbody start news_ids.
  destruct Hcases as [([H0|Hnil] & _)|(_ & Hne & Hc & ->)].
  - nia.
  - rewrite Hnil in Hn. simpl in Hn. lia.
  - split; [done|]. apply collect_length in Hc. apply Z.ltb_lt. lia.
Qed.

(** An identifier dropped from the page makes has_next true, whatever the
    page. *)
Lemma has_next_after_drop r :
  (get_news_list now true category page page_size s).1 = Ok r →
  (length (items r) < length news_ids)%nat →
  has_next r = true.
Proof.
  intros Hr Hlt.
  destruct (get_news_list_returns r Hr) as (Ht & _ & _ & Hcases).
  destruct Hcases as [([H0|Hnil] & Hits & _)|(_ & Hne & Hc & ->)].
  - rewrite Ht in H0. apply (zrev_window_empty _ _ start (start + page_size - 1))
      in H0. fold news_ids in H0. rewrite H0 in Hlt. simpl in Hlt. lia.
  - rewrite Hnil in Hlt. simpl in Hlt. lia.
  - apply Z.ltb_lt. rewrite Ht. unfold zcard.
    rewrite <-zrev_members_length.
    destruct (lrange_length (zrev_members (zset_at now (zset_key_of category) s))
                start (start + page_size - 1)) as [_ Hbound].
    fold (zrev_window now (zset_key_of category) start (start + page_size - 1) s)
      in Hbound.
    fold news_ids in Hbound. specialize (Hbound Hne).
    clearbody news_ids start. lia.
Qed.

End Returned.

(** ** The invariant of the projections *)

Section Numeric.

Lemma numeric_empty t : numeric t Redis.empty.
Proof.
  intros news_id pt. unfold hgetall, lookup_key, at_key, Redis.empty.
  cbn [strs hashes zsets sets expires]. by rewrite !lookup_empty.
Qed.

Lemma numeric_same t s s' :
  (∀ news_id, at_key (LIST_HASH_PREFIX +:+ news_id) s'
              = at_key (LIST_HASH_PREFIX +:+ news_id) s
              ∨ at_key (LIST_HASH_PREFIX +:+ news_id) s' = vacant) →
  numeric t s → numeric t s'.
Proof.
  intros Hsame Hnum news_id pt. unfold hgetall, lookup_key.
  destruct (Hsame news_id) as [-> | ->]; [apply Hnum|done].
Qed.

Lemma numeric_saved t now news_id news_data category publish_time s :
  numeric t s →
  numeric t (saved now news_id news_data category publish_time s).
Proof.
  intros Hnum a pt.
  destruct (saved_cases now news_id news_data category publish_time s)
    as [[_ ->]|(fields & Hf & ->)]; [apply Hnum|].
  destruct (decide (a = news_id)) as [->|Hne].
  - unfold hgetall, lookup_key. rewrite save_at_projection by done.
    apply list_fields_Some in Hf as (ti & au & pp & u & _ & _ & _ & _ & ->).
    unfold live. cbn [s_deadline]. destruct (is_due _ _); [done|].
    unfold hash_of at 1. cbn [s_hash foldl fst snd default from_option id].
    rewrite lookup_insert_ne, lookup_insert_ne, lookup_insert_ne,
      lookup_insert_eq by done.
    intros [= <-]. rewrite int_str. eauto.
  - unfold hgetall, lookup_key. rewrite save_frame; [apply Hnum|try key_neq..].
    intros H%list_key_inj. done.
Qed.

Lemma numeric_deleted t now news_id category s :
  numeric t s → numeric t (deleted_from now news_id category s).
Proof.
  apply numeric_same. intros a. unfold deleted_from.
  rewrite delete_news_up. cbn [snd].
  destruct (decide (a = news_id)) as [->|Hne].
  - right. apply delete_projection.
  - left. apply delete_frame; try key_neq. intros H%list_key_inj. done.
Qed.

Lemma numeric_swept t now days s :
  numeric t s → numeric t (swept now days s).
Proof.
  apply numeric_same. intros a.
  destruct (decide (a ∈ zrangebyscore now TIMELINE_ZSET 0
                          (now - days * 86400 * 1000) s)) as [Hin|Hin].
  - right. by destruct (swept_old now days s a Hin) as [-> _].
  - left. by destruct (swept_young now days s a Hin) as [-> _].
Qed.

End Numeric.

(** ** Identifiers that were never saved *)

Section NeverSaved.
Variable news_id : string.

Let detail_key := DETAIL_PREFIX +:+ news_id.

Lemma serve_keeps_vacant now up q s :
  saves news_id q = false →
  at_key detail_key s = vacant →
  at_key detail_key (serve now up q s) = vacant.
Proof.
  subst detail_key. intros Hq Hs.
  destruct q as [a data category publish_time|a category|days]; cbn [serve];
    destruct up;
    rewrite ?save_news_down, ?delete_news_down, ?cleanup_old_news_down;
    try done.
  - simpl in Hq. apply bool_decide_eq_false in Hq.
    fold (saved now a data category publish_time s).
    destruct (saved_cases now a data category publish_time s)
      as [[_ ->]|(fields & Hf & ->)]; [done|].
    rewrite save_frame; [done|try key_neq..].
    intros H%detail_key_inj. done.
  - rewrite delete_news_up. cbn [snd].
    destruct (decide (a = news_id)) as [->|Hne]; [apply delete_detail|].
    rewrite delete_frame; [done|try key_neq..].
    intros H%detail_key_inj. done.
  - fold (swept now days s).
    destruct (decide (news_id ∈ zrangebyscore now TIMELINE_ZSET 0
                                  (now - days * 86400 * 1000) s))
      as [Hin|Hin].
    + by destruct (swept_old now days s news_id Hin) as [_ ->].
    + by destruct (swept_young now days s news_id Hin) as [_ ->].
Qed.

Lemma replay_keeps_vacant log s :
  Forall (λ e, saves news_id e.2 = false) log →
  at_key detail_key s = vacant →
  at_key detail_key (replay log s) = vacant.
Proof.
  intros Hlog. revert s. induction Hlog as [|[[now up] q] log Hq _ IH];
    intros s Hs; [done|].
  apply IH. by apply serve_keeps_vacant.
Qed.

End NeverSaved.

(** ** Stores the methods can reach *)

Section Reachable.

(** A key that no command of the pipeline gives a deadline keeps having
    none. *)
Lemma slot_run_undated now pipe v :
  Forall (λ c, is_timed c = false) pipe →
  s_deadline v = None → s_deadline (slot_run now pipe v) = None.
Proof.
  intros Hpipe. revert v. induction Hpipe as [|c pipe Hc _ IH]; intros v Hv.
  { done. }
  apply IH. destruct (inert c); [done|].
  rewrite (live_fresh now v) by (unfold fresh; by rewrite Hv).
  destruct c; try done; simpl; try destruct (to_double score);
    unfold with_hash, with_zset, with_set; try case_decide; try done.
Qed.

Lemma run_all_undated now pipe k s :
  Forall (λ c, is_timed c = true → cmd_key c ≠ k) pipe →
  s_deadline (at_key k s) = None →
  s_deadline (at_key k (run_all now pipe s).2) = None.
Proof.
  intros Hpipe Hs. rewrite at_key_run_all. apply slot_run_undated; [|done].
  apply Forall_forall. intros c [Hk Hin]%list_elem_of_filter.
  rewrite Forall_forall in Hpipe. specialize (Hpipe c Hin).
  destruct (is_timed c); [|done]. by destruct Hpipe.
Qed.

(** The timelines and the registry never get a deadline. *)
Lemma serve_undated now up q k s :
  index_key k →
  s_deadline (at_key k s) = None →
  s_deadline (at_key k (serve now up q s)) = None.
Proof.
  intros Hk Hs.
  assert (∀ a, k ≠ LIST_HASH_PREFIX +:+ a ∧ k ≠ DETAIL_PREFIX +:+ a) as Hne.
  { intros a. destruct Hk as [->|[->|[c ->]]]; split; key_neq. }
  destruct q as [a data category publish_time|a category|days]; cbn [serve];
    destruct up;
    rewrite ?save_news_down, ?delete_news_down, ?cleanup_old_news_down;
    try done.
  - fold (saved now a data category publish_time s).
    destruct (saved_cases now a data category publish_time s)
      as [[_ ->]|(fields & Hf & ->)]; [done|].
    apply run_all_undated; [|done].
    unfold save_pipe. repeat constructor; simpl; try done; intros _;
      apply not_eq_sym, Hne.
  - rewrite delete_news_up. cbn [snd]. apply run_all_undated; [|done].
    unfold delete_pipe. by repeat constructor.
  - fold (swept now days s).
    destruct (swept_cases now days s) as [[_ ->]|[_ ->]]; [done|].
    apply run_all_undated; [|done].
    apply Forall_forall. intros c Hc Htimed. exfalso.
    rewrite cleanup_pipe_split in Hc.
    apply elem_of_app in Hc as [Hc|Hc].
    + apply list_elem_of_bind in Hc as (b & Hc & _). unfold dels in Hc.
      apply elem_of_cons in Hc as [->|Hc]; [done|].
      by apply list_elem_of_singleton in Hc as ->.
    + apply elem_of_cons in Hc as [->|Hc]; [done|].
      unfold range_removals in Hc.
      by apply list_elem_of_fmap in Hc as (b & -> & _).
Qed.

Lemma replay_undated log k :
  index_key k → s_deadline (at_key k (replay log Redis.empty)) = None.
Proof.
  intros Hk. unfold replay.
  assert (s_deadline (at_key k Redis.empty) = None) as Hs
    by (by rewrite at_key_empty).
  revert Hs. generalize Redis.empty.
  induction log as [|[[now up] q] log IH]; intros s Hs; [done|].
  apply IH. by apply serve_undated.
Qed.

(** The projections of a store the methods have built hold integer
    [publish_time] fields. *)
Lemma serve_numeric t now up q s : numeric t s → numeric t (serve now up q s).
Proof.
  intros Hnum.
  destruct q as [a data category publish_time|a category|days]; cbn [serve];
    destruct up;
    rewrite ?save_news_down, ?delete_news_down, ?cleanup_old_news_down;
    try done.
  - by apply numeric_saved.
  - by apply numeric_deleted.
  - by apply numeric_swept.
Qed.

Lemma replay_numeric t log : numeric t (replay log Redis.empty).
Proof.
  unfold replay. pose proof (numeric_empty t) as Hs. revert Hs.
  generalize Redis.empty.
  induction log as [|[[now up] q] log IH]; intros s Hs; [done|].
  apply IH. by apply serve_numeric.
Qed.

End Reachable.

(** * The claims *)




(** C2 (divergence). Two records of "tech" are saved with
    [publish_time] 1000 and 2000; deleting the second takes "tech" out
    of the registry. A sweep with the clock at 1500 and [days = 0] has
    the cutoff 1500: it removes the first record from the global
    timeline and deletes its projection and its detail, and it cleans
    no category, so that the identifier stays in the timeline of "tech"
    with its score of 1000, below the cutoff. *)
Lemma sweep_strands_unregistered_category :
  let s := deleted_from 30 "a2" "tech" two_records in
  let s' := swept 1500 0 s in
  1500 - 0 * 86400 * 1000 = 1500
  ∧ zscore 1500 TIMELINE_ZSET "a1" s = Some 1000
  ∧ zscore 1500 (CATEGORY_PREFIX +:+ "tech") "a1" s = Some 1000
  ∧ (cleanup_old_news 1500 true 0 s).1
    = Ok {| deleted := 1; categories_cleaned := 0 |}
  ∧ zscore 1500 TIMELINE_ZSET "a1" s' = None
  ∧ hgetall 1500 (LIST_HASH_PREFIX +:+ "a1") s' = ∅
  ∧ Redis.get 1500 (DETAIL_PREFIX +:+ "a1") s' = None
  ∧ zscore 1500 (CATEGORY_PREFIX +:+ "tech") "a1" s' = Some 1000.
Proof. vm_compute. split_and!; reflexivity. Qed.

(** A record whose [publish_time] equals the cutoff is swept: with the
    clock at 86401000 and [days = 1] the cutoff is 1000, and the record
    saved with [publish_time] 1000 leaves both timelines and loses its
    projection and its detail. A record with a negative [publish_time]
    is below the range the sweep selects and stays. *)
Example sweep_takes_record_at_cutoff :
  let now := 86401000 in
  let s' := swept now 1 one_record in
  now - 1 * 86400 * 1000 = 1000
  ∧ zscore now TIMELINE_ZSET "a1" one_record = Some 1000
  ∧ zscore now TIMELINE_ZSET "a1" s' = None
  ∧ zscore now (CATEGORY_PREFIX +:+ "tech") "a1" s' = None
  ∧ hgetall now (LIST_HASH_PREFIX +:+ "a1") one_record !! "title"
    = Some "T1"
  ∧ hgetall now (LIST_HASH_PREFIX +:+ "a1") s' = ∅
  ∧ Redis.get now (DETAIL_PREFIX +:+ "a1") s' = None
  ∧ zscore now TIMELINE_ZSET "a0"
      (swept now 1
         (saved 20 "a0" [("title", PStr "T0")] "tech" (Some (-5)) one_record))
    = Some (-5).
Proof. vm_compute. split_and!; reflexivity. Qed.

(** C3 (counterexample). Two records of category "tech" are stored;
    deleting one of them removes "tech" from the registry although the
    other record is still in the category timeline. *)
Lemma delete_unregisters_live_category :
  let s' := deleted_from 30 "a2" "tech" two_records in
  ("tech" ∈ smembers 30 CATEGORIES_SET two_records)
  ∧ ("tech" ∉ smembers 30 CATEGORIES_SET s')
  ∧ zscore 30 (CATEGORY_PREFIX +:+ "tech") "a1" s' = Some 1000.
Proof. vm_compute. split_and!; (reflexivity || discriminate). Qed.

(** C3 (amended). [delete_news] removes the category it is given from the
    registry, whether or not other records of that category remain, and
    leaves every other name registered; [cleanup_old_news] leaves the
    registry as it is. *)
Theorem delete_news_unregisters now news_id category days s :
  smembers now CATEGORIES_SET (deleted_from now news_id category s)
  = smembers now CATEGORIES_SET s ∖ {[category]}
  ∧ smembers now CATEGORIES_SET (swept now days s)
    = smembers now CATEGORIES_SET s.
Proof.
  split.
  - unfold deleted_from. rewrite delete_news_up. apply delete_registry.
  - unfold smembers, lookup_key. by rewrite swept_registry.
Qed.


(** C5. From an empty store, after saving "a1" (category "tech", title
    "T1", publish time 1000) and "a2" (category "tech", title "T2",
    publish time 2000), and while the projections have not outlived their
    time-to-live: page 1 of size 1 of "tech" holds exactly the item of
    "a2" with title "T2", [total = 2] and [has_next = True]; page 2 of
    size 1 holds exactly the item of "a1" with title "T1" and
    [has_next = False]. The clock readings [t1], [t2] of the two saves
    and [t3], [t4] of the two list calls are arbitrary otherwise. *)
Theorem two_saves_two_pages t1 t2 t3 t4 :
  t3 < t2 + 604800000 → t4 < t1 + 604800000 →
  let s1 := saved t1 "a1" [("title", PStr "T1")] "tech" (Some 1000)
              Redis.empty in
  let s2 := saved t2 "a2" [("title", PStr "T2")] "tech" (Some 2000) s1 in
  (get_news_list t3 true (Some "tech") 1 1 s2).1
  = Ok {| items := [titled_item "a2" "T2" "tech" 2000]; total := 2;
          page := 1; page_size := 1; has_next := true |}
  ∧ (get_news_list t4 true (Some "tech") 2 1 s2).1
    = Ok {| items := [titled_item "a1" "T1" "tech" 1000]; total := 2;
            page := 2; page_size := 1; has_next := false |}
  ∧ titled_item "a2" "T2" "tech" 2000 !! "id" = Some (PStr "a2")
  ∧ titled_item "a2" "T2" "tech" 2000 !! "title" = Some (PStr "T2")
  ∧ titled_item "a1" "T1" "tech" 1000 !! "id" = Some (PStr "a1")
  ∧ titled_item "a1" "T1" "tech" 1000 !! "title" = Some (PStr "T1").
Proof.
  intros H3 H4 s1 s2.
  set (f1 := [("title", "T1"); ("category", "tech");
              ("publish_time", "1000"); ("author", ""); ("pic_path", "");
              ("url", "")]).
  set (f2 := [("title", "T2"); ("category", "tech");
              ("publish_time", "2000"); ("author", ""); ("pic_path", "");
              ("url", "")]).
  assert (s1 = (run_all t1 (save_pipe "a1" f1 [("title", PStr "T1")] "tech"
                              1000) Redis.empty).2) as Hs1
    by (by apply saved_run).
  assert (s2 = (run_all t2 (save_pipe "a2" f2 [("title", PStr "T2")] "tech"
                              2000) s1).2) as Hs2
    by (by apply saved_run).
  assert (∀ t, zset_at t (CATEGORY_PREFIX +:+ "tech") s2
               = list_to_map [("a1", 1000); ("a2", 2000)]) as Hz.
  { intros t. unfold zset_at, lookup_key.
    rewrite Hs2, (save_at_category _ _ _ _ (Some 2000)) by done.
    rewrite Hs1, (save_at_category _ _ _ _ (Some 1000)) by done.
    rewrite at_key_empty. vm_compute. reflexivity. }
  assert (hgetall t3 (LIST_HASH_PREFIX +:+ "a2") s2
          = titled_fields "T2" "tech" 2000) as Ha2.
  { unfold hgetall, lookup_key.
    rewrite Hs2, (save_at_projection _ _ _ _ (Some 2000)) by done.
    cbv zeta.
    rewrite live_deadline, is_due_window by (unfold EXPIRE_TIME; lia).
    rewrite Hs1, (save_frame _ _ _ _ (Some 1000)) by (done || key_neq).
    rewrite at_key_empty. vm_compute. reflexivity. }
  assert (hgetall t4 (LIST_HASH_PREFIX +:+ "a1") s2
          = titled_fields "T1" "tech" 1000) as Ha1.
  { unfold hgetall, lookup_key.
    rewrite Hs2, (save_frame _ _ _ _ (Some 2000)) by (done || key_neq).
    rewrite Hs1, (save_at_projection _ _ _ _ (Some 1000)) by done.
    cbv zeta.
    rewrite live_deadline, is_due_window by (unfold EXPIRE_TIME; lia).
    rewrite at_key_empty. vm_compute. reflexivity. }
  clear Hs1 Hs2 f1 f2.
  clearbody s2. clear s1.
  assert (zset_key_of (Some "tech") = CATEGORY_PREFIX +:+ "tech") as Hk
    by reflexivity.
  split_and!; [| |vm_compute; reflexivity..].
  - rewrite get_news_list_up, Hk. cbv zeta. unfold zcard, zrev_window.
    replace (window_ok _ _) with true by (vm_compute; reflexivity).
    rewrite !Hz.
    replace (zrev_members _) with ["a2"; "a1"] by (vm_compute; reflexivity).
    replace (Z.of_nat _) with 2 by (vm_compute; reflexivity).
    replace (lrange _ _ _) with ["a2"] by (vm_compute; reflexivity).
    unfold fst. rewrite fmap_cons, fmap_nil. unfold hash_reply.
    rewrite Ha2. vm_compute. reflexivity.
  - rewrite get_news_list_up, Hk. cbv zeta. unfold zcard, zrev_window.
    replace (window_ok _ _) with true by (vm_compute; reflexivity).
    rewrite !Hz.
    replace (zrev_members _) with ["a2"; "a1"] by (vm_compute; reflexivity).
    replace (Z.of_nat _) with 2 by (vm_compute; reflexivity).
    replace (lrange _ _ _) with ["a1"] by (vm_compute; reflexivity).
    unfold fst. rewrite fmap_cons, fmap_nil. unfold hash_reply.
    rewrite Ha1. vm_compute. reflexivity.
Qed.

(** The theorem with the saves at clock 10 and 20 and the list calls at
    clock 30. *)
Lemma two_saves_two_pages_witness :
  30 < 20 + 604800000 ∧ 30 < 10 + 604800000
  ∧ (get_news_list 30 true (Some "tech") 1 1
       (saved 20 "a2" [("title", PStr "T2")] "tech" (Some 2000)
          (saved 10 "a1" [("title", PStr "T1")] "tech" (Some 1000)
             Redis.empty))).1
    = Ok {| items := [titled_item "a2" "T2" "tech" 2000]; total := 2;
            page := 1; page_size := 1; has_next := true |}.
Proof.
  assert (30 < 20 + 604800000) as H3 by lia.
  assert (30 < 10 + 604800000) as H4 by lia.
  split; [exact H3|]. split; [exact H4|].
  exact (proj1 (two_saves_two_pages 10 20 30 30 H3 H4)).
Defined.

(** C6 (counterexample). A record saved with [publish_time] 1000 and saved
    again with [publish_time] 0 while the clock reads 7777 has the score
    7777 in both timelines, not the [publish_time] of the later save. *)
Lemma resave_zero_takes_clock :
  let s := saved 7777 "a1" [("title", PStr "T1")] "tech" (Some 0)
             one_record in
  zrange_withscores (zset_at 7777 TIMELINE_ZSET s) = [("a1", 7777)]
  ∧ zrange_withscores (zset_at 7777 (CATEGORY_PREFIX +:+ "tech") s)
    = [("a1", 7777)]
  ∧ zscore 7777 TIMELINE_ZSET "a1" s ≠ Some 0.
Proof. vm_compute. split_and!; (reflexivity || discriminate). Qed.

(** C6 (amended). After a second save of an identifier in the same
    category that returned, the global timeline and the category
    timeline each hold exactly one entry for the identifier. With
    [score] the [publish_time] of the later save when that is an integer
    other than 0, and the clock reading of the later save when
    [publish_time] is 0 or missing, the score of the entry is the double
    nearest to [score], which is [score] itself when its magnitude is at
    most [2^53]. *)
Theorem resave_single_entry now1 now2 news_id category data1 data2
    publish_time1 publish_time2 s :
  let s1 := saved now1 news_id data1 category publish_time1 s in
  let s2 := saved now2 news_id data2 category publish_time2 s1 in
  let score :=
    match publish_time2 with
    | Some t => if t =? 0 then now2 else t
    | None => now2
    end in
  (save_news now2 true news_id data2 category publish_time2 s1).1 = Ok true →
  ∃ sc,
    to_double score = Some sc
    ∧ (Z.abs score ≤ 2 ^ 53 → sc = score)
    ∧ filter (λ p, p.1 = news_id)
        (zrange_withscores (zset_at now2 TIMELINE_ZSET s2))
      = [(news_id, sc)]
    ∧ filter (λ p, p.1 = news_id)
        (zrange_withscores (zset_at now2 (CATEGORY_PREFIX +:+ category) s2))
      = [(news_id, sc)].
Proof.
  intros s1 s2 score Hret.
  change score with (or_int publish_time2 now2). clear score.
  apply save_news_returns in Hret as [[fields Hf] [sc Hsc]].
  exists sc. split; [done|]. split.
  { intros Hex. apply to_double_exact in Hex. congruence. }
  subst s2. rewrite (saved_run _ _ _ _ _ _ fields) by done.
  rewrite (save_timeline _ _ _ _ _ _ fields sc),
    (save_category _ _ _ _ _ _ fields sc) by done.
  split; apply zrange_withscores_entry, lookup_insert_eq.
Qed.

(** The theorem on the record of [one_record], saved again at clock 20
    with [publish_time] 3000. *)
Lemma resave_single_entry_witness :
  (save_news 20 true "a1" [("title", PStr "T1")] "tech" (Some 3000)
     one_record).1 = Ok true
  ∧ ∃ sc,
      to_double 3000 = Some sc
      ∧ filter (λ p, p.1 = "a1")
          (zrange_withscores
             (zset_at 20 TIMELINE_ZSET
                (saved 20 "a1" [("title", PStr "T1")] "tech" (Some 3000)
                   one_record)))
        = [("a1", sc)].
Proof.
  assert ((save_news 20 true "a1" [("title", PStr "T1")] "tech" (Some 3000)
             (saved 10 "a1" [("title", PStr "T1")] "tech" (Some 1000)
                Redis.empty)).1 = Ok true) as Hret
    by (vm_compute; reflexivity).
  split; [exact Hret|].
  destruct (resave_single_entry 10 20 "a1" "tech" [("title", PStr "T1")]
              [("title", PStr "T1")] (Some 1000) (Some 3000) Redis.empty Hret)
    as (sc & Hsc & _ & Ht & _).
  exists sc. split; [exact Hsc|exact Ht].
Defined.




(** C8. [get_news_detail] returns [None], and raises nothing, for an
    identifier that no call of the log has saved, for an identifier a
    sweep has removed, and for an identifier whose detail, written by a
    save that returned, has outlived its time-to-live: the three cases
    give the same answer. *)
Theorem detail_absent json_loads news_id :
  (∀ log now,
     Forall (λ e, saves news_id e.2 = false) log →
     get_news_detail now true json_loads news_id (replay log Redis.empty)
     = (Ok None, replay log Redis.empty))
  ∧ (∀ s now days sc now',
       zscore now TIMELINE_ZSET news_id s = Some sc →
       0 ≤ sc ≤ bound (now - days * 86400 * 1000) →
       get_news_detail now' true json_loads news_id (swept now days s)
       = (Ok None, swept now days s))
  ∧ (∀ s now news_data category publish_time now',
       (save_news now true news_id news_data category publish_time s).1
       = Ok true →
       now + EXPIRE_TIME * 1000 < now' →
       get_news_detail now' true json_loads news_id
         (saved now news_id news_data category publish_time s)
       = (Ok None, saved now news_id news_data category publish_time s)).
Proof.
  split_and!.
  - intros log now Hlog. apply get_news_detail_absent.
    unfold Redis.get, lookup_key.
    by rewrite replay_keeps_vacant.
  - intros s now days sc now' Hsc Hr. apply get_news_detail_absent.
    unfold Redis.get, lookup_key.
    assert (news_id ∈ zrangebyscore now TIMELINE_ZSET 0
                        (now - days * 86400 * 1000) s) as Hin
      by (apply elem_of_old_ids; eauto).
    by destruct (swept_old now days s news_id Hin) as [_ ->].
  - intros s now news_data category publish_time now' Hret Hlate.
    apply save_news_returns in Hret as [[fields Hf] _].
    apply get_news_detail_absent.
    unfold Redis.get, lookup_key.
    rewrite (saved_run _ _ _ _ _ _ fields) by done.
    rewrite (save_at_detail _ _ _ _ _ _ fields) by done.
    unfold live. cbn [s_deadline]. by rewrite is_due_after.
Qed.

(** The theorem on an identifier that a log of two saves never mentions. *)
Lemma detail_absent_witness :
  let log :=
    [(10, true, Save "a1" [("title", PStr "T1")] "tech" (Some 1000));
     (20, true, Save "a2" [("title", PStr "T2")] "tech" (Some 2000))] in
  Forall (λ e, saves "a3" e.2 = false) log
  ∧ get_news_detail 30 true (λ _, None) "a3" (replay log Redis.empty)
    = (Ok None, replay log Redis.empty).
Proof.
  intros log.
  assert (Forall (λ e, saves "a3" e.2 = false) log) as Hlog
    by (repeat constructor).
  split; [exact Hlog|].
  exact (proj1 (detail_absent (λ _, None) "a3") log 30 Hlog).
Defined.

(** C9 (counterexample). No call returns [has_next = False] after
    dropping an identifier of its window: an absent projection cannot
    make [has_next] false. *)
Lemma has_next_never_false_after_drop :
  ¬ ∃ now category page page_size s r,
      (get_news_list now true category page page_size s).1 = Ok r
      ∧ (length (items r)
         < length (zrev_window now (zset_key_of category)
                     ((page - 1) * page_size)
                     ((page - 1) * page_size + page_size - 1) s))%nat
      ∧ has_next r = false.
Proof.
  intros (now & category & page & page_size & s & r & Hr & Hlt & Hfalse).
  pose proof (has_next_after_drop now s category page page_size r Hr Hlt).
  congruence.
Qed.

(** C9 (amended). For a call that returns: [total] is the cardinality of
    the selected timeline; when the window of identifiers is not empty,
    [has_next] is [(page-1)*page_size + len(items) < total]; when the
    timeline is empty or the window is past the end of the data,
    [has_next] is [False] and no item is returned. Identifiers whose
    projection is absent are dropped from the items, which lowers the
    item count and can only make [has_next] true: it is true whenever an
    identifier of the window was dropped, also on the last page, and with
    [page >= 1] and [page_size >= 1] it is true whenever
    [page * page_size < total]. *)
Theorem has_next_of_page now category page page_size s r :
  (get_news_list now true category page page_size s).1 = Ok r →
  let start := (page - 1) * page_size in
  let news_ids :=
    zrev_window now (zset_key_of category) start (start + page_size - 1) s in
  total r = zcard now (zset_key_of category) s
  ∧ (length (items r) ≤ length news_ids)%nat
  ∧ (news_ids ≠ [] →
     has_next r = (start + Z.of_nat (length (items r)) <? total r))
  ∧ (total r = 0 ∨ news_ids = [] → has_next r = false ∧ items r = [])
  ∧ ((length (items r) < length news_ids)%nat → has_next r = true)
  ∧ (1 ≤ page → 1 ≤ page_size → page * page_size < total r →
     has_next r = true).
Proof.
  intros Hr start news_ids.
  destruct (get_news_list_returns now s category page page_size r Hr)
    as (Ht & _ & _ & Hcases).
  fold start in Hcases. fold news_ids in Hcases.
  assert (total r = 0 → news_ids = []) as Hempty.
  { rewrite Ht. apply zrev_window_empty. }
  split_and!.
  - done.
  - destruct Hcases as [(_ & -> & _)|(_ & _ & Hc & _)]; [simpl; lia|].
    by apply collect_length in Hc.
  - intros Hne. destruct Hcases as [([H0|Hnil] & _)|(_ & _ & _ & ->)];
      [by apply Hempty in H0|done..].
  - intros Hor. destruct Hcases as [(_ & -> & ->)|(H0 & Hne & _)]; [done|].
    by destruct Hor.
  - intros Hlt.
    by apply (has_next_after_drop now s category page page_size r).
  - intros Hpage Hsize Hlt.
    by destruct (has_next_below_total now s category page page_size r
                   Hpage Hsize Hr Hlt).
Qed.

(** The theorem on the page whose only projection has expired. *)
Lemma has_next_of_page_witness :
  let r := {| items := []; total := 1; page := 1; page_size := 1;
              has_next := true |} in
  (get_news_list 604800011 true (Some "tech") 1 1 one_record).1 = Ok r
  ∧ total r = zcard 604800011 (zset_key_of (Some "tech")) one_record.
Proof.
  intros r.
  assert ((get_news_list 604800011 true (Some "tech") 1 1 one_record).1 = Ok r)
    as Hr by (vm_compute; reflexivity).
  split; [exact Hr|].
  exact (proj1 (has_next_of_page 604800011 (Some "tech") 1 1 one_record r Hr)).
Defined.

(** C10. With a clock that does not read 0, a save whose [publish_time]
    is 0 is the same call as a save without [publish_time]: when the
    call returns, the clock reading being the integer part of a double
    as [int(time.time() * 1000)] makes it, the record has the clock
    reading as its score in both timelines and as the [publish_time] of
    its projection. No save, whatever its [publish_time] and whatever it
    answers, puts a score of 0 into the global timeline or into a
    category timeline. *)
Theorem save_zero_publish_time now up news_id news_data category s :
  now ≠ 0 →
  save_news now up news_id news_data category (Some 0) s
  = save_news now up news_id news_data category None s
  ∧ (let s' := saved now news_id news_data category (Some 0) s in
     to_double now = Some now →
     (save_news now true news_id news_data category (Some 0) s).1 = Ok true →
     zscore now TIMELINE_ZSET news_id s' = Some now
     ∧ zscore now (CATEGORY_PREFIX +:+ category) news_id s' = Some now
     ∧ hgetall now (LIST_HASH_PREFIX +:+ news_id) s' !! "publish_time"
       = Some (str now))
  ∧ (∀ publish_time member c,
       let s' := saved now news_id news_data category publish_time s in
       (zscore now TIMELINE_ZSET member s' = Some 0 →
        zscore now TIMELINE_ZSET member s = Some 0)
       ∧ (zscore now (CATEGORY_PREFIX +:+ c) member s' = Some 0 →
          zscore now (CATEGORY_PREFIX +:+ c) member s = Some 0)).
Proof.
  intros Hnow. split; [done|]. split.
  - intros s' Hclock Hret. subst s'.
    apply save_news_returns in Hret as [[fields Hf] _].
    change (or_int (Some 0) now) with now in Hf.
    rewrite (saved_run _ _ _ _ _ _ fields) by done. unfold zscore.
    rewrite (save_timeline _ _ _ _ (Some 0) _ fields now),
      (save_category _ _ _ _ (Some 0) _ fields now) by done.
    rewrite (save_projection _ _ _ _ (Some 0) _ fields Hf)
      by (unfold EXPIRE_TIME; lia).
    rewrite !lookup_insert_eq.
    apply list_fields_Some in Hf as (ti & au & pp & u & _ & _ & _ & _ & ->).
    cbn [foldl fst snd]. by simplify_map_eq.
  - intros publish_time member c s'. subst s'.
    pose proof (or_int_nonzero publish_time now Hnow) as Hnz.
    destruct (saved_cases now news_id news_data category publish_time s)
      as [[_ ->]|(fields & Hf & ->)]; [done|].
    unfold zscore.
    destruct (to_double (or_int publish_time now)) as [sc|] eqn:Hsc; cycle 1.
    { unfold zset_at, lookup_key.
      rewrite (save_at_timeline _ _ _ _ publish_time _ fields).
      rewrite slot_run_zadd_fails by done. split; [done|].
      destruct (decide (c = category)) as [->|Hc].
      - rewrite (save_at_category _ _ _ _ publish_time _ fields).
        by rewrite slot_run_zadd_fails.
      - rewrite (save_frame _ _ _ _ publish_time _ fields);
          [done|try key_neq..].
        intros H%category_key_inj. done. }
    assert (sc ≠ 0) as Hsc0.
    { intros ->. by apply to_double_0 in Hsc. }
    rewrite (save_timeline _ _ _ _ _ _ fields sc) by done.
    split.
    + destruct (decide (news_id = member)) as [->|Hne].
      * rewrite lookup_insert_eq. congruence.
      * by rewrite lookup_insert_ne.
    + destruct (decide (c = category)) as [->|Hc].
      * rewrite (save_category _ _ _ _ _ _ fields sc) by done.
        destruct (decide (news_id = member)) as [->|Hne].
        -- rewrite lookup_insert_eq. congruence.
        -- by rewrite lookup_insert_ne.
      * unfold zset_at, lookup_key.
        rewrite (save_frame _ _ _ _ publish_time _ fields);
          [done|try key_neq..].
        intros H%category_key_inj. done.
Qed.

(** The theorem on an empty store with the clock at 1700000000000. *)
Lemma save_zero_publish_time_witness :
  1700000000000 ≠ 0
  ∧ save_news 1700000000000 true "a1" [("title", PStr "T1")] "tech" (Some 0)
      Redis.empty
    = save_news 1700000000000 true "a1" [("title", PStr "T1")] "tech" None
        Redis.empty
  ∧ zscore 1700000000000 TIMELINE_ZSET "a1"
      (saved 1700000000000 "a1" [("title", PStr "T1")] "tech" (Some 0)
         Redis.empty)
    = Some 1700000000000.
Proof.
  assert (1700000000000 ≠ 0) as Hnow by lia.
  assert (to_double 1700000000000 = Some 1700000000000) as Hclock
    by (vm_compute; reflexivity).
  assert ((save_news 1700000000000 true "a1" [("title", PStr "T1")] "tech"
             (Some 0) Redis.empty).1 = Ok true) as Hret
    by (vm_compute; reflexivity).
  split; [exact Hnow|].
  destruct (save_zero_publish_time 1700000000000 true "a1"
              [("title", PStr "T1")] "tech" Redis.empty Hnow)
    as (Hsame & Hzero & _).
  split; [exact Hsame|].
  exact (proj1 (Hzero Hclock Hret)).
Defined.

(** * Further properties of the store *)

(** ** Reading back what was saved *)

(** What [save_news] answers while the store is reachable. *)
Lemma save_news_answer now news_id news_data category publish_time s :
  (save_news now true news_id news_data category publish_time s).1
  = match list_fields news_data category (or_int publish_time now),
          to_double (or_int publish_time now) with
    | Some _, Some _ => Ok true
    | Some _, None => Raise ResponseError
    | None, _ => Raise DataError
    end.
Proof.
  destruct (list_fields news_data category (or_int publish_time now))
    as [fields|] eqn:Hf; [|by rewrite save_news_refused].
  destruct (to_double (or_int publish_time now)) as [sc|] eqn:Hsc.
  - by rewrite (save_news_up _ _ _ _ _ _ fields Hf sc).
  - by rewrite (save_news_bad_score _ _ _ _ _ _ fields).
Qed.

Section ReadBack.
Variables (json_loads : string → option dict).
Variables (now : Z) (news_id : string) (news_data : dict)
  (category : string) (publish_time : option Z) (s : db).

Let s' := saved now news_id news_data category publish_time s.

Lemma json_dumps_not_empty d : String.eqb (json_dumps d) "" = false.
Proof. done. Qed.

(** X1. After a [save_news] that returned, [get_news_detail] returns
    the payload that was stored, with its "id" set to the identifier,
    up to and including the deadline of the detail, provided the
    decoder inverts the encoder on this payload; after the deadline it
    returns nothing. *)
Theorem detail_after_save t :
  (save_news now true news_id news_data category publish_time s).1 = Ok true →
  (json_loads (json_dumps news_data) = Some news_data →
   t ≤ now + EXPIRE_TIME * 1000 →
   get_news_detail t true json_loads news_id s'
   = (Ok (Some (Py.set news_data "id" (PStr news_id))), s'))
  ∧ (now + EXPIRE_TIME * 1000 < t →
     get_news_detail t true json_loads news_id s' = (Ok None, s')).
Proof.
  intros [[fields Hf] _]%save_news_returns.
  subst s'. rewrite (saved_run _ _ _ _ _ _ fields) by done. split.
  - intros Hjson Ht.
    unfold get_news_detail, query, mbind, M_bind, mret, M_ret.
    rewrite (save_detail _ _ _ _ publish_time) by done.
    by rewrite json_dumps_not_empty, Hjson.
  - intros Ht. apply get_news_detail_absent.
    unfold Redis.get, lookup_key.
    rewrite (save_at_detail _ _ _ _ publish_time), live_deadline.
    by rewrite is_due_after.
Qed.

End ReadBack.

Example loads_dumps :
  Json.loads (json_dumps [("title", PStr "a\b"); ("url", PStr "u?x=1");
                          ("pubDate", PNone); ("rank", PInt (-7));
                          ("top", PBool true)])
  = Some [("title", PStr "a\b"); ("url", PStr "u?x=1"); ("pubDate", PNone);
          ("rank", PInt (-7)); ("top", PBool true)].
Proof. vm_compute. reflexivity. Qed.

(** The theorem at the deadline of the detail of [one_record]. *)
Lemma detail_after_save_witness :
  (save_news 10 true "a1" [("title", PStr "T1")] "tech" (Some 1000)
     Redis.empty).1 = Ok true
  ∧ get_news_detail 604800010 true Json.loads "a1"
      (saved 10 "a1" [("title", PStr "T1")] "tech" (Some 1000) Redis.empty)
    = (Ok (Some [("title", PStr "T1"); ("id", PStr "a1")]),
       saved 10 "a1" [("title", PStr "T1")] "tech" (Some 1000) Redis.empty).
Proof.
  assert ((save_news 10 true "a1" [("title", PStr "T1")] "tech" (Some 1000)
             Redis.empty).1 = Ok true) as Hret by (vm_compute; reflexivity).
  split; [exact Hret|].
  apply (proj1 (detail_after_save Json.loads 10 "a1" [("title", PStr "T1")]
                  "tech" (Some 1000) Redis.empty 604800010 Hret)).
  - vm_compute. reflexivity.
  - vm_compute. discriminate.
Defined.

(** ** The read methods *)

(** X2. The three read methods leave the database as it was, whether
    the store can be reached or not and whatever they return. *)
Theorem reads_keep_store now up json_loads s :
  (∀ category page page_size,
     (get_news_list now up category page page_size s).2 = s)
  ∧ (∀ news_id, (get_news_detail now up json_loads news_id s).2 = s)
  ∧ (get_categories now up s).2 = s.
Proof.
  split_and!.
  - intros category page page_size. destruct up.
    + by rewrite get_news_list_up.
    + by rewrite get_news_list_down.
  - intros news_id.
    unfold get_news_detail, query, mbind, M_bind, mret, M_ret, lift.
    destruct up; [|done].
    destruct (Redis.get _ _ _) as [d|]; [|done].
    destruct (String.eqb d ""); [done|].
    by destruct (json_loads d).
  - unfold get_categories, query. by destruct up.
Qed.

(** ** Index keys without a deadline *)

Section Undated.

Lemma undated_empty : undated Redis.empty.
Proof. intros k _. by rewrite at_key_empty. Qed.

Lemma undated_serve now up q s : undated s → undated (serve now up q s).
Proof. intros Hs k Hk. by apply serve_undated, Hs. Qed.

Lemma undated_replay log : undated (replay log Redis.empty).
Proof. intros k Hk. by apply replay_undated. Qed.

Lemma live_undated t v : s_deadline v = None → live t v = v.
Proof. unfold live. by intros ->. Qed.

Lemma zset_at_undated t k s :
  undated s → index_key k → zset_at t k s = zset_of (at_key k s).
Proof.
  intros Hs Hk. unfold zset_at, lookup_key. by rewrite live_undated by auto.
Qed.

Lemma smembers_undated t k s :
  undated s → index_key k → smembers t k s = set_of (at_key k s).
Proof.
  intros Hs Hk. unfold smembers, lookup_key. by rewrite live_undated by auto.
Qed.

Lemma index_timeline : index_key TIMELINE_ZSET.
Proof. by left. Qed.

Lemma index_registry : index_key CATEGORIES_SET.
Proof. by right; left. Qed.

Lemma index_category c : index_key (CATEGORY_PREFIX +:+ c).
Proof. right; right. by exists c. Qed.

Lemma index_zset_key_of category : index_key (zset_key_of category).
Proof.
  rewrite zset_key_of_cases. destruct category as [c|];
    [destruct (decide (c = ""))|]; auto using index_timeline, index_category.
Qed.

Lemma saved_serve now news_id news_data category publish_time s :
  saved now news_id news_data category publish_time s
  = serve now true (Save news_id news_data category publish_time) s.
Proof. done. Qed.

Lemma deleted_serve now news_id category s :
  deleted_from now news_id category s
  = serve now true (Delete news_id category) s.
Proof. done. Qed.

Lemma swept_serve now days s :
  swept now days s = serve now true (Sweep days) s.
Proof. done. Qed.

Lemma undated_saved now news_id news_data category publish_time s :
  undated s → undated (saved now news_id news_data category publish_time s).
Proof. rewrite saved_serve. apply undated_serve. Qed.

Lemma undated_deleted now news_id category s :
  undated s → undated (deleted_from now news_id category s).
Proof. rewrite deleted_serve. apply undated_serve. Qed.

Lemma undated_swept now days s : undated s → undated (swept now days s).
Proof. rewrite swept_serve. apply undated_serve. Qed.

Lemma replay_snoc log e s :
  replay (log ++ [e]) s = serve e.1.1 e.1.2 e.2 (replay log s).
Proof. unfold replay. by rewrite foldl_app. Qed.

(** The timelines after the three mutating calls, read at any clock. A
    save enters its identifier with the double nearest to its score
    when it sends the block and the store accepts the score, and leaves
    the timelines alone otherwise. *)
Lemma saved_zset t now news_id news_data category publish_time s k :
  undated s →
  k = TIMELINE_ZSET ∨ k = CATEGORY_PREFIX +:+ category →
  zset_at t k (saved now news_id news_data category publish_time s)
  = match list_fields news_data category (or_int publish_time now),
          to_double (or_int publish_time now) with
    | Some _, Some sc => <[news_id := sc]> (zset_at t k s)
    | _, _ => zset_at t k s
    end.
Proof.
  intros Hs Hk.
  assert (index_key k) as Hik
    by (destruct Hk as [->| ->]; auto using index_timeline, index_category).
  rewrite (zset_at_undated t), (zset_at_undated t k s)
    by auto using undated_saved.
  rewrite <-(zset_at_undated now), <-(zset_at_undated now k s)
    by auto using undated_saved.
  destruct (saved_cases now news_id news_data category publish_time s)
    as [[-> ->]|(fields & Hf & ->)]; [done|]. rewrite Hf.
  destruct (to_double (or_int publish_time now)) as [sc|] eqn:Hsc.
  - destruct Hk as [->| ->]; [by apply save_timeline|by apply save_category].
  - unfold zset_at, lookup_key.
    destruct Hk as [->| ->].
    + by rewrite save_at_timeline, slot_run_zadd_fails.
    + by rewrite save_at_category, slot_run_zadd_fails.
Qed.

Lemma saved_frame now news_id news_data category publish_time s k :
  k ≠ LIST_HASH_PREFIX +:+ news_id → k ≠ DETAIL_PREFIX +:+ news_id →
  k ≠ TIMELINE_ZSET → k ≠ CATEGORY_PREFIX +:+ category →
  k ≠ CATEGORIES_SET →
  at_key k (saved now news_id news_data category publish_time s)
  = at_key k s.
Proof.
  intros. destruct (saved_cases now news_id news_data category publish_time s)
    as [[_ ->]|(fields & Hf & ->)]; [done|]. by apply save_frame.
Qed.

Lemma saved_zset_other t now news_id news_data category publish_time s c :
  c ≠ category →
  zset_at t (CATEGORY_PREFIX +:+ c)
    (saved now news_id news_data category publish_time s)
  = zset_at t (CATEGORY_PREFIX +:+ c) s.
Proof.
  intros Hc. unfold zset_at, lookup_key.
  rewrite saved_frame; [done|first [key_neq|by intros ?%category_key_inj]..].
Qed.

Lemma deleted_zset t now news_id category s k :
  undated s →
  k = TIMELINE_ZSET ∨ k = CATEGORY_PREFIX +:+ category →
  zset_at t k (deleted_from now news_id category s)
  = delete news_id (zset_at t k s).
Proof.
  intros Hs Hk.
  assert (index_key k) as Hik
    by (destruct Hk as [->| ->]; auto using index_timeline, index_category).
  rewrite (zset_at_undated t), (zset_at_undated t k s)
    by auto using undated_deleted.
  rewrite <-(zset_at_undated now), <-(zset_at_undated now k s)
    by auto using undated_deleted.
  unfold deleted_from. rewrite delete_news_up. cbn [snd].
  destruct Hk as [->| ->]; [apply delete_timeline|apply delete_category].
Qed.

Lemma deleted_zset_other t now news_id category s c :
  c ≠ category →
  zset_at t (CATEGORY_PREFIX +:+ c) (deleted_from now news_id category s)
  = zset_at t (CATEGORY_PREFIX +:+ c) s.
Proof.
  intros Hc. unfold zset_at, lookup_key, deleted_from.
  rewrite delete_news_up. cbn [snd].
  rewrite delete_frame; [done|first [key_neq|by intros ?%category_key_inj]..].
Qed.

End Undated.

(** ** Calls in sequence *)

Section Sequences.
Variable log : list (Z * bool * request).

Let s := replay log Redis.empty.

Lemma zset_key_of_listing listing category :
  listing = None ∨ (listing = Some category ∧ category ≠ "") →
  zset_key_of listing = TIMELINE_ZSET
  ∨ zset_key_of listing = CATEGORY_PREFIX +:+ category.
Proof.
  rewrite zset_key_of_cases. intros [->|[-> Hc]]; [by left|].
  right. by rewrite decide_False.
Qed.

(** X3. On a store the methods have built, and for list calls that
    return: a [save_news] that returns raises the total that
    [get_news_list] reports for the global list, and for the list of
    the category saved under, by one when the identifier was not yet in
    that list, and leaves it as it was otherwise; a [save_news] that
    raises leaves both totals as they were. *)
Theorem save_news_total t t' now news_id news_data category publish_time
    listing page page_size page' page_size' r r' :
  listing = None ∨ (listing = Some category ∧ category ≠ "") →
  (get_news_list t true listing page page_size s).1 = Ok r →
  (get_news_list t' true listing page' page_size'
     (saved now news_id news_data category publish_time s)).1 = Ok r' →
  total r'
  = total r
    + match (save_news now true news_id news_data category publish_time s).1,
            zscore t (zset_key_of listing) news_id s with
      | Ok _, None => 1
      | _, _ => 0
      end.
Proof.
  intros Hl Hr Hr'.
  apply get_news_list_returns in Hr as [-> _].
  apply get_news_list_returns in Hr' as [-> _].
  unfold zcard, zscore. rewrite save_news_answer.
  rewrite (saved_zset t') by
    (subst s; auto using undated_replay, zset_key_of_listing).
  rewrite (zset_at_undated t'), <-(zset_at_undated t) by
    (subst s; auto using undated_replay, index_zset_key_of).
  destruct (list_fields _ _ _); [|lia].
  destruct (to_double _); [|lia].
  rewrite map_size_insert.
  destruct (zset_at t (zset_key_of listing) s !! news_id); simpl; lia.
Qed.

(** X4. After a [save_news] that returned, [delete_news] called with
    another category than the record was saved under removes the
    projection, the detail and the entry of the global timeline, and
    leaves the entry of the timeline of the category of the record with
    the score the store holds for it, the double nearest to the score
    of the save: the list of that category keeps counting a record it
    can no longer show. *)
Theorem delete_other_category t now1 now2 news_id news_data category other
    publish_time :
  other ≠ category →
  (save_news now1 true news_id news_data category publish_time s).1
  = Ok true →
  let s2 := deleted_from now2 news_id other
              (saved now1 news_id news_data category publish_time s) in
  (∃ sc, to_double (or_int publish_time now1) = Some sc
         ∧ (Z.abs (or_int publish_time now1) ≤ 2 ^ 53 →
            sc = or_int publish_time now1)
         ∧ zscore t (CATEGORY_PREFIX +:+ category) news_id s2 = Some sc)
  ∧ zscore t TIMELINE_ZSET news_id s2 = None
  ∧ ¬ listed t s2 news_id
  ∧ Redis.get t (DETAIL_PREFIX +:+ news_id) s2 = None.
Proof.
  intros Hc [[fields Hf] [sc Hsc]]%save_news_returns s2. subst s2.
  unfold zscore, listed, hgetall, Redis.get, lookup_key.
  rewrite deleted_zset_other by done.
  rewrite deleted_zset by (subst s; auto using undated_saved, undated_replay).
  rewrite saved_zset by (subst s; auto using undated_replay).
  rewrite Hf, Hsc, lookup_insert_eq, lookup_delete_eq.
  unfold deleted_from. rewrite delete_news_up. cbn [snd].
  rewrite delete_projection, delete_detail.
  split_and!; [|done| |done].
  - exists sc. split_and!; [done| |done].
    intros Hex. apply to_double_exact in Hex. congruence.
  - intros H. by apply H.
Qed.

(** X5. After two [save_news] calls that returned, the second of a
    known identifier under another category: the entry of the old
    category is still in place, with the score the first call gave it,
    so that the list of the old category keeps the record, and shows it
    with the fields of the second call. *)
Theorem resave_other_category t now1 now2 news_id data1 data2 category other
    time1 time2 :
  other ≠ category →
  t ≤ now2 + EXPIRE_TIME * 1000 →
  (save_news now1 true news_id data1 category time1 s).1 = Ok true →
  (save_news now2 true news_id data2 other time2 s).1 = Ok true →
  let s2 := saved now2 news_id data2 other time2
              (saved now1 news_id data1 category time1 s) in
  ∃ sc1 sc2,
    to_double (or_int time1 now1) = Some sc1
    ∧ to_double (or_int time2 now2) = Some sc2
    ∧ zscore t (CATEGORY_PREFIX +:+ category) news_id s2 = Some sc1
    ∧ zscore t (CATEGORY_PREFIX +:+ other) news_id s2 = Some sc2
    ∧ zscore t TIMELINE_ZSET news_id s2 = Some sc2
    ∧ hgetall t (LIST_HASH_PREFIX +:+ news_id) s2 !! "category" = Some other
    ∧ hgetall t (LIST_HASH_PREFIX +:+ news_id) s2 !! "publish_time"
      = Some (str (or_int time2 now2)).
Proof.
  intros Hc Ht [[fields1 Hf1] [sc1 Hsc1]]%save_news_returns
    [[fields2 Hf2] [sc2 Hsc2]]%save_news_returns s2.
  exists sc1, sc2. subst s2. unfold zscore.
  rewrite saved_zset_other by done.
  rewrite !(saved_zset t now2)
    by (subst s; auto using undated_saved, undated_replay).
  rewrite saved_zset by (subst s; auto using undated_replay).
  rewrite Hf1, Hf2, Hsc1, Hsc2, !lookup_insert_eq.
  rewrite (saved_run now2 _ _ _ _ _ fields2) by done.
  rewrite (save_projection _ _ _ _ _ _ fields2) by done.
  apply list_fields_Some in Hf2 as (ti & au & pp & u & _ & _ & _ & _ & ->).
  cbn [foldl fst snd].
  split_and!; [done..| |]; by simplify_map_eq.
Qed.

(** X6. [delete_news] after [save_news] of the same identifier and
    category, whatever the save answered: both timelines are what they
    were before the two calls, less the identifier; the projection and
    the detail are gone; no other key but the registry has changed. *)
Theorem delete_after_save t now1 now2 news_id news_data category publish_time :
  let s2 := deleted_from now2 news_id category
              (saved now1 news_id news_data category publish_time s) in
  zset_at t TIMELINE_ZSET s2 = delete news_id (zset_at t TIMELINE_ZSET s)
  ∧ zset_at t (CATEGORY_PREFIX +:+ category) s2
    = delete news_id (zset_at t (CATEGORY_PREFIX +:+ category) s)
  ∧ at_key (LIST_HASH_PREFIX +:+ news_id) s2 = vacant
  ∧ at_key (DETAIL_PREFIX +:+ news_id) s2 = vacant
  ∧ ∀ k, k ≠ LIST_HASH_PREFIX +:+ news_id → k ≠ DETAIL_PREFIX +:+ news_id →
         k ≠ TIMELINE_ZSET → k ≠ CATEGORY_PREFIX +:+ category →
         k ≠ CATEGORIES_SET →
         at_key k s2 = at_key k s.
Proof.
  intros s2. subst s2.
  rewrite !(deleted_zset t)
    by (subst s; auto using undated_saved, undated_replay).
  rewrite !(saved_zset t) by (subst s; auto using undated_replay).
  assert (∀ z : gmap string Z,
            delete news_id
              match list_fields news_data category (or_int publish_time now1),
                    to_double (or_int publish_time now1) with
              | Some _, Some sc => <[news_id := sc]> z
              | _, _ => z
              end
            = delete news_id z) as Hz.
  { intros z. destruct (list_fields _ _ _); [|done].
    destruct (to_double _); [|done]. apply delete_insert_eq. }
  rewrite !Hz.
  unfold deleted_from. rewrite delete_news_up. cbn [snd].
  rewrite delete_projection, delete_detail.
  split_and!; [done..|]. intros k ?????.
  rewrite delete_frame by done. by apply saved_frame.
Qed.

End Sequences.

(** ** What [cleanup_old_news] reports *)

Section Accounting.
Variables (now days : Z) (s : db).

Let cutoff := now - days * 86400 * 1000.

Lemma size_map_filter {A} (P : string * A → Prop) `{!∀ x, Decision (P x)}
    (m : gmap string A) :
  size (filter P m) = length (filter P (map_to_list m)).
Proof.
  rewrite map_filter_alt, <-length_map_to_list, map_to_list_to_map; [done|].
  apply (sublist_NoDup _ (map_to_list m).*1); [apply NoDup_fst_map_to_list|].
  apply fmap_sublist, sublist_filter.
Qed.

Lemma old_ids_length :
  length (zrangebyscore now TIMELINE_ZSET 0 cutoff s)
  = size (filter (λ p : string * Z, in_score_range 0 cutoff p.2 = true)
            (zset_at now TIMELINE_ZSET s)).
Proof.
  unfold zrangebyscore. rewrite length_fmap, size_map_filter.
  apply Permutation_length, filter_Permutation, zrange_withscores_perm.
Qed.

Lemma size_score_ranges (z : gmap string Z) lo hi :
  size z
  = (size (filter (λ p : string * Z, in_score_range lo hi p.2 = true) z)
     + size (filter (λ p : string * Z, in_score_range lo hi p.2 = false) z))%nat.
Proof.
  rewrite <-(map_filter_union_complement
               (λ p : string * Z, in_score_range lo hi p.2 = true) z) at 1.
  rewrite map_size_disj_union by apply map_disjoint_filter_complement.
  f_equal. f_equal. apply map_filter_ext. intros i x _. cbn.
  by destruct (in_score_range lo hi x).
Qed.

(** X7. [cleanup_old_news] reports as [deleted] the number of entries
    the global timeline loses, and as [categories_cleaned] the size of
    the registry when it deleted something, zero otherwise. *)
Theorem cleanup_accounting :
  ∃ r,
    cleanup_old_news now true days s = (Ok r, swept now days s)
    ∧ deleted r
      = zcard now TIMELINE_ZSET s - zcard now TIMELINE_ZSET (swept now days s)
    ∧ categories_cleaned r
      = if deleted r =? 0 then 0
        else Z.of_nat (size (smembers now CATEGORIES_SET s)).
Proof.
  assert (Z.of_nat (length (zrangebyscore now TIMELINE_ZSET 0 cutoff s))
          = zcard now TIMELINE_ZSET s
            - zcard now TIMELINE_ZSET (swept now days s)) as Hlen.
  { unfold zcard. rewrite swept_timeline, old_ids_length.
    pose proof (size_score_ranges (zset_at now TIMELINE_ZSET s) 0 cutoff).
    fold cutoff. lia. }
  pose proof (cleanup_old_news_up now days s) as Hup. fold cutoff in Hup.
  destruct (zrangebyscore now TIMELINE_ZSET 0 cutoff s) as [|a l] eqn:Hold;
    eexists; (split_and!; [unfold swept; by rewrite Hup|by rewrite <-Hlen|]);
    [done|].
  cbn [deleted categories_cleaned length].
  reflexivity.
Qed.

(** X8. Sweeping again at the same clock, with as many days or more,
    finds nothing to delete and changes nothing. *)
Theorem cleanup_again days' :
  days ≤ days' →
  cleanup_old_news now true days' (swept now days s)
  = (Ok {| deleted := 0; categories_cleaned := 0 |}, swept now days s).
Proof.
  intros Hd. rewrite cleanup_old_news_up.
  assert (zrangebyscore now TIMELINE_ZSET 0 (now - days' * 86400 * 1000)
            (swept now days s) = []) as ->; [|done].
  apply elem_of_nil_inv. intros news_id.
  rewrite elem_of_old_ids. intros (sc & Hsc & Hr).
  unfold zscore in Hsc. rewrite swept_timeline in Hsc.
  apply map_lookup_filter_Some in Hsc as [_ Hout]. cbn in Hout.
  apply out_of_range in Hout.
  assert (bound (now - days' * 86400 * 1000)
          ≤ bound (now - days * 86400 * 1000)) by (apply bound_mono; lia).
  lia.
Qed.

End Accounting.

(** The theorem after a sweep that deleted the older of the two records
    of "tech". *)
Lemma cleanup_again_witness :
  0 ≤ 0
  ∧ (cleanup_old_news 1500 true 0 two_records).1
    = Ok {| deleted := 1; categories_cleaned := 1 |}
  ∧ cleanup_old_news 1500 true 0 (swept 1500 0 two_records)
    = (Ok {| deleted := 0; categories_cleaned := 0 |},
       swept 1500 0 two_records).
Proof.
  assert (0 ≤ 0) as H0 by lia.
  split; [exact H0|]. split; [vm_compute; reflexivity|].
  exact (cleanup_again 1500 0 two_records 0 H0).
Defined.

(** ** The registry of categories *)

Section Registry.

Lemma saved_registry now news_id news_data category publish_time s :
  smembers now CATEGORIES_SET
    (saved now news_id news_data category publish_time s)
  = match list_fields news_data category (or_int publish_time now) with
    | Some _ => {[category]} ∪ smembers now CATEGORIES_SET s
    | None => smembers now CATEGORIES_SET s
    end.
Proof.
  destruct (saved_cases now news_id news_data category publish_time s)
    as [[-> ->]|(fields & Hf & ->)]; [done|]. rewrite Hf.
  apply save_registry.
Qed.




End Registry.

(** A save that raised on its score has registered its category. *)
Example registered_by_failed_save :
  registered
    [(10, true, Save "a1" [("title", PStr "T1")] "tech" (Some (10 ^ 400)))]
    "tech" = true
  ∧ (get_categories 20 true
       (replay
          [(10, true,
            Save "a1" [("title", PStr "T1")] "tech" (Some (10 ^ 400)))]
          Redis.empty)).1 = Ok ["tech"].
Proof. vm_compute. split; reflexivity. Qed.

(** ** Projections and details go together *)

Section Paired.

(** The mapping of a save replaces the mapping of an earlier save. *)
Lemma fields_over news_data category score fields (h0 : gmap string string) :
  list_fields news_data category score = Some fields →
  (h0 = ∅ ∨ ∃ d0 c0 sc0 f0,
             list_fields d0 c0 sc0 = Some f0 ∧ h0 = list_to_map f0) →
  foldl (λ h p, <[p.1 := p.2]> h) h0 fields = list_to_map fields.
Proof.
  intros (ti & au & pp & u & _ & _ & _ & _ & ->)%list_fields_Some Hh.
  cbn [foldl fst snd list_to_map foldr uncurry].
  apply map_eq. intros i.
  destruct (decide (i = "url")) as [->|]; [by simplify_map_eq|].
  destruct (decide (i = "pic_path")) as [->|]; [by simplify_map_eq|].
  destruct (decide (i = "author")) as [->|]; [by simplify_map_eq|].
  destruct (decide (i = "publish_time")) as [->|]; [by simplify_map_eq|].
  destruct (decide (i = "category")) as [->|]; [by simplify_map_eq|].
  destruct (decide (i = "title")) as [->|]; [by simplify_map_eq|].
  rewrite !lookup_insert_ne by done.
  destruct Hh as [->|(d0 & c0 & sc0 & f0 & Hf0 & ->)]; [done|].
  apply list_fields_Some in Hf0
    as (ti0 & au0 & pp0 & u0 & _ & _ & _ & _ & ->).
  cbn [list_to_map foldr uncurry fst snd].
  by rewrite !lookup_insert_ne by done.
Qed.

Lemma fields_non_empty news_data category score fields :
  list_fields news_data category score = Some fields →
  (list_to_map fields : gmap string string) ≠ ∅.
Proof.
  intros (ti & au & pp & u & _ & _ & _ & _ & ->)%list_fields_Some.
  cbn [list_to_map foldr uncurry fst snd]. apply insert_non_empty.
Qed.

Lemma fields_publish_time news_data category score fields :
  list_fields news_data category score = Some fields →
  (list_to_map fields : gmap string string) !! "publish_time"
  = Some (str score).
Proof.
  intros (ti & au & pp & u & _ & _ & _ & _ & ->)%list_fields_Some.
  by simplify_map_eq.
Qed.

Lemma fields_category news_data category score fields :
  list_fields news_data category score = Some fields →
  (list_to_map fields : gmap string string) !! "category" = Some category.
Proof.
  intros (ti & au & pp & u & _ & _ & _ & _ & ->)%list_fields_Some.
  by simplify_map_eq.
Qed.

Lemma fields_title news_data category score fields :
  list_fields news_data category score = Some fields →
  (list_to_map fields : gmap string string) !! "title"
  = encode (Py.get news_data "title" (PStr "")).
Proof.
  intros (ti & au & pp & u & -> & _ & _ & _ & ->)%list_fields_Some.
  by simplify_map_eq.
Qed.

Lemma str_inj a b : str a = str b → a = b.
Proof.
  intros H. apply (f_equal Py.int) in H. rewrite !int_str in H. congruence.
Qed.

(** A mapping names its category and its score. *)
Lemma fields_inj d c sc f d' c' sc' f' :
  list_fields d c sc = Some f → list_fields d' c' sc' = Some f' →
  (list_to_map f : gmap string string) = list_to_map f' →
  c = c' ∧ sc = sc'.
Proof.
  intros Hf Hf' H. split.
  - apply (f_equal (λ h : gmap string string, h !! "category")) in H.
    cbv beta in H.
    rewrite (fields_category _ _ _ _ Hf), (fields_category _ _ _ _ Hf') in H.
    congruence.
  - apply (f_equal (λ h : gmap string string, h !! "publish_time")) in H.
    cbv beta in H.
    rewrite (fields_publish_time _ _ _ _ Hf),
      (fields_publish_time _ _ _ _ Hf') in H.
    apply str_inj. congruence.
Qed.

Lemma live_deadline_any t a h z m d :
  live t (Slot a h z m (Some d))
  = if is_due d t then vacant else Slot a h z m (Some d).
Proof. done. Qed.

(** The slot of the projection after a save that sent its block. *)
Lemma saved_projection_slot now news_id news_data category publish_time s
    fields :
  paired s →
  list_fields news_data category (or_int publish_time now) = Some fields →
  at_key (LIST_HASH_PREFIX +:+ news_id)
    (saved now news_id news_data category publish_time s)
  = Slot None (Some (list_to_map fields)) None None
      (Some (deadline now EXPIRE_TIME)).
Proof.
  intros Hs Hf. rewrite (saved_run _ _ _ _ _ _ fields) by done.
  pose proof (save_at_projection now news_id news_data category
                publish_time s fields Hf) as Hp. cbv zeta in Hp.
  rewrite Hp. clear Hp.
  destruct (Hs news_id) as [[-> _]|(d0 & c0 & sc0 & f0 & dl & Hf0 & -> & _)].
  - cbn. by rewrite (fields_over _ _ _ _ _ Hf) by auto.
  - rewrite live_deadline_any.
    destruct (is_due dl now); cbn; rewrite (fields_over _ _ _ _ _ Hf);
      eauto 10.
Qed.

Lemma saved_detail_slot now news_id news_data category publish_time s fields :
  list_fields news_data category (or_int publish_time now) = Some fields →
  at_key (DETAIL_PREFIX +:+ news_id)
    (saved now news_id news_data category publish_time s)
  = Slot (Some (json_dumps news_data)) None None None
      (Some (deadline now EXPIRE_TIME)).
Proof.
  intros Hf. rewrite (saved_run _ _ _ _ _ _ fields) by done.
  apply save_at_detail.
Qed.

Lemma paired_empty : paired Redis.empty.
Proof. intros news_id. left. by rewrite !at_key_empty. Qed.

Lemma paired_saved now news_id news_data category publish_time s :
  paired s → paired (saved now news_id news_data category publish_time s).
Proof.
  intros Hs id.
  destruct (list_fields news_data category (or_int publish_time now))
    as [fields|] eqn:Hf; [|by rewrite saved_refused].
  destruct (decide (id = news_id)) as [->|Hid].
  - right. exists news_data, category, (or_int publish_time now), fields,
      (deadline now EXPIRE_TIME).
    split_and!; [done| |].
    + by apply saved_projection_slot.
    + by eapply saved_detail_slot.
  - rewrite !saved_frame by
      (first [key_neq|by intros ?%list_key_inj|by intros ?%detail_key_inj]).
    apply Hs.
Qed.

Lemma paired_deleted now news_id category s :
  paired s → paired (deleted_from now news_id category s).
Proof.
  intros Hs id. unfold deleted_from. rewrite delete_news_up. cbn [snd].
  destruct (decide (id = news_id)) as [->|Hid].
  - left. by rewrite delete_projection, delete_detail.
  - rewrite !delete_frame by
      (first [key_neq|by intros ?%list_key_inj|by intros ?%detail_key_inj]).
    apply Hs.
Qed.

Lemma paired_swept now days s : paired s → paired (swept now days s).
Proof.
  intros Hs id.
  destruct (decide (id ∈ zrangebyscore now TIMELINE_ZSET 0
                           (now - days * 86400 * 1000) s)) as [Hold|Hyoung].
  - left. by apply swept_old.
  - destruct (swept_young now days s id Hyoung) as [-> ->]. apply Hs.
Qed.

Lemma paired_serve now up q s : paired s → paired (serve now up q s).
Proof.
  intros Hs. destruct up; cycle 1.
  { destruct q; cbn [serve];
      by rewrite ?save_news_down, ?delete_news_down, ?cleanup_old_news_down. }
  destruct q.
  - rewrite <-saved_serve. by apply paired_saved.
  - rewrite <-deleted_serve. by apply paired_deleted.
  - rewrite <-swept_serve. by apply paired_swept.
Qed.

Lemma paired_replay log : paired (replay log Redis.empty).
Proof.
  induction log as [|e log IH] using rev_ind; [apply paired_empty|].
  rewrite replay_snoc. by apply paired_serve.
Qed.

(** What a reader finds at clock [t] under the two keys of an
    identifier. *)
Lemma paired_read t s news_id :
  paired s →
  (hgetall t (LIST_HASH_PREFIX +:+ news_id) s = ∅
   ∧ Redis.get t (DETAIL_PREFIX +:+ news_id) s = None)
  ∨ ∃ news_data category score fields,
      list_fields news_data category score = Some fields
      ∧ hgetall t (LIST_HASH_PREFIX +:+ news_id) s = list_to_map fields
      ∧ s_hash (at_key (LIST_HASH_PREFIX +:+ news_id) s)
        = Some (list_to_map fields)
      ∧ Redis.get t (DETAIL_PREFIX +:+ news_id) s
        = Some (json_dumps news_data).
Proof.
  intros Hs. unfold hgetall, Redis.get, lookup_key.
  destruct (Hs news_id)
    as [[-> ->]|(d0 & c0 & sc0 & f0 & dl & Hf0 & -> & ->)]; [by left|].
  rewrite !live_deadline_any. destruct (is_due dl t); [by left|].
  right. by exists d0, c0, sc0, f0.
Qed.

(** X10. On a store built by a log of calls, at every clock reading,
    the projection of an identifier is readable exactly when its detail
    is: the two keys are written, expire and are deleted together. *)
Theorem projection_iff_detail log t news_id :
  listed t (replay log Redis.empty) news_id
  ↔ is_Some (Redis.get t (DETAIL_PREFIX +:+ news_id) (replay log Redis.empty)).
Proof.
  unfold listed.
  destruct (paired_read t _ news_id (paired_replay log))
    as [[-> ->]|(d0 & c0 & sc0 & f0 & Hf0 & -> & _ & ->)].
  - split; [done|]. by intros [? ?].
  - split; [by eexists|]. intros _. by eapply fields_non_empty.
Qed.

End Paired.

(** ** Projections and timelines *)

Section Ranked.

Lemma ranked_empty : ranked Redis.empty.
Proof. intros news_id d c sc f x _. by rewrite at_key_empty. Qed.

Lemma index_zset_undated t s k :
  undated s → index_key k → zset_of (at_key k s) = zset_at t k s.
Proof. intros Hu Hk. by rewrite zset_at_undated. Qed.

Lemma ranked_saved now news_id news_data category publish_time s :
  undated s → paired s → ranked s →
  ranked (saved now news_id news_data category publish_time s).
Proof.
  intros Hu Hp Hr.
  destruct (list_fields news_data category (or_int publish_time now))
    as [fields|] eqn:Hf; [|by rewrite saved_refused].
  intros id d c score f sc Hfd Hh Hsc.
  assert (undated (saved now news_id news_data category publish_time s)) as Hu'
    by auto using undated_saved.
  rewrite !(index_zset_undated now)
    by auto using index_timeline, index_category.
  destruct (decide (id = news_id)) as [->|Hid].
  - rewrite (saved_projection_slot _ _ _ _ _ _ fields) in Hh by done.
    cbn [s_hash] in Hh. apply (inj Some) in Hh.
    destruct (fields_inj _ _ _ _ _ _ _ _ Hf Hfd Hh) as [<- <-].
    rewrite !saved_zset by auto. rewrite Hf, Hsc.
    by rewrite !lookup_insert_eq.
  - rewrite saved_frame in Hh by
      (first [key_neq|by intros ?%list_key_inj|by intros ?%detail_key_inj]).
    destruct (Hr id d c score f sc Hfd Hh Hsc) as [Hg Hc].
    rewrite !(index_zset_undated now) in Hg, Hc
      by auto using index_timeline, index_category.
    split.
    + rewrite saved_zset by auto. rewrite Hf.
      destruct (to_double (or_int publish_time now)); [|done].
      by rewrite lookup_insert_ne.
    + destruct (decide (c = category)) as [->|Hcat].
      * rewrite saved_zset by auto. rewrite Hf.
        destruct (to_double (or_int publish_time now)); [|done].
        by rewrite lookup_insert_ne.
      * by rewrite saved_zset_other.
Qed.

Lemma ranked_deleted now news_id category s :
  undated s → ranked s → ranked (deleted_from now news_id category s).
Proof.
  intros Hu Hr id d c score f sc Hfd Hh Hsc.
  assert (undated (deleted_from now news_id category s)) as Hu'
    by auto using undated_deleted.
  rewrite !(index_zset_undated now)
    by auto using index_timeline, index_category.
  destruct (decide (id = news_id)) as [->|Hid].
  - unfold deleted_from in Hh. rewrite delete_news_up in Hh. cbn [snd] in Hh.
    by rewrite delete_projection in Hh.
  - unfold deleted_from in Hh. rewrite delete_news_up in Hh. cbn [snd] in Hh.
    rewrite delete_frame in Hh by
      (first [key_neq|by intros ?%list_key_inj|by intros ?%detail_key_inj]).
    destruct (Hr id d c score f sc Hfd Hh Hsc) as [Hg Hc].
    rewrite !(index_zset_undated now) in Hg, Hc
      by auto using index_timeline, index_category.
    split.
    + rewrite deleted_zset by auto. by rewrite lookup_delete_ne.
    + destruct (decide (c = category)) as [->|Hcat].
      * rewrite deleted_zset by auto. by rewrite lookup_delete_ne.
      * by rewrite deleted_zset_other.
Qed.

Lemma ranked_swept now days s :
  undated s → ranked s → ranked (swept now days s).
Proof.
  intros Hu Hr id d c score f sc Hfd Hh Hsc.
  assert (undated (swept now days s)) as Hu' by auto using undated_swept.
  rewrite !(index_zset_undated now)
    by auto using index_timeline, index_category.
  destruct (decide (id ∈ zrangebyscore now TIMELINE_ZSET 0
                           (now - days * 86400 * 1000) s)) as [Hold|Hyoung].
  { destruct (swept_old now days s id Hold) as [Hv _].
    by rewrite Hv in Hh. }
  destruct (swept_young now days s id Hyoung) as [Hsame _].
  rewrite Hsame in Hh.
  destruct (Hr id d c score f sc Hfd Hh Hsc) as [Hg Hc].
  rewrite !(index_zset_undated now) in Hg, Hc
    by auto using index_timeline, index_category.
  assert (in_score_range 0 (now - days * 86400 * 1000) sc = false) as Hout.
  { apply out_of_range.
    destruct (decide (sc < 0 ∨ bound (now - days * 86400 * 1000) < sc))
      as [|Hin]; [done|].
    exfalso. apply Hyoung, elem_of_old_ids. exists sc. split; [done|lia]. }
  split.
  - rewrite swept_timeline. by apply map_lookup_filter_Some.
  - destruct (swept_category now days s c) as [->| ->]; [done|].
    by apply map_lookup_filter_Some.
Qed.

Lemma ranked_replay log : ranked (replay log Redis.empty).
Proof.
  induction log as [|e log IH] using rev_ind; [apply ranked_empty|].
  rewrite replay_snoc. destruct e as [[now up] q]. cbn [fst snd].
  destruct up; cycle 1.
  { destruct q; cbn [serve];
      by rewrite ?save_news_down, ?delete_news_down, ?cleanup_old_news_down. }
  destruct q.
  - rewrite <-saved_serve.
    apply ranked_saved; auto using undated_replay, paired_replay.
  - rewrite <-deleted_serve. apply ranked_deleted; auto using undated_replay.
  - rewrite <-swept_serve. apply ranked_swept; auto using undated_replay.
Qed.

End Ranked.

(** ** What a page shows *)

Lemma collect_items now s ids items :
  collect (zip ids (hash_reply now s <$> ids)) = Ok items →
  Forall2 (λ item news_id,
             listed now s news_id
             ∧ item_of news_id (hgetall now (LIST_HASH_PREFIX +:+ news_id) s)
               = Ok item)
    items (filter (listed now s) ids).
Proof.
  revert items. induction ids as [|a ids IH]; intros items Hc.
  - injection Hc as <-. constructor.
  - cbn [fmap list_fmap zip zip_with collect] in Hc.
    unfold hash_reply at 1 in Hc. cbn [reply_hash] in Hc.
    rewrite filter_cons. unfold listed at 1.
    destruct (decide (hgetall now (LIST_HASH_PREFIX +:+ a) s = ∅)) as [He|He].
    + rewrite decide_False by (intros H; by apply H). by apply IH.
    + rewrite decide_True by done.
      destruct (item_of a _) as [item|] eqn:Hi; [|done].
      destruct (collect _) as [items'|]; [|done].
      injection Hc as <-. constructor; [done|]. by apply IH.
Qed.

Lemma filter_all {A} (P : A → Prop) `{!∀ x, Decision (P x)} (l : list A) :
  Forall P l → filter P l = l.
Proof.
  induction 1 as [|a l Ha _ IH]; [done|].
  rewrite filter_cons_True by done. by f_equal.
Qed.

(** With integer [publish_time] fields, a list call raises only the
    error of the store on a window outside the 64-bit integers. *)
Lemma get_news_list_raises now s category page page_size e :
  numeric now s →
  (get_news_list now true category page page_size s).1 = Raise e →
  e = ResponseError ∧ window_ok page page_size = false.
Proof.
  intros Hnum He. destruct (window_ok page page_size) eqn:Hw.
  - destruct (get_news_list_total now s category page page_size Hnum Hw)
      as [r Hr].
    by rewrite Hr in He.
  - rewrite get_news_list_up in He. cbv zeta in He. rewrite Hw in He.
    cbn [fst] in He. destruct (_ =? 0); [done|]. by injection He as <-.
Qed.

Section Shown.
Variable log : list (Z * bool * request).
Variable now : Z.

Let s := replay log Redis.empty.

Lemma item_of_fields news_id news_data category score fields :
  list_fields news_data category score = Some fields →
  item_of news_id (list_to_map fields)
  = Ok (<["id" := PStr news_id]>
          (<["publish_time" := PInt score]> (PStr <$> list_to_map fields))).
Proof.
  intros Hf. unfold item_of.
  by rewrite (fields_publish_time _ _ _ _ Hf), int_str.
Qed.

(** An item of a page, as made from one [save_news] call. *)
Lemma shown_item item news_id :
  listed now s news_id →
  item_of news_id (hgetall now (LIST_HASH_PREFIX +:+ news_id) s) = Ok item →
  ∃ news_data category score fields,
    list_fields news_data category score = Some fields
    ∧ item = <["id" := PStr news_id]>
               (<["publish_time" := PInt score]>
                  (PStr <$> list_to_map fields))
    ∧ Redis.get now (DETAIL_PREFIX +:+ news_id) s = Some (json_dumps news_data)
    ∧ ∀ sc, to_double score = Some sc →
            zscore now TIMELINE_ZSET news_id s = Some sc
            ∧ zscore now (CATEGORY_PREFIX +:+ category) news_id s = Some sc.
Proof.
  intros Hl Hi. unfold listed in Hl.
  destruct (paired_read now s news_id (paired_replay log))
    as [[He _]|(d0 & c0 & sc0 & f0 & Hf0 & Hp & Hh & Hd)]; [done|].
  rewrite Hp, (item_of_fields _ _ _ _ _ Hf0) in Hi. injection Hi as <-.
  exists d0, c0, sc0, f0. split_and!; [done..|].
  intros sc Hsc. unfold zscore.
  rewrite !zset_at_undated
    by (subst s; auto using undated_replay, index_timeline, index_category).
  by apply (ranked_replay log news_id d0 c0 sc0 f0).
Qed.

(** X11. On a store built by a log of calls, every item of every page
    is made from one [save_news] call whose payload is readable under
    the detail key of the item: its fields are those [save_news] copied
    from that payload, and the score of its entry in the global
    timeline is the double nearest to the [publish_time] it shows, when
    there is one, and so that [publish_time] itself when its magnitude
    is at most [2^53]. A call that returns no page raises the error of
    the store on a window outside the 64-bit integers. *)
Theorem page_items_have_details category page page_size :
  match (get_news_list now true category page page_size s).1 with
  | Ok r =>
      Forall (λ item,
        ∃ news_id news_data c score fields,
          list_fields news_data c score = Some fields
          ∧ item = <["id" := PStr news_id]>
                     (<["publish_time" := PInt score]>
                        (PStr <$> list_to_map fields))
          ∧ Redis.get now (DETAIL_PREFIX +:+ news_id) s
            = Some (json_dumps news_data)
          ∧ (∀ sc, to_double score = Some sc →
                   zscore now TIMELINE_ZSET news_id s = Some sc)
          ∧ (Z.abs score ≤ 2 ^ 53 →
             zscore now TIMELINE_ZSET news_id s = Some score))
        (items r)
  | Raise e => e = ResponseError ∧ window_ok page page_size = false
  end.
Proof.
  destruct (get_news_list now true category page page_size s).1 as [r|e]
    eqn:Hr; cycle 1.
  { eapply get_news_list_raises; [apply replay_numeric|done]. }
  apply get_news_list_returns in Hr
    as (_ & _ & _ & [(_ & -> & _)|(_ & _ & Hc & _)]); [constructor|].
  apply collect_items in Hc. clear -Hc.
  induction Hc as [|item news_id items ids [Hl Hi] _ IH]; constructor; [|done].
  destruct (shown_item item news_id Hl Hi) as (d0 & c0 & sc0 & f0 & ? & ? & ? & Hz).
  exists news_id, d0, c0, sc0, f0. split_and!; [done..| |].
  - intros sc Hsc. by apply Hz.
  - intros Hex. by apply Hz, to_double_exact.
Qed.

Lemma lrange_sublist {A} (l : list A) start stop :
  lrange start stop l `sublist_of` l.
Proof.
  unfold lrange. destruct (_ || _); [apply sublist_nil_l|].
  etrans; [apply sublist_take|apply sublist_drop].
Qed.

Lemma StronglySorted_sublist {A} (R : relation A) (l k : list A) :
  l `sublist_of` k → StronglySorted R k → StronglySorted R l.
Proof.
  induction 1 as [|x l k Hlk IH|x l k Hlk IH]; intros Hk; [done|..].
  - apply StronglySorted_inv in Hk as [Hk Hx].
    constructor; [by apply IH|].
    rewrite Forall_forall in Hx |- *. intros y Hy. apply Hx.
    by apply (elem_of_sublist l).
  - apply StronglySorted_inv in Hk as [Hk _]. by apply IH.
Qed.

(** The scores of the members, in the order of [zrev_members]. *)
Lemma zrev_members_scores (z : gmap string Z) :
  (λ m, default 0 (z !! m)) <$> zrev_members z
  = (reverse (zrange_withscores z)).*2.
Proof.
  unfold zrev_members. rewrite <-list_fmap_compose.
  apply Forall_fmap_ext_1, Forall_forall. intros [m sc] Hm. cbn.
  rewrite elem_of_reverse, elem_of_zrange_withscores in Hm. by rewrite Hm.
Qed.

(** X12. On a store built by a log of calls, every item of a page of
    the global list shows an integer [publish_time], and when all the
    values a page shows are at most [2^53] in magnitude, so that the
    store holds them as they are, its items come in descending order of
    the [publish_time] they show. A call that returns no page raises
    the error of the store on a window outside the 64-bit integers. *)
Theorem global_page_sorted page page_size :
  match (get_news_list now true None page page_size s).1 with
  | Ok r =>
      ∃ scores,
        item_publish_time <$> items r = (λ n, Some (PInt n)) <$> scores
        ∧ (Forall (λ n, Z.abs n ≤ 2 ^ 53) scores →
           StronglySorted Z.ge scores)
  | Raise e => e = ResponseError ∧ window_ok page page_size = false
  end.
Proof.
  destruct (get_news_list now true None page page_size s).1 as [r|e]
    eqn:Hr; cycle 1.
  { eapply get_news_list_raises; [apply replay_numeric|done]. }
  apply get_news_list_returns in Hr
    as (_ & _ & _ & [(_ & Hi & _)|(_ & _ & Hc & _)]).
  { exists []. rewrite Hi. split; [done|constructor]. }
  apply collect_items in Hc.
  set (z := zset_at now TIMELINE_ZSET s).
  set (ids := zrev_window now (zset_key_of None) ((page - 1) * page_size)
                ((page - 1) * page_size + page_size - 1) s) in Hc.
  assert (∃ scores,
            item_publish_time <$> items r = (λ n, Some (PInt n)) <$> scores
            ∧ (Forall (λ n, Z.abs n ≤ 2 ^ 53) scores →
               scores = (λ m, default 0 (z !! m))
                        <$> filter (listed now s) ids))
    as (scores & Hshown & Hexact).
  { clear -Hc. induction Hc as [|item news_id items0 ids0 [Hl Hi] _ IH].
    { by exists []. }
    destruct IH as (scores & IH1 & IH2).
    destruct (shown_item item news_id Hl Hi)
      as (d0 & c0 & sc0 & f0 & _ & -> & _ & Hz).
    exists (sc0 :: scores). split.
    - cbn [fmap list_fmap]. f_equal; [|exact IH1].
      unfold item_publish_time. by simplify_map_eq.
    - intros [Hex Hall]%Forall_cons. cbn [fmap list_fmap].
      destruct (Hz sc0 (to_double_exact sc0 Hex)) as [Hg _].
      unfold zscore in Hg. fold z in Hg. rewrite Hg. cbn [default].
      f_equal. by apply IH2. }
  exists scores. split; [done|]. intros Hall. rewrite (Hexact Hall).
  apply (StronglySorted_sublist _ _ ((λ m, default 0 (z !! m)) <$> zrev_members z)).
  - apply fmap_sublist. etrans; [apply sublist_filter|]. apply lrange_sublist.
  - rewrite zrev_members_scores. apply zrev_scores_sorted.
Qed.

End Shown.

(** Two records whose scores the store cannot tell apart are ranked by
    their identifiers, not by the [publish_time] they show. *)
Example rounded_scores_rank_by_id :
  let s := saved 20 "a2" [("title", PStr "T2")] "tech" (Some (2 ^ 53))
             (saved 10 "a1" [("title", PStr "T1")] "tech" (Some (2 ^ 53 + 1))
                Redis.empty) in
  zscore 30 TIMELINE_ZSET "a1" s = Some (2 ^ 53)
  ∧ zscore 30 TIMELINE_ZSET "a2" s = Some (2 ^ 53)
  ∧ zrev_window 30 TIMELINE_ZSET 0 1 s = ["a2"; "a1"]
  ∧ hgetall 30 (LIST_HASH_PREFIX +:+ "a1") s !! "publish_time"
    = Some "9007199254740993"
  ∧ hgetall 30 (LIST_HASH_PREFIX +:+ "a2") s !! "publish_time"
    = Some "9007199254740992".
Proof. vm_compute. split_and!; reflexivity. Qed.

(** ** Paging through a list *)

Section Paging.
Variables (now : Z) (s : db) (category : option string) (page_size : Z).
Hypothesis Hnum : numeric now s.
Hypothesis Hsize : 1 ≤ page_size.

Let z := zset_at now (zset_key_of category) s.

Lemma shown_ids_page page :
  1 ≤ page → page * page_size ≤ 2 ^ 63 →
  shown_ids now s category page page_size
  = Ok ((λ a, Some (PStr a))
        <$> filter (listed now s)
              (take (Z.to_nat page_size)
                 (drop (Z.to_nat ((page - 1) * page_size))
                    (zrev_members z)))).
Proof.
  intros Hpage Hwin. unfold shown_ids, zrev_members.
  rewrite <-fmap_drop, <-fmap_take.
  pose proof (page_ids now s category page page_size Hpage Hsize) as Hids.
  cbv zeta in Hids. fold z in Hids. rewrite <-Hids.
  destruct (get_news_list_total now s category page page_size Hnum) as [r Hr];
    [by apply window_ok_valid|].
  rewrite Hr. cbn [fst]. f_equal.
  apply (f_equal fst) in Hr. cbn [fst] in Hr.
  apply get_news_list_returns in Hr
    as (Htot & _ & _ & [([Ht|Ht] & -> & _)|(_ & _ & Hc & _)]).
  - rewrite Htot in Ht. by rewrite zrev_window_empty.
  - by rewrite Ht.
  - destruct (collect_listed now s
                (zrev_window now (zset_key_of category) ((page - 1) * page_size)
                   ((page - 1) * page_size + page_size - 1) s) Hnum)
      as (its & Hc' & Hits).
    rewrite Hc in Hc'. by injection Hc' as ->.
Qed.

Lemma shown_upto_take k :
  Z.of_nat k * page_size ≤ 2 ^ 63 →
  shown_upto now s category page_size k
  = Ok ((λ a, Some (PStr a))
        <$> filter (listed now s)
              (take (k * Z.to_nat page_size) (zrev_members z))).
Proof.
  induction k as [|k IH]; [done|]. intros Hwin.
  cbn [shown_upto]. rewrite IH by nia.
  rewrite shown_ids_page by lia.
  rewrite <-fmap_app, <-filter_app.
  replace (Z.to_nat ((Z.of_nat (S k) - 1) * page_size))
    with (k * Z.to_nat page_size)%nat by lia.
  rewrite take_take_drop. do 4 f_equal. lia.
Qed.

(** X13. With integer [publish_time] fields, [page_size >= 1] and
    [k * page_size <= 2^63], the calls for the pages [1..k] of a list
    all return, and the pages, one after the other, show the
    identifiers of the first [k * page_size] ranks of the timeline
    whose projection is readable, in rank order, none twice and none
    left out: the windows of consecutive pages neither overlap nor
    leave a gap. *)
Theorem pages_cover_ranks k :
  Z.of_nat k * page_size ≤ 2 ^ 63 →
  ∃ ids,
    shown_upto now s category page_size k = Ok ids
    ∧ ids = (λ a, Some (PStr a))
            <$> filter (listed now s)
                  (take (k * Z.to_nat page_size) (zrev_members z))
    ∧ NoDup ids
    ∧ (size z ≤ k * Z.to_nat page_size →
       ∀ news_id,
         Some (PStr news_id) ∈ ids
         ↔ is_Some (z !! news_id) ∧ listed now s news_id)%nat.
Proof.
  intros Hwin. eexists. split; [by apply shown_upto_take|].
  split_and!; [done| |].
  - apply NoDup_fmap_2; [intros a b ?; by simplify_eq|].
    apply NoDup_filter. eapply sublist_NoDup; [apply zrev_members_NoDup|].
    apply sublist_take.
  - intros Hk news_id. rewrite take_ge by (rewrite zrev_members_length; lia).
    rewrite list_elem_of_fmap. split.
    + intros (a & Ha & Hin). simplify_eq.
      apply list_elem_of_filter in Hin as [Hl Hin].
      by apply elem_of_zrev_members in Hin.
    + intros [Hz Hl]. exists news_id. split; [done|].
      apply list_elem_of_filter. split; [done|].
      by apply elem_of_zrev_members.
Qed.

End Paging.

(** The theorem on the two pages of size 1 of "tech". *)
Lemma pages_cover_ranks_witness :
  numeric 30 two_records ∧ 1 ≤ 1 ∧ Z.of_nat 2 * 1 ≤ 2 ^ 63
  ∧ shown_upto 30 two_records (Some "tech") 1 2
    = Ok [Some (PStr "a2"); Some (PStr "a1")].
Proof.
  assert (numeric 30 two_records) as Hnum
    by apply numeric_saved, numeric_saved, numeric_empty.
  assert (1 ≤ 1) as H1 by lia.
  assert (Z.of_nat 2 * 1 ≤ 2 ^ 63) as Hw by (vm_compute; discriminate).
  split; [exact Hnum|]. split; [exact H1|]. split; [exact Hw|].
  destruct (pages_cover_ranks 30 two_records (Some "tech") 1 Hnum H1 2 Hw)
    as (ids & -> & -> & _).
  vm_compute. reflexivity.
Defined.

Section LastPage.
Variables (now : Z) (s : db) (category : option string) (page page_size : Z).

Let start := (page - 1) * page_size.
Let news_ids :=
  zrev_window now (zset_key_of category) start (start + page_size - 1) s.

(** X14. For [page >= 1] and [page_size >= 1], when every projection
    of the window is readable, [has_next] says exactly whether records
    rank behind the page: it is [page * page_size < total]. *)
Theorem has_next_exact r :
  1 ≤ page → 1 ≤ page_size →
  Forall (listed now s) news_ids →
  (get_news_list now true category page page_size s).1 = Ok r →
  has_next r = (page * page_size <? total r).
Proof.
  intros Hpage Hsize Hall Hr.
  pose proof (page_window_length now s category page page_size Hpage Hsize)
    as Hlen.
  pose proof (page_ids now s category page page_size Hpage Hsize) as Hids.
  cbv zeta in Hlen, Hids. rewrite <-(length_fmap fst), <-Hids in Hlen.
  fold start in Hlen. fold news_ids in Hlen.
  apply get_news_list_returns in Hr
    as (Htot & _ & _ & [(Ht & _ & ->)|(_ & _ & Hc & ->)]).
  - symmetry. apply Z.ltb_ge. rewrite Htot. unfold zcard.
    destruct Ht as [Ht|Ht].
    + rewrite Htot in Ht. unfold zcard in Ht. nia.
    + fold start in Ht. fold news_ids in Ht. rewrite Ht in Hlen.
      cbn [length] in Hlen. subst start. nia.
  - apply collect_items in Hc. apply Forall2_length in Hc.
    fold start in Hc. fold news_ids in Hc.
    rewrite filter_all in Hc by done. rewrite Hc, Hlen, Htot.
    unfold zcard. fold start. clearbody news_ids.
    destruct (Z.ltb_spec (page * page_size)
                (Z.of_nat (size (zset_at now (zset_key_of category) s))));
      [apply Z.ltb_lt|apply Z.ltb_ge]; subst start; nia.
Qed.

End LastPage.

Lemma has_next_exact_witness :
  let r := {| items := [titled_item "a2" "T2" "tech" 2000]; total := 2;
              page := 1; page_size := 1; has_next := true |} in
  (get_news_list 30 true (Some "tech") 1 1 two_records).1 = Ok r
  ∧ has_next r = (1 * 1 <? total r).
Proof.
  intros r.
  assert ((get_news_list 30 true (Some "tech") 1 1 two_records).1 = Ok r)
    as Hr by (vm_compute; reflexivity).
  assert (1 ≤ 1) as H1 by lia.
  assert (Forall (listed 30 two_records)
            (zrev_window 30 (zset_key_of (Some "tech")) ((1 - 1) * 1)
               ((1 - 1) * 1 + 1 - 1) two_records)) as Hall.
  { assert (zrev_window 30 (zset_key_of (Some "tech")) ((1 - 1) * 1)
               ((1 - 1) * 1 + 1 - 1) two_records = ["a2"]) as ->
      by (vm_compute; reflexivity).
    constructor; [|constructor]. unfold listed.
    assert (hgetall 30 (LIST_HASH_PREFIX +:+ "a2") two_records
            = titled_fields "T2" "tech" 2000) as ->
      by (vm_compute; reflexivity).
    discriminate. }
  split; [exact Hr|].
  exact (has_next_exact 30 two_records (Some "tech") 1 1 r H1 H1 Hall Hr).
Defined.

(** * The callers of the store *)

(** ** Pieces of a string *)

Section Pieces.
Import PyStr.
Implicit Types (sep a : ascii) (s u v : string).

Lemma append_nil_l v : EmptyString +:+ v = v.
Proof. done. Qed.

Lemma append_cons a u v : String a u +:+ v = String a (u +:+ v).
Proof. done. Qed.

Lemma split_not_nil sep s : split sep s ≠ [].
Proof.
  destruct s as [|a s]; [done|]. cbn [split].
  destruct (Ascii.eqb a sep); [done|]. by destruct (split sep s).
Qed.

Lemma split_cons sep a s :
  split sep (String a s)
  = if Ascii.eqb a sep then EmptyString :: split sep s
    else String a (item_first (split sep s)) :: tail (split sep s).
Proof.
  cbn [split]. destruct (Ascii.eqb a sep); [done|].
  pose proof (split_not_nil sep s). by destruct (split sep s).
Qed.

Lemma split_app sep u v :
  split sep (u +:+ String sep v) = split sep u ++ split sep v.
Proof.
  induction u as [|a u IH].
  - rewrite append_nil_l, split_cons, Ascii.eqb_refl. done.
  - rewrite append_cons, !split_cons, IH.
    destruct (Ascii.eqb a sep); [done|].
    pose proof (split_not_nil sep u). by destruct (split sep u).
Qed.

Lemma split_without sep s : contains sep s = false → split sep s = [s].
Proof.
  induction s as [|a s IH]; [done|]. cbn [contains].
  intros [Ha Hs]%orb_false_iff. rewrite split_cons, Ha, IH by done. done.
Qed.

Lemma item_first_app (l k : list string) :
  l ≠ [] → item_first (l ++ k) = item_first l.
Proof. by destruct l. Qed.

Lemma item_last_app (l k : list string) :
  k ≠ [] → item_last (l ++ k) = item_last k.
Proof.
  intros Hk. unfold item_last. induction l as [|x l IH]; [done|].
  cbn [app List.last]. rewrite IH.
  destruct (l ++ k) eqn:Hlk; [|done]. by apply app_eq_nil in Hlk as [_ ->].
Qed.

Lemma item_first_split sep a s :
  item_first (split sep (String a s))
  = if Ascii.eqb a sep then EmptyString
    else String a (item_first (split sep s)).
Proof. rewrite split_cons. by destruct (Ascii.eqb a sep). Qed.

Lemma item_first_without sep s :
  contains sep (item_first (split sep s)) = false.
Proof.
  induction s as [|a s IH]; [done|]. rewrite item_first_split.
  destruct (Ascii.eqb a sep) eqn:Ha; [done|]. cbn [contains]. by rewrite Ha, IH.
Qed.

Lemma item_last_split sep a s :
  item_last (split sep (String a s))
  = if Ascii.eqb a sep then item_last (split sep s)
    else if contains sep s then item_last (split sep s)
    else String a s.
Proof.
  rewrite split_cons. pose proof (split_not_nil sep s) as Hs.
  destruct (Ascii.eqb a sep).
  - unfold item_last. cbn [List.last]. by destruct (split sep s).
  - destruct (contains sep s) eqn:Hc.
    + unfold item_last, item_first. destruct (split sep s) as [|p [|q ps]] eqn:Hsp;
        [done| |done].
      exfalso. clear Hs. revert p Hsp Hc. induction s as [|b s IH]; [done|].
      intros p. rewrite split_cons. cbn [contains].
      destruct (Ascii.eqb b sep); [|cbn [orb]].
      * intros [= _ Hnil]. by apply split_not_nil in Hnil.
      * intros [= _ Ht] Hc. destruct (split sep s) as [|p' [|q' ps']] eqn:Hsp';
          [by apply split_not_nil in Hsp'| |done].
        by apply (IH p').
    + by rewrite split_without.
Qed.

Lemma item_last_without sep s :
  contains sep (item_last (split sep s)) = false.
Proof.
  induction s as [|a s IH]; [done|]. rewrite item_last_split.
  destruct (Ascii.eqb a sep) eqn:Ha; [done|].
  destruct (contains sep s) eqn:Hc; [done|]. cbn [contains]. by rewrite Ha, Hc.
Qed.

Lemma contains_app a u v :
  contains a (u +:+ v) = contains a u || contains a v.
Proof.
  induction u as [|b u IH]; [done|]. rewrite append_cons. cbn [contains].
  by rewrite IH, orb_assoc.
Qed.

Lemma append_length u v :
  String.length (u +:+ v) = (String.length u + String.length v)%nat.
Proof.
  induction u as [|b u IH]; [done|]. rewrite append_cons. cbn [String.length].
  by rewrite IH.
Qed.

Lemma append_inj u v v' : u +:+ v = u +:+ v' → v = v'.
Proof.
  induction u as [|b u IH]; [done|]. rewrite !append_cons.
  intros [= ?]. by apply IH.
Qed.

End Pieces.

(** ** The identifier the crawler derives *)

Section CrawlerIds.
Import PyStr.

Lemma clean_url_cut url c rest :
  c = "?"%char ∨ c = "#"%char →
  item_first (split "#" (item_first (split "?" (url +:+ String c rest))))
  = item_first (split "#" (item_first (split "?" url))).
Proof.
  intros Hc. induction url as [|a url IH].
  - rewrite append_nil_l, item_first_split.
    destruct Hc as [->| ->]; [done|]. cbn [Ascii.eqb Bool.eqb].
    by rewrite item_first_split.
  - rewrite append_cons, !item_first_split.
    destruct (Ascii.eqb a "?"); [done|].
    rewrite !item_first_split. by rewrite IH.
Qed.

(** X15. The identifier the crawler derives from an address does not
    depend on what follows the first question mark or number sign:
    addresses that differ in query string or fragment only get the
    same identifier. *)
Theorem news_id_ignores_query url c rest :
  c = "?"%char ∨ c = "#"%char →
  Spider.news_id_of (url +:+ String c rest) = Spider.news_id_of url.
Proof. intros Hc. unfold Spider.news_id_of. by rewrite clean_url_cut. Qed.

End CrawlerIds.

Lemma news_id_ignores_query_witness :
  Spider.news_id_of
    ("https://www.163.com/tech/article/KM1ABC.html" +:+ "?f=post#top")
  = "163_tech_KM1ABC".
Proof.
  rewrite (news_id_ignores_query "https://www.163.com/tech/article/KM1ABC.html"
             "?" "f=post#top" (or_introl eq_refl)).
  vm_compute. reflexivity.
Defined.

(** ** From the list page to the article *)

Section Links.
Import PyStr.

Lemma underscore_append slug : "_" +:+ slug = String "_" slug.
Proof. done. Qed.

Lemma detail_key_round_trip cate news_id :
  Main.detail_key cate (item_last (split "_" news_id)) = news_id
  ↔ ∃ slug, news_id = cate +:+ "_" +:+ slug ∧ contains "_" slug = false.
Proof.
  unfold Main.detail_key. split.
  - intros Hk. exists (item_last (split "_" news_id)).
    split; [done|apply item_last_without].
  - intros (slug & -> & Hs). rewrite (underscore_append slug), split_app.
    rewrite item_last_app by apply split_not_nil.
    by rewrite split_without.
Qed.

(** X16. The link the list page makes for an item and the key the
    detail page builds from that link: the key is the identifier of
    the item exactly when the identifier is the category of the link,
    an underscore, and a rest without underscore. For any other
    identifier the detail page looks up a different key. *)
Theorem link_key_is_id item cate news_id :
  item !! "id" = Some (PStr news_id) →
  ∃ article_id,
    Main.article_id_of item = Main.Done article_id
    ∧ (Main.detail_key cate article_id = news_id
       ↔ ∃ slug, news_id = cate +:+ "_" +:+ slug ∧ contains "_" slug = false).
Proof.
  intros Hid. unfold Main.article_id_of. rewrite Hid.
  eexists. split; [done|]. apply detail_key_round_trip.
Qed.

End Links.

Lemma link_key_is_id_witness :
  ∃ article_id,
    Main.article_id_of (titled_item "163_tech_KM1ABC" "T" "163_tech" 5)
    = Main.Done article_id
    ∧ (Main.detail_key "163_tech" article_id = "163_tech_KM1ABC"
       ↔ ∃ slug, "163_tech_KM1ABC" = "163_tech" +:+ "_" +:+ slug
                 ∧ PyStr.contains "_" slug = false).
Proof.
  apply (link_key_is_id (titled_item "163_tech_KM1ABC" "T" "163_tech" 5)).
  vm_compute. reflexivity.
Defined.

(** ** The detail page *)

Section DetailPage.
Variable json_loads : string → option dict.

Lemma find_set d k v k' :
  Main.find (Py.set d k v) k'
  = if String.eqb k k' then Some v else Main.find d k'.
Proof.
  induction d as [|[k0 v0] d IH]; [done|]. cbn [Py.set].
  destruct (String.eqb_spec k0 k) as [->|Hk]; cbn [Main.find].
  - by destruct (String.eqb k k').
  - rewrite IH. destruct (String.eqb_spec k0 k') as [->|]; [|done].
    by rewrite (proj2 (String.eqb_neq k k')) by done.
Qed.

Lemma get_find d k v : Py.get d k v = default v (Main.find d k).
Proof.
  induction d as [|[k0 v0] d IH]; [done|]. cbn [Py.get Main.find].
  by destruct (String.eqb k0 k).
Qed.

Lemma set_not_nil d k v : Py.set d k v ≠ [].
Proof.
  destruct d as [|[k0 v0] d]; [done|]. cbn [Py.set].
  by destruct (String.eqb k0 k).
Qed.

Lemma lynx_detail_found now article_id cate data s :
  get_news_detail now true json_loads (Main.detail_key cate article_id) s
  = (Ok (Some (Py.set data "id" (PStr (Main.detail_key cate article_id)))), s) →
  Main.lynx_detail now true json_loads article_id cate s
  = (match Main.find data "title" with
     | Some title =>
         Main.Done
           (Main.detail_page (Main.format (Some title))
              (Main.format (Main.find data "author"))
              (Main.format (Main.find data "pubDate"))
              (Main.format (Some (Py.get data "content" (PStr "")))))
     | None => Main.Failed (Main.KeyError "title")
     end, s).
Proof.
  intros Hd. unfold Main.lynx_detail. cbv zeta. rewrite Hd.
  pose proof (set_not_nil data "id" (PStr (Main.detail_key cate article_id)))
    as Hn.
  destruct (Py.set data "id" _) as [|kv d'] eqn:Hset; [done|].
  rewrite <-Hset, !get_find, !find_set. done.
Qed.

(** X17. The detail page for an article that a [save_news] which
    returned has stored under the key the page looks up, up to the
    deadline of the detail and with a decoder that inverts the encoder
    on the payload: it shows the title, author, date and content of the
    payload, each as an f-string prints it, when the payload has a
    title, and ends with a [KeyError] when it has none, although
    [save_news] accepted the payload and the list page shows the record
    with an empty title. *)
Theorem lynx_detail_after_save now t article_id cate news_data category
    publish_time s :
  json_loads (json_dumps news_data) = Some news_data →
  t ≤ now + EXPIRE_TIME * 1000 →
  (save_news now true (Main.detail_key cate article_id) news_data category
     publish_time s).1 = Ok true →
  let s' := saved now (Main.detail_key cate article_id) news_data category
              publish_time s in
  Main.lynx_detail t true json_loads article_id cate s'
  = (match Main.find news_data "title" with
     | Some title =>
         Main.Done
           (Main.detail_page (Main.format (Some title))
              (Main.format (Main.find news_data "author"))
              (Main.format (Main.find news_data "pubDate"))
              (Main.format (Some (Py.get news_data "content" (PStr "")))))
     | None => Main.Failed (Main.KeyError "title")
     end, s')
  ∧ hgetall t (LIST_HASH_PREFIX +:+ Main.detail_key cate article_id) s'
    !! "title"
    = encode (default (PStr "") (Main.find news_data "title")).
Proof.
  intros Hjson Ht [[fields Hf] _]%save_news_returns s'. split.
  - apply lynx_detail_found. subst s'.
    rewrite (saved_run _ _ _ _ _ _ fields) by done.
    unfold get_news_detail, query, mbind, M_bind, mret, M_ret.
    rewrite (save_detail _ _ _ _ publish_time) by done.
    by rewrite json_dumps_not_empty, Hjson.
  - subst s'. rewrite (saved_run _ _ _ _ _ _ fields) by done.
    rewrite (save_projection _ _ _ _ _ _ fields) by done.
    rewrite <-get_find.
    apply list_fields_Some in Hf as (ti & au & pp & u & -> & _ & _ & _ & ->).
    cbn [foldl fst snd]. by simplify_map_eq.
Qed.

End DetailPage.

Lemma lynx_detail_after_save_witness :
  Main.lynx_detail 11 true Json.loads "KM1" "163_tech"
    (saved 10 (Main.detail_key "163_tech" "KM1")
       [("title", PStr "T1"); ("pubDate", PNone);
        ("content", PStr "<p>x</p>")] "163_tech" (Some 1000) Redis.empty)
  = (Main.Done (Main.detail_page "T1" "None" "None" "<p>x</p>"),
     saved 10 (Main.detail_key "163_tech" "KM1")
       [("title", PStr "T1"); ("pubDate", PNone);
        ("content", PStr "<p>x</p>")] "163_tech" (Some 1000) Redis.empty).
Proof.
  assert (Json.loads (json_dumps [("title", PStr "T1"); ("pubDate", PNone);
                                  ("content", PStr "<p>x</p>")])
          = Some [("title", PStr "T1"); ("pubDate", PNone);
                  ("content", PStr "<p>x</p>")]) as H1
    by (vm_compute; reflexivity).
  assert (11 ≤ 10 + EXPIRE_TIME * 1000) as H2 by (vm_compute; discriminate).
  assert ((save_news 10 true (Main.detail_key "163_tech" "KM1")
             [("title", PStr "T1"); ("pubDate", PNone);
              ("content", PStr "<p>x</p>")] "163_tech" (Some 1000)
             Redis.empty).1 = Ok true) as H3 by (vm_compute; reflexivity).
  exact (proj1 (lynx_detail_after_save Json.loads 10 11 "KM1" "163_tech"
                  [("title", PStr "T1"); ("pubDate", PNone);
                   ("content", PStr "<p>x</p>")] "163_tech"
                  (Some 1000) Redis.empty H1 H2 H3)).
Defined.

Example lynx_detail_without_title :
  (Main.lynx_detail 11 true Json.loads "KM1" "163_tech"
     (saved 10 "163_tech_KM1" [("content", PStr "x")] "163_tech" (Some 1000)
        Redis.empty)).1
  = Main.Failed (Main.KeyError "title").
Proof. vm_compute. reflexivity. Qed.

(** ** The crawler and the store *)

Section Crawler.
Import PyStr.

(** X18. After a [save_news] that returned, under the identifier the
    crawler derives from an address, the test of the crawler recognises
    that address, with any query string or fragment added, as a
    duplicate up to and including the deadline of the detail, and no
    longer afterwards: the crawler then fetches and saves the article
    again. *)
Theorem crawler_skips_saved now t url c rest news_data category publish_time s :
  c = "?"%char ∨ c = "#"%char →
  (save_news now true (Spider.news_id_of url) news_data category
     publish_time s).1 = Ok true →
  let s' := saved now (Spider.news_id_of url) news_data category
              publish_time s in
  Spider.is_duplicate t (url +:+ String c rest) s'
  = bool_decide (t ≤ now + EXPIRE_TIME * 1000)
  ∧ Spider.is_duplicate t url s' = bool_decide (t ≤ now + EXPIRE_TIME * 1000).
Proof.
  intros Hc [[fields Hf] _]%save_news_returns s'.
  assert (Spider.is_duplicate t url s'
          = bool_decide (t ≤ now + EXPIRE_TIME * 1000)) as Hd.
  { unfold Spider.is_duplicate, Spider.exists_key, lookup_key.
    change ("news:detail:" +:+ Spider.news_id_of url)
      with (DETAIL_PREFIX +:+ Spider.news_id_of url).
    subst s'. rewrite (saved_detail_slot _ _ _ _ _ _ fields) by done.
    rewrite live_deadline. unfold is_due, deadline.
    destruct (Z.ltb_spec (now + EXPIRE_TIME * 1000) t).
    - by rewrite bool_decide_eq_false_2 by lia.
    - by rewrite bool_decide_eq_true_2 by lia. }
  split; [|done]. rewrite <-Hd.
  unfold Spider.is_duplicate, Spider.news_id_of. by rewrite clean_url_cut.
Qed.

End Crawler.

(** The theorem at the deadline of the detail, and the test one
    millisecond later. *)
Lemma crawler_skips_saved_witness :
  Spider.is_duplicate 604800010 ("https://tech.163.com/a/KM1.html" +:+ "?x=1")
    (saved 10 (Spider.news_id_of "https://tech.163.com/a/KM1.html")
       [("title", PStr "T1")] Spider.category (Some 1000) Redis.empty)
  = bool_decide (604800010 ≤ 10 + EXPIRE_TIME * 1000)
  ∧ bool_decide (604800010 ≤ 10 + EXPIRE_TIME * 1000) = true
  ∧ Spider.is_duplicate 604800011 "https://tech.163.com/a/KM1.html"
      (saved 10 (Spider.news_id_of "https://tech.163.com/a/KM1.html")
         [("title", PStr "T1")] Spider.category (Some 1000) Redis.empty)
    = false.
Proof.
  assert ((save_news 10 true
             (Spider.news_id_of "https://tech.163.com/a/KM1.html")
             [("title", PStr "T1")] Spider.category (Some 1000)
             Redis.empty).1 = Ok true) as Hret by (vm_compute; reflexivity).
  split; [|split; vm_compute; reflexivity].
  exact (proj1 (crawler_skips_saved 10 604800010
                  "https://tech.163.com/a/KM1.html"
                  "?" "x=1" [("title", PStr "T1")] Spider.category (Some 1000)
                  Redis.empty (or_introl eq_refl) Hret)).
Defined.

(** ** The list page *)

Lemma next_page_empty now s category page size r' :
  1 ≤ page → 1 ≤ size →
  zcard now (zset_key_of category) s ≤ page * size →
  (get_news_list now true category (page + 1) size s).1 = Ok r' →
  items r' = [] ∧ has_next r' = false.
Proof.
  intros Hpage Hsize Hlast Hr'.
  apply get_news_list_returns in Hr'
    as (_ & _ & _ & [(_ & -> & ->)|(_ & Hids & _)]); [done|].
  exfalso. apply Hids.
  rewrite page_ids by lia. apply nil_length_inv, Nat2Z.inj.
  rewrite length_fmap, page_window_length by lia. unfold zcard in Hlast. lia.
Qed.

Section IndexPage.
Import PyStr.




(** X20. The two links under the list, for [page >= 1] and
    [page_size >= 1]: the link to the next page is offered exactly when
    the page number is below [total], the number of records, not of
    pages. It is offered whenever [has_next] holds on a page that shows
    an item; it is also offered on the last page of a list of several
    records, and the page it leads to shows no item. *)
Theorem index_nav_next now cate page size s r :
  1 ≤ page → 1 ≤ size →
  (get_news_list now true (Some cate) page size s).1 = Ok r →
  Main.index_nav cate page r
  = (if 1 <? page then Main.prev_link cate page else EmptyString)
    +:+ (if page <? total r then Main.next_link cate page else EmptyString)
  ∧ (has_next r = true → items r ≠ [] → page < total r)
  ∧ (total r ≤ page * size →
     ∀ r', (get_news_list now true (Some cate) (page + 1) size s).1 = Ok r' →
           items r' = [] ∧ has_next r' = false).
Proof.
  intros Hpage Hsize Hr. pose proof Hr as Hr0.
  apply get_news_list_returns in Hr
    as (Htot & Hp & Hps & [(_ & Hi & Hn)|(_ & _ & Hc & Hn)]).
  - split_and!.
    + unfold Main.index_nav. by rewrite Hp.
    + by rewrite Hn.
    + intros Hlast r' Hr'. apply (next_page_empty now s (Some cate) page size);
        [done..|by rewrite <-Htot|done].
  - split_and!.
    + unfold Main.index_nav. by rewrite Hp.
    + rewrite Hn. intros Hlt%Z.ltb_lt Hne.
      assert (1 ≤ Z.of_nat (length (items r))) by (destruct (items r); [done|cbn; lia]).
      nia.
    + intros Hlast r' Hr'. apply (next_page_empty now s (Some cate) page size);
        [done..|by rewrite <-Htot|done].
Qed.

End IndexPage.

Lemma index_nav_next_witness :
  let r := {| items := [titled_item "a2" "T2" "tech" 2000;
                        titled_item "a1" "T1" "tech" 1000];
              total := 2; page := 1; page_size := 30; has_next := false |} in
  (get_news_list 30 true (Some "tech") 1 30 two_records).1 = Ok r
  ∧ Main.index_nav "tech" 1 r = Main.next_link "tech" 1.
Proof.
  intros r.
  assert ((get_news_list 30 true (Some "tech") 1 30 two_records).1 = Ok r)
    as Hr by (vm_compute; reflexivity).
  assert (1 ≤ 1) as H1 by lia. assert (1 ≤ 30) as H30 by lia.
  split; [exact Hr|].
  rewrite (proj1 (index_nav_next 30 "tech" 1 30 two_records r H1 H30 Hr)).
  reflexivity.
Defined.

(** ** From a link of the list page to the article *)

Section Chain.
Import PyStr.
Variable log : list (Z * bool * request).
Variable now : Z.

Let s := replay log Redis.empty.

Lemma get_news_detail_some json_loads news_id news_data :
  Redis.get now (DETAIL_PREFIX +:+ news_id) s = Some (json_dumps news_data) →
  json_loads (json_dumps news_data) = Some news_data →
  get_news_detail now true json_loads news_id s
  = (Ok (Some (Py.set news_data "id" (PStr news_id))), s).
Proof.
  intros Hd Hjson. unfold get_news_detail, query, mbind, M_bind, mret, M_ret.
  by rewrite Hd, json_dumps_not_empty, Hjson.
Qed.

(** X21. On a store built by a log of calls, every item of a page
    that [get_news_list] returns yields a link whose article part is
    the last piece of the identifier and whose category is the category
    field of the item; the item shows the title of a payload, as the
    client wrote it, that is readable under the detail key of the item;
    and when the identifier is that category, an underscore and a rest
    without underscore, the detail page called with the two parts of
    the link finds that payload, so that it shows its title, or ends
    with a [KeyError] when the payload has none. A call that returns no
    page raises the error of the store on a window outside the 64-bit
    integers. *)
Theorem index_links_open cate page size :
  match (get_news_list now true (Some cate) page size s).1 with
  | Ok r =>
      Forall (λ item,
        ∃ news_id c news_data title,
          Main.article_id_of item
          = Main.Done (item_last (split "_" news_id))
          ∧ item !! "category" = Some (PStr c)
          ∧ encode (Py.get news_data "title" (PStr "")) = Some title
          ∧ item !! "title" = Some (PStr title)
          ∧ Redis.get now (DETAIL_PREFIX +:+ news_id) s
            = Some (json_dumps news_data)
          ∧ ∀ slug json_loads,
              news_id = c +:+ "_" +:+ slug → contains "_" slug = false →
              json_loads (json_dumps news_data) = Some news_data →
              Main.lynx_detail now true json_loads
                (item_last (split "_" news_id)) c s
              = (match Main.find news_data "title" with
                 | Some title =>
                     Main.Done
                       (Main.detail_page (Main.format (Some title))
                          (Main.format (Main.find news_data "author"))
                          (Main.format (Main.find news_data "pubDate"))
                          (Main.format
                             (Some (Py.get news_data "content" (PStr "")))))
                 | None => Main.Failed (Main.KeyError "title")
                 end, s))
        (items r)
  | Raise e => e = ResponseError ∧ window_ok page size = false
  end.
Proof.
  destruct (get_news_list now true (Some cate) page size s).1 as [r|e]
    eqn:Hr; cycle 1.
  { eapply get_news_list_raises; [apply replay_numeric|done]. }
  apply get_news_list_returns in Hr
    as (_ & _ & _ & [(_ & -> & _)|(_ & _ & Hc & _)]); [constructor|].
  apply collect_items in Hc.
  induction Hc as [|item news_id items ids [Hl Hi] _ IH]; constructor; [|done].
  destruct (shown_item log now item news_id Hl Hi)
    as (d0 & c0 & sc0 & f0 & Hf0 & -> & Hd & _).
  pose proof (fields_title _ _ _ _ Hf0) as Ht.
  pose proof (list_fields_Some _ _ _ _ Hf0)
    as (ti & _ & _ & _ & Hti & _).
  exists news_id, c0, d0, ti. split_and!.
  - unfold Main.article_id_of. by rewrite lookup_insert_eq.
  - rewrite !lookup_insert_ne by done.
    by rewrite lookup_fmap, (fields_category _ _ _ _ Hf0).
  - done.
  - rewrite !lookup_insert_ne by done.
    by rewrite lookup_fmap, Ht, Hti.
  - done.
  - intros slug json_loads Hid Hs Hjson.
    assert (Main.detail_key c0 (item_last (split "_" news_id)) = news_id) as Hk
      by (apply detail_key_round_trip; eauto).
    apply lynx_detail_found. rewrite Hk. by apply get_news_detail_some.
Qed.

(** X22. On a store built by a log of calls, every item of every page
    is ranked in the timeline of the category it shows: the score of
    its entry there is the double nearest to the [publish_time] it
    shows, when there is one, and so that [publish_time] itself when
    its magnitude is at most [2^53]. Whatever list a record is shown
    in, it is also in the list of its own category. A call that returns
    no page raises the error of the store on a window outside the
    64-bit integers. *)
Theorem shown_items_in_category category page page_size :
  match (get_news_list now true category page page_size s).1 with
  | Ok r =>
      Forall (λ item,
        ∃ news_id c score,
          item !! "id" = Some (PStr news_id)
          ∧ item !! "category" = Some (PStr c)
          ∧ item !! "publish_time" = Some (PInt score)
          ∧ (∀ sc, to_double score = Some sc →
                   zscore now (CATEGORY_PREFIX +:+ c) news_id s = Some sc)
          ∧ (Z.abs score ≤ 2 ^ 53 →
             zscore now (CATEGORY_PREFIX +:+ c) news_id s = Some score))
        (items r)
  | Raise e => e = ResponseError ∧ window_ok page page_size = false
  end.
Proof.
  destruct (get_news_list now true category page page_size s).1 as [r|e]
    eqn:Hr; cycle 1.
  { eapply get_news_list_raises; [apply replay_numeric|done]. }
  apply get_news_list_returns in Hr
    as (_ & _ & _ & [(_ & -> & _)|(_ & _ & Hc & _)]); [constructor|].
  apply collect_items in Hc.
  induction Hc as [|item news_id items ids [Hl Hi] _ IH]; constructor; [|done].
  destruct (shown_item log now item news_id Hl Hi)
    as (d0 & c0 & sc0 & f0 & Hf0 & -> & _ & Hz).
  exists news_id, c0, sc0. split_and!.
  - by rewrite lookup_insert_eq.
  - rewrite !lookup_insert_ne by done.
    by rewrite lookup_fmap, (fields_category _ _ _ _ Hf0).
  - rewrite lookup_insert_ne by done. by rewrite lookup_insert_eq.
  - intros sc Hsc. by apply Hz.
  - intros Hex. by apply Hz, to_double_exact.
Qed.

End Chain.

(** ** Instances *)

Lemma save_news_total_witness :
  let r := {| items := []; total := 0; page := 1; page_size := 10;
              has_next := false |} in
  let r' := {| items := [titled_item "a1" "T1" "tech" 1000]; total := 1;
               page := 1; page_size := 10; has_next := false |} in
  (Some "tech" = None ∨ (Some "tech" = Some "tech" ∧ "tech" ≠ ""))
  ∧ (get_news_list 5 true (Some "tech") 1 10 (replay [] Redis.empty)).1 = Ok r
  ∧ (get_news_list 6 true (Some "tech") 1 10
       (saved 5 "a1" [("title", PStr "T1")] "tech" (Some 1000)
          (replay [] Redis.empty))).1 = Ok r'
  ∧ total r'
    = total r
      + match (save_news 5 true "a1" [("title", PStr "T1")] "tech"
                 (Some 1000) (replay [] Redis.empty)).1,
              zscore 5 (zset_key_of (Some "tech")) "a1"
                (replay [] Redis.empty) with
        | Ok _, None => 1
        | _, _ => 0
        end.
Proof.
  intros r r'.
  assert (Some "tech" = None ∨ (Some "tech" = Some "tech" ∧ "tech" ≠ ""))
    as Hl by (right; split; [reflexivity|discriminate]).
  assert ((get_news_list 5 true (Some "tech") 1 10 (replay [] Redis.empty)).1
          = Ok r) as Hr by (vm_compute; reflexivity).
  assert ((get_news_list 6 true (Some "tech") 1 10
             (saved 5 "a1" [("title", PStr "T1")] "tech" (Some 1000)
                (replay [] Redis.empty))).1 = Ok r') as Hr'
    by (vm_compute; reflexivity).
  split; [exact Hl|]. split; [exact Hr|]. split; [exact Hr'|].
  exact (save_news_total [] 5 6 5 "a1" [("title", PStr "T1")] "tech"
           (Some 1000) (Some "tech") 1 10 1 10 r r' Hl Hr Hr').
Defined.

Lemma delete_other_category_witness :
  "news" ≠ "tech"
  ∧ ∃ sc,
      to_double (or_int (Some 1000) 10) = Some sc
      ∧ zscore 30 (CATEGORY_PREFIX +:+ "tech") "a1"
          (deleted_from 20 "a1" "news"
             (saved 10 "a1" [("title", PStr "T1")] "tech" (Some 1000)
                (replay [] Redis.empty)))
        = Some sc.
Proof.
  assert ("news" ≠ "tech") as Hc by discriminate.
  assert ((save_news 10 true "a1" [("title", PStr "T1")] "tech" (Some 1000)
             (replay [] Redis.empty)).1 = Ok true) as Hret
    by (vm_compute; reflexivity).
  split; [exact Hc|].
  destruct (proj1 (delete_other_category [] 30 10 20 "a1"
                     [("title", PStr "T1")] "tech" "news" (Some 1000) Hc Hret))
    as (sc & Hsc & _ & Hz).
  exists sc. split; [exact Hsc|exact Hz].
Defined.

Lemma resave_other_category_witness :
  "news" ≠ "tech" ∧ 30 ≤ 20 + EXPIRE_TIME * 1000
  ∧ ∃ sc1,
      to_double (or_int (Some 1000) 10) = Some sc1
      ∧ zscore 30 (CATEGORY_PREFIX +:+ "tech") "a1"
          (saved 20 "a1" [("title", PStr "T2")] "news" (Some 2000)
             (saved 10 "a1" [("title", PStr "T1")] "tech" (Some 1000)
                (replay [] Redis.empty)))
        = Some sc1.
Proof.
  assert ("news" ≠ "tech") as Hc by discriminate.
  assert (30 ≤ 20 + EXPIRE_TIME * 1000) as Ht by (vm_compute; discriminate).
  assert ((save_news 10 true "a1" [("title", PStr "T1")] "tech" (Some 1000)
             (replay [] Redis.empty)).1 = Ok true) as Hret1
    by (vm_compute; reflexivity).
  assert ((save_news 20 true "a1" [("title", PStr "T2")] "news" (Some 2000)
             (replay [] Redis.empty)).1 = Ok true) as Hret2
    by (vm_compute; reflexivity).
  split; [exact Hc|]. split; [exact Ht|].
  destruct (resave_other_category [] 30 10 20 "a1" [("title", PStr "T1")]
              [("title", PStr "T2")] "tech" "news" (Some 1000) (Some 2000)
              Hc Ht Hret1 Hret2)
    as (sc1 & sc2 & Hsc1 & _ & Hz & _).
  exists sc1. split; [exact Hsc1|exact Hz].
Defined.

(** ** Sweeping goes by publication time *)

Section SweepByPublication.
Variable log : list (Z * bool * request).

Let s := replay log Redis.empty.

(** X23. [cleanup_old_news] goes by the score, which comes from the
    publication time, not by the time of saving: a record that a
    [save_news] which returned has stored with a positive publication
    time at or before the cutoff is removed by the next sweep, from
    both timelines and with its projection and detail, however recently
    it was saved. *)
Theorem sweep_takes_old_publication t now1 now2 days news_id news_data category
    publish_time :
  0 < publish_time → publish_time ≤ now2 - days * 86400 * 1000 →
  (save_news now1 true news_id news_data category (Some publish_time) s).1
  = Ok true →
  let s2 := swept now2 days
              (saved now1 news_id news_data category (Some publish_time) s) in
  zscore t TIMELINE_ZSET news_id s2 = None
  ∧ zscore t (CATEGORY_PREFIX +:+ category) news_id s2 = None
  ∧ at_key (LIST_HASH_PREFIX +:+ news_id) s2 = vacant
  ∧ at_key (DETAIL_PREFIX +:+ news_id) s2 = vacant.
Proof.
  intros Hpos Hold Hret s2.
  assert (or_int (Some publish_time) now1 = publish_time) as Hscore.
  { cbn [or_int]. by rewrite (proj2 (Z.eqb_neq publish_time 0)) by lia. }
  apply save_news_returns in Hret as [[fields Hf] [sc Hsc]].
  rewrite Hscore in Hsc.
  set (s1 := saved now1 news_id news_data category (Some publish_time) s) in *.
  assert (undated s1) as Hu1
    by (subst s1 s; auto using undated_saved, undated_replay).
  assert (undated s2) as Hu2 by (subst s2; auto using undated_swept).
  assert (0 ≤ sc ≤ bound (now2 - days * 86400 * 1000)) as Hrange.
  { rewrite <-(to_double_bound _ _ Hsc). split.
    - rewrite <-bound_0. apply bound_mono. lia.
    - by apply bound_mono. }
  assert (zset_at now2 TIMELINE_ZSET s1 !! news_id = Some sc) as Hg.
  { subst s1. rewrite saved_zset by (subst s; auto using undated_replay).
    by rewrite Hf, Hscore, Hsc, lookup_insert_eq. }
  assert (zset_at now2 (CATEGORY_PREFIX +:+ category) s1 !! news_id
          = Some sc) as Hcat.
  { subst s1. rewrite saved_zset by (subst s; auto using undated_replay).
    by rewrite Hf, Hscore, Hsc, lookup_insert_eq. }
  assert (news_id ∈ zrangebyscore now2 TIMELINE_ZSET 0
                      (now2 - days * 86400 * 1000) s1) as Hin.
  { apply elem_of_old_ids. by exists sc. }
  assert (category ∈ smembers now2 CATEGORIES_SET s1) as Hreg.
  { rewrite (smembers_undated now2), <-(smembers_undated now1)
      by auto using index_registry.
    subst s1. rewrite saved_registry, Hf.
    apply elem_of_union_l, elem_of_singleton. done. }
  unfold zscore.
  rewrite !(zset_at_undated t), <-!(zset_at_undated now2)
    by auto using index_timeline, index_category.
  subst s2. rewrite swept_timeline.
  rewrite swept_registered by (try done; by intros Hnil; rewrite Hnil in Hin;
                               apply elem_of_nil in Hin).
  destruct (swept_old now2 days s1 news_id Hin) as [-> ->].
  assert (in_score_range 0 (now2 - days * 86400 * 1000) sc = true)
    as Hin_range.
  { unfold in_score_range. rewrite bound_0.
    apply andb_true_intro. split; apply Z.leb_le; lia. }
  split_and!; [| |done..];
    apply map_lookup_filter_None; right; intros sc' Hsc'; cbn;
    rewrite Hsc' in *; simplify_eq; by rewrite Hin_range.
Qed.

End SweepByPublication.

Lemma sweep_takes_old_publication_witness :
  0 < 1000 ∧ 1000 ≤ 864000000 - 7 * 86400 * 1000
  ∧ zscore 50 TIMELINE_ZSET "a1"
      (swept 864000000 7
         (saved 864000000 "a1" [("title", PStr "T1")] "tech" (Some 1000)
            (replay [] Redis.empty)))
    = None.
Proof.
  assert (0 < 1000) as H1 by lia.
  assert (1000 ≤ 864000000 - 7 * 86400 * 1000) as H2 by lia.
  assert ((save_news 864000000 true "a1" [("title", PStr "T1")] "tech"
             (Some 1000) (replay [] Redis.empty)).1 = Ok true) as H3
    by (vm_compute; reflexivity).
  split; [exact H1|]. split; [exact H2|].
  exact (proj1 (sweep_takes_old_publication [] 50 864000000 864000000 7 "a1"
                  [("title", PStr "T1")] "tech" 1000 H1 H2 H3)).
Defined.

(** A record with a negative publication time is never swept. *)
Example sweep_keeps_negative_publication :
  zscore 50 TIMELINE_ZSET "a1"
    (swept 864000000 0
       (saved 10 "a1" [("title", PStr "T1")] "tech" (Some (-1000))
          Redis.empty))
  = Some (-1000).
Proof. vm_compute. reflexivity. Qed.

(** ** Saving again, and saving in another order *)

Section Resave.

Lemma zadd_slot now key member score v :
  s_deadline v = None →
  slot_run now [ZADD key member score] v
  = match to_double score with
    | Some sc =>
        Slot (s_str v) (s_hash v) (Some (<[member := sc]> (zset_of v)))
          (s_set v) None
    | None => v
    end.
Proof.
  intros Hv. destruct (to_double score) as [sc|] eqn:Hsc;
    [|by apply slot_run_zadd_fails].
  rewrite (slot_run_zadd _ _ _ _ sc) by done.
  rewrite live_undated by done. unfold with_zset.
  rewrite decide_False by apply insert_non_empty. by rewrite Hv.
Qed.

Lemma sadd_slot now key member v :
  s_deadline v = None →
  slot_run now [SADD key member] v
  = Slot (s_str v) (s_hash v) (s_zset v) (Some ({[member]} ∪ set_of v)) None.
Proof.
  intros Hv. cbn [slot_run foldl inert is_read fails orb effect].
  rewrite live_undated by done. unfold with_set.
  rewrite decide_False; [by rewrite Hv|].
  intros He. assert (member ∈ ({[member]} ∪ set_of v : gset string)) as Hm
    by (apply elem_of_union_l, elem_of_singleton; done).
  rewrite He in Hm. by apply elem_of_empty in Hm.
Qed.

(** The five keys of a save, or another key. *)
Lemma save_key_cases k news_id category :
  k = LIST_HASH_PREFIX +:+ news_id ∨ k = DETAIL_PREFIX +:+ news_id
  ∨ k = TIMELINE_ZSET ∨ k = CATEGORY_PREFIX +:+ category
  ∨ k = CATEGORIES_SET
  ∨ (k ≠ LIST_HASH_PREFIX +:+ news_id ∧ k ≠ DETAIL_PREFIX +:+ news_id
     ∧ k ≠ TIMELINE_ZSET ∧ k ≠ CATEGORY_PREFIX +:+ category
     ∧ k ≠ CATEGORIES_SET).
Proof.
  destruct (decide (k = LIST_HASH_PREFIX +:+ news_id)); [by left|].
  destruct (decide (k = DETAIL_PREFIX +:+ news_id)); [by right; left|].
  destruct (decide (k = TIMELINE_ZSET)); [by right; right; left|].
  destruct (decide (k = CATEGORY_PREFIX +:+ category));
    [by right; right; right; left|].
  destruct (decide (k = CATEGORIES_SET)); [by right; right; right; right; left|].
  by right; right; right; right; right.
Qed.

(** The index keys after a save that sent its block. *)
Lemma saved_at_timeline now news_id news_data category publish_time s fields :
  undated s →
  list_fields news_data category (or_int publish_time now) = Some fields →
  at_key TIMELINE_ZSET (saved now news_id news_data category publish_time s)
  = let v := at_key TIMELINE_ZSET s in
    match to_double (or_int publish_time now) with
    | Some sc =>
        Slot (s_str v) (s_hash v) (Some (<[news_id := sc]> (zset_of v)))
          (s_set v) None
    | None => v
    end.
Proof.
  intros Hu Hf. rewrite (saved_run _ _ _ _ _ _ fields) by done.
  rewrite save_at_timeline. by apply zadd_slot, Hu, index_timeline.
Qed.

Lemma saved_at_category now news_id news_data category publish_time s fields :
  undated s →
  list_fields news_data category (or_int publish_time now) = Some fields →
  at_key (CATEGORY_PREFIX +:+ category)
    (saved now news_id news_data category publish_time s)
  = let v := at_key (CATEGORY_PREFIX +:+ category) s in
    match to_double (or_int publish_time now) with
    | Some sc =>
        Slot (s_str v) (s_hash v) (Some (<[news_id := sc]> (zset_of v)))
          (s_set v) None
    | None => v
    end.
Proof.
  intros Hu Hf. rewrite (saved_run _ _ _ _ _ _ fields) by done.
  rewrite save_at_category. by apply zadd_slot, Hu, index_category.
Qed.

Lemma saved_at_registry now news_id news_data category publish_time s fields :
  undated s →
  list_fields news_data category (or_int publish_time now) = Some fields →
  at_key CATEGORIES_SET (saved now news_id news_data category publish_time s)
  = let v := at_key CATEGORIES_SET s in
    Slot (s_str v) (s_hash v) (s_zset v) (Some ({[category]} ∪ set_of v)) None.
Proof.
  intros Hu Hf. rewrite (saved_run _ _ _ _ _ _ fields) by done.
  rewrite save_at_registry. by apply sadd_slot, Hu, index_registry.
Qed.

(** X24. On a store built by a log of calls, a [save_news] that
    returns overwrites an earlier save of the same identifier under the
    same category completely: the database after both saves is the
    database after the later save alone, whatever the payloads, the
    publication times and the clock readings of the two calls, and
    whatever the earlier save answered. *)
Theorem resave_overwrites log now1 now2 news_id data1 data2 category
    time1 time2 :
  (save_news now2 true news_id data2 category time2
     (replay log Redis.empty)).1 = Ok true →
  saved now2 news_id data2 category time2
    (saved now1 news_id data1 category time1 (replay log Redis.empty))
  = saved now2 news_id data2 category time2 (replay log Redis.empty).
Proof.
  intros [[fields2 Hf2] [sc2 Hsc2]]%save_news_returns.
  set (s := replay log Redis.empty).
  destruct (list_fields data1 category (or_int time1 now1))
    as [fields1|] eqn:Hf1; [|by rewrite (saved_refused now1)].
  set (s1 := saved now1 news_id data1 category time1 s).
  assert (undated s) as Hu by apply undated_replay.
  assert (paired s) as Hp by apply paired_replay.
  assert (undated s1) as Hu1 by (subst s1; auto using undated_saved).
  assert (paired s1) as Hp1 by (subst s1; auto using paired_saved).
  apply db_eq. intros k.
  destruct (save_key_cases k news_id category)
    as [->|[->|[->|[->|[->|(? & ? & ? & ? & ?)]]]]].
  - by rewrite !(saved_projection_slot _ _ _ _ _ _ fields2).
  - by rewrite !(saved_detail_slot _ _ _ _ _ _ fields2).
  - rewrite !(saved_at_timeline now2 _ _ _ _ _ fields2) by done.
    subst s1. rewrite (saved_at_timeline now1 _ _ _ _ _ fields1) by done.
    cbv zeta. rewrite Hsc2.
    destruct (to_double (or_int time1 now1)); [|done]. cbn.
    by rewrite insert_insert_eq.
  - rewrite !(saved_at_category now2 _ _ _ _ _ fields2) by done.
    subst s1. rewrite (saved_at_category now1 _ _ _ _ _ fields1) by done.
    cbv zeta. rewrite Hsc2.
    destruct (to_double (or_int time1 now1)); [|done]. cbn.
    by rewrite insert_insert_eq.
  - rewrite !(saved_at_registry now2 _ _ _ _ _ fields2) by done.
    subst s1. rewrite (saved_at_registry now1 _ _ _ _ _ fields1) by done.
    cbn. by rewrite (assoc_L (∪)), (idemp_L (∪)).
  - rewrite !(saved_frame now2) by done. subst s1. by rewrite saved_frame.
Qed.

(** Keys of one identifier are not keys of another, nor index keys. *)
Ltac other_key :=
  first [ key_neq
        | by intros ?%list_key_inj
        | by intros ?%detail_key_inj
        | by intros ?%category_key_inj ].

(** X25. On a store built by a log of calls, two [save_news] calls for
    different identifiers commute: the database after both does not
    depend on which of the two was made first, each call keeping its
    own clock reading, payload, category and publication time, and
    whatever the two calls answer. *)
Theorem saves_commute log now_a now_b id_a id_b data_a data_b cat_a cat_b
    time_a time_b :
  id_a ≠ id_b →
  saved now_a id_a data_a cat_a time_a
    (saved now_b id_b data_b cat_b time_b (replay log Redis.empty))
  = saved now_b id_b data_b cat_b time_b
      (saved now_a id_a data_a cat_a time_a (replay log Redis.empty)).
Proof.
  intros Hab.
  set (s := replay log Redis.empty).
  destruct (list_fields data_a cat_a (or_int time_a now_a)) as [fa|] eqn:Hfa;
    [|by rewrite !(saved_refused now_a)].
  destruct (list_fields data_b cat_b (or_int time_b now_b)) as [fb|] eqn:Hfb;
    [|by rewrite !(saved_refused now_b)].
  set (sa := saved now_a id_a data_a cat_a time_a s).
  set (sb := saved now_b id_b data_b cat_b time_b s).
  assert (undated s) as Hu by apply undated_replay.
  assert (paired s) as Hp by apply paired_replay.
  assert (undated sa) as Hua by (subst sa; auto using undated_saved).
  assert (undated sb) as Hub by (subst sb; auto using undated_saved).
  assert (paired sa) as Hpa by (subst sa; auto using paired_saved).
  assert (paired sb) as Hpb by (subst sb; auto using paired_saved).
  apply db_eq. intros k.
  destruct (save_key_cases k id_a cat_a)
    as [->|[->|[->|[->|[->|(? & ? & ? & ? & ?)]]]]].
  - rewrite (saved_projection_slot _ _ _ _ _ _ fa) by done.
    rewrite (saved_frame now_b) by other_key.
    subst sa. by rewrite (saved_projection_slot _ _ _ _ _ _ fa).
  - rewrite (saved_detail_slot _ _ _ _ _ _ fa) by done.
    rewrite (saved_frame now_b) by other_key.
    subst sa. by rewrite (saved_detail_slot _ _ _ _ _ _ fa).
  - rewrite (saved_at_timeline now_a _ _ _ _ _ fa),
      (saved_at_timeline now_b _ _ _ _ _ fb) by done.
    subst sa sb.
    rewrite (saved_at_timeline now_a _ _ _ _ _ fa),
      (saved_at_timeline now_b _ _ _ _ _ fb) by done.
    cbv zeta.
    destruct (to_double (or_int time_a now_a)),
      (to_double (or_int time_b now_b)); try done. cbn.
    by rewrite insert_insert_ne.
  - rewrite (saved_at_category now_a _ _ _ _ _ fa) by done.
    destruct (decide (cat_a = cat_b)) as [<-|Hcat].
    + rewrite (saved_at_category now_b _ _ _ _ _ fb) by done.
      subst sa sb.
      rewrite (saved_at_category now_a _ _ _ _ _ fa),
        (saved_at_category now_b _ _ _ _ _ fb) by done.
      cbv zeta.
      destruct (to_double (or_int time_a now_a)),
        (to_double (or_int time_b now_b)); try done. cbn.
      by rewrite insert_insert_ne.
    + rewrite (saved_frame now_b) by other_key.
      subst sa sb. rewrite (saved_at_category now_a _ _ _ _ _ fa) by done.
      by rewrite (saved_frame now_b) by other_key.
  - rewrite (saved_at_registry now_a _ _ _ _ _ fa),
      (saved_at_registry now_b _ _ _ _ _ fb) by done.
    subst sa sb.
    rewrite (saved_at_registry now_a _ _ _ _ _ fa),
      (saved_at_registry now_b _ _ _ _ _ fb) by done.
    cbn. by rewrite !(assoc_L (∪)), (comm_L (∪) {[cat_a]}).
  - rewrite (saved_frame now_a) by done. fold s.
    destruct (save_key_cases k id_b cat_b)
      as [->|[->|[->|[->|[->|(? & ? & ? & ? & ?)]]]]]; try done.
    + subst sb. rewrite (saved_projection_slot _ _ _ _ _ s fb) by done.
      by rewrite (saved_projection_slot _ _ _ _ _ sa fb) by done.
    + subst sb. by rewrite !(saved_detail_slot _ _ _ _ _ _ fb).
    + subst sb. rewrite !(saved_at_category now_b _ _ _ _ _ fb) by done.
      subst sa. by rewrite saved_frame by done.
    + subst sb. rewrite !(saved_frame now_b) by done.
      subst sa. by rewrite saved_frame by done.
Qed.

End Resave.

(** The theorem on the record of [one_record], saved again with another
    title and publication time. *)
Lemma resave_overwrites_witness :
  (save_news 20 true "a1" [("title", PStr "T2")] "tech" (Some 2000)
     (replay [] Redis.empty)).1 = Ok true
  ∧ saved 20 "a1" [("title", PStr "T2")] "tech" (Some 2000)
      (saved 10 "a1" [("title", PStr "T1")] "tech" (Some 1000)
         (replay [] Redis.empty))
    = saved 20 "a1" [("title", PStr "T2")] "tech" (Some 2000)
        (replay [] Redis.empty).
Proof.
  assert ((save_news 20 true "a1" [("title", PStr "T2")] "tech" (Some 2000)
             (replay [] Redis.empty)).1 = Ok true) as Hret
    by (vm_compute; reflexivity).
  split; [exact Hret|].
  exact (resave_overwrites [] 10 20 "a1" [("title", PStr "T1")]
           [("title", PStr "T2")] "tech" (Some 1000) (Some 2000) Hret).
Defined.

Lemma saves_commute_witness :
  "a1" ≠ "a2"
  ∧ saved 10 "a1" [("title", PStr "T1")] "tech" (Some 1000)
      (saved 20 "a2" [("title", PStr "T2")] "tech" (Some 2000)
         (replay [] Redis.empty))
    = saved 20 "a2" [("title", PStr "T2")] "tech" (Some 2000)
        (saved 10 "a1" [("title", PStr "T1")] "tech" (Some 1000)
           (replay [] Redis.empty)).
Proof.
  assert ("a1" ≠ "a2") as Hab by discriminate.
  split; [exact Hab|].
  exact (saves_commute [] 10 20 "a1" "a2" [("title", PStr "T1")]
           [("title", PStr "T2")] "tech" "tech" (Some 1000) (Some 2000) Hab).
Defined.

(** ** What a sweep removes *)

Lemma swept_unregistered now days s c :
  c ∉ smembers now CATEGORIES_SET s →
  at_key (CATEGORY_PREFIX +:+ c) (swept now days s)
  = at_key (CATEGORY_PREFIX +:+ c) s.
Proof.
  intros Hc.
  destruct (swept_cases now days s) as [[_ ->]|[_ ->]]; [done|].
  by rewrite cleanup_unregistered.
Qed.

Section SweepRange.
Variables (now days : Z) (s : db).

Let cutoff := bound (now - days * 86400 * 1000).
Let s' := swept now days s.

(** X26. Let [cutoff] be [now - days * 86400000] as the store reads
    it, the nearest double. After [cleanup_old_news]: no identifier
    whose score lies between 0 and the cutoff, both included, remains
    in the global timeline; when the global timeline held such an
    identifier, none remains in the timeline of a registered category
    either, whereas the timeline of a category that is not registered
    is left as it is, whatever it holds, and so is every key when the
    global timeline held no such identifier; no identifier whose score
    is above the cutoff or below 0 is removed from the global timeline
    or from a category timeline; projection and detail are deleted for
    the identifiers whose score in the global timeline lies between 0
    and the cutoff, and left as they are for every other identifier. *)
Theorem cleanup_old_news_range :
  (∀ news_id sc,
     zscore now TIMELINE_ZSET news_id s' = Some sc → sc < 0 ∨ cutoff < sc)
  ∧ (∀ c news_id sc,
       c ∈ smembers now CATEGORIES_SET s →
       (∃ old sc0, zscore now TIMELINE_ZSET old s = Some sc0 ∧ 0 ≤ sc0 ≤ cutoff) →
       zscore now (CATEGORY_PREFIX +:+ c) news_id s' = Some sc →
       sc < 0 ∨ cutoff < sc)
  ∧ (∀ c, c ∉ smembers now CATEGORIES_SET s →
          at_key (CATEGORY_PREFIX +:+ c) s' = at_key (CATEGORY_PREFIX +:+ c) s)
  ∧ ((∀ old sc0, zscore now TIMELINE_ZSET old s = Some sc0 →
                 sc0 < 0 ∨ cutoff < sc0) →
     s' = s)
  ∧ (∀ news_id sc,
       sc < 0 ∨ cutoff < sc →
       (zscore now TIMELINE_ZSET news_id s = Some sc →
        zscore now TIMELINE_ZSET news_id s' = Some sc)
       ∧ (∀ c, zscore now (CATEGORY_PREFIX +:+ c) news_id s = Some sc →
               zscore now (CATEGORY_PREFIX +:+ c) news_id s' = Some sc))
  ∧ (∀ news_id sc,
       zscore now TIMELINE_ZSET news_id s = Some sc → 0 ≤ sc ≤ cutoff →
       hgetall now (LIST_HASH_PREFIX +:+ news_id) s' = ∅
       ∧ Redis.get now (DETAIL_PREFIX +:+ news_id) s' = None)
  ∧ (∀ news_id,
       (∀ sc, zscore now TIMELINE_ZSET news_id s = Some sc →
              sc < 0 ∨ cutoff < sc) →
       at_key (LIST_HASH_PREFIX +:+ news_id) s'
       = at_key (LIST_HASH_PREFIX +:+ news_id) s
       ∧ at_key (DETAIL_PREFIX +:+ news_id) s'
         = at_key (DETAIL_PREFIX +:+ news_id) s).
Proof.
  subst s' cutoff. unfold zscore. rewrite swept_timeline. split_and!.
  - intros news_id sc [_ Hr]%map_lookup_filter_Some.
    by apply out_of_range in Hr.
  - intros c news_id sc Hc (old & sc0 & Hold & Hr0).
    rewrite swept_registered; [|clear news_id sc|done].
    + intros [_ Hr]%map_lookup_filter_Some. by apply out_of_range in Hr.
    + intros Hnil.
      assert (old ∈ zrangebyscore now TIMELINE_ZSET 0
                      (now - days * 86400 * 1000) s) as Hin
        by (apply elem_of_old_ids; eauto).
      rewrite Hnil in Hin. by apply elem_of_nil in Hin.
  - apply swept_unregistered.
  - intros Hnone.
    destruct (swept_cases now days s) as [[_ ->]|[Hne _]]; [done|].
    exfalso. apply Hne, elem_of_nil_inv. intros old.
    rewrite elem_of_old_ids. intros (sc0 & Hsc0 & Hr0).
    apply Hnone in Hsc0. lia.
  - intros news_id sc Hout. split.
    + intros Hsc. apply map_lookup_filter_Some. split; [done|].
      by apply out_of_range.
    + intros c Hsc.
      destruct (swept_category now days s c) as [->| ->]; [done|].
      apply map_lookup_filter_Some. split; [done|]. by apply out_of_range.
  - intros news_id sc Hsc Hr.
    assert (news_id ∈ zrangebyscore now TIMELINE_ZSET 0
                        (now - days * 86400 * 1000) s) as Hin
      by (apply elem_of_old_ids; eauto).
    apply swept_old in Hin as [Hl Hd].
    unfold hgetall, Redis.get, lookup_key. by rewrite Hl, Hd.
  - intros news_id Hyoung. apply swept_young.
    intros (sc & Hsc & Hr)%elem_of_old_ids.
    apply Hyoung in Hsc. lia.
Qed.

End SweepRange.

(** ** What [save_news] answers *)

Section Outcomes.
Variables (now : Z) (news_id : string) (news_data : dict)
  (category : string) (publish_time : option Z) (s : db).

Let score := or_int publish_time now.




End Outcomes.
